(** * VidShare feed assembly: a shallow embedding of [controllers/helpers.js]

    The development follows the JavaScript source function by function.

    - Mongoose documents are records, one field per property the helpers
      read or write; arrays are lists, updated by index.  The properties
      that [getFeed] assigns on a post document by name ([like], [unlike],
      [flag]) live in a finite map keyed by the property name, so that a
      property nobody assigned is absent, as in JavaScript.
    - Numbers are integers ([Z]); an ObjectId is its numeric value ([N]);
      [undefined] and [null] are [None].
    - The two collections, [process.env], the clock behind [Date.now()] and
      the ObjectId generator form an explicit [World].  The asynchronous
      helpers run in a state and error monad over it; a JavaScript
      TypeError is the error.
    - [Script.find()] hands out fresh documents on every call, so the
      mutations of [getFeed] act on the value it got and reach the
      collection only through a write, of which the helpers have none.
    - The models [Script] and [Actor] are not part of the sources at hand.
      Whether their schemas declare [allowInteractions] on comments and
      the overlay properties on posts decides what [toObject] keeps, and
      what is left of [allowInteractions] on an object pushed into the
      [comments] array; both answers are parameters of the world.
    - [comments] and [subcomments] are document arrays.  An object that
      the helpers push into one, or assign with the array, becomes a
      subdocument with an [_id] that Mongoose generates; an [id] key of
      the object is not kept.  A property assigned on a subdocument that
      exists stays on it whether the schema declares it or not.
    - [Array.prototype.sort] is a stable sort and is modelled by a stable
      insertion sort; [Object.entries] lists integer keys in ascending
      order, which is how the reply dictionary is kept. *)

From Stdlib Require Import ZArith NArith String List Lia Bool Permutation.
From Stdlib Require Import Sorting.Sorted.
From stdpp Require Import base option list gmap strings.

Local Open Scope string_scope.
Local Open Scope list_scope.
Local Open Scope Z_scope.

(** ** Data model *)

(** A MongoDB ObjectId, by its numeric value. *)
Definition ObjectId := N.
Bind Scope N_scope with ObjectId.

(** The [id] of a comment or of a subcomment: the string of its [_id].
    Every subdocument has one.  A subdocument of the script carries the
    [_id] it was stored with.  A plain object that the helpers put into a
    document array, by [push] or by assigning an array to the path, is
    cast into a subdocument there and Mongoose gives it an [_id] of its
    own.  Such an [_id] did not exist before the call: it is equal to no
    [_id] of the script, to no reference of the action log and to no
    [_id] generated for another subdocument, and the helpers never read
    which value it is.  [generated] stands for any of them; the generator
    behind it is Mongoose's, not the [new ObjectId()] of the helpers. *)
Inductive DocId : Type :=
| stored (oid : ObjectId)
| generated.

Record Profile := {
  name : string;
  location : string;
  bio : string;
  color : string;
  picture : string
}.

Record Actor := {
  a_id : ObjectId;
  username : string;
  a_class : string;
  profile : Profile
}.

(** A reply below a comment, as a subdocument of [comments.subcomments]. *)
Record Subcomment := {
  s_id : DocId;
  s_commentID : N;
  s_body : string;
  s_likes : Z;
  s_unlikes : Z;
  s_actor : option Actor;
  s_time : Z;
  s_class : string;
  s_new_comment : bool;
  s_liked : bool;
  s_unliked : bool;
  s_flagged : bool;
  s_reply_to : option N;
  s_parent_comment : option N
}.

(** A top-level comment.  [c_allowInteractions] is [None] while the
    property is undefined. *)
Record Comment := {
  c_id : DocId;
  c_commentID : N;
  c_body : string;
  c_likes : Z;
  c_unlikes : Z;
  c_actor : option Actor;
  c_time : Z;
  c_class : string;
  c_removed : bool;
  c_allowInteractions : option bool;
  c_subcomments : list Subcomment;
  c_new_comment : bool;
  c_liked : bool;
  c_unliked : bool;
  c_flagged : bool
}.

(** A post of the script.  [v_own] holds the properties that the code
    assigns on the document by name ([like], [unlike], [flag]); a property
    never assigned is absent from the map, as it is undefined in
    JavaScript. *)
Record Video := {
  v_id : ObjectId;
  v_postID : Z;
  v_class : string;
  v_actor : option Actor;
  v_comments : list Comment;
  v_likes : Z;
  v_unlikes : Z;
  v_own : gmap string bool
}.

(** One entry of [feedAction[i].comments]. *)
Record ActionedComment := {
  ac_comment : option ObjectId;
  ac_new_comment : bool;
  ac_new_comment_id : N;
  ac_body : string;
  ac_liked : bool;
  ac_unliked : bool;
  ac_flagged : bool;
  ac_relativeTime : Z;
  ac_reply_to : option N;
  ac_parent_comment : N
}.

Record FeedAction := {
  fa_post : ObjectId;
  fa_liked : bool;
  fa_unliked : bool;
  fa_flagged : bool;
  fa_comments : list ActionedComment
}.

Record User := {
  condition : string;
  interest : string;
  createdAt : Z;
  feedAction : list FeedAction
}.

(** The variables of [process.env] that the helpers read. *)
Record Env := {
  HARASSMENT_COMMENT : option string;
  REMOVAL_AI_NO_REF : option string;
  REMOVAL_AI_REF : option string;
  REMOVAL_COM_NO_REF : option string;
  REMOVAL_COM_REF : option string;
  OBJECTION_AI_NO_REF : option string;
  OBJECTION_AI_REF : option string;
  OBJECTION_COM_NO_REF : option string;
  OBJECTION_COM_REF : option string
}.

(** Everything outside the function: the two collections (script documents
    stored with their actors populated), the environment, the clock read by
    [Date.now()], the next value of the ObjectId generator, and whether the
    schema declares the two kinds of property that [toObject] may drop. *)
Record World := {
  scripts : list Video;
  actorsDB : list Actor;
  env : Env;
  clock : Z;
  next_oid : ObjectId;
  schema_allowInteractions : bool;
  schema_post_overlay : bool
}.

(** ** Field updates (JavaScript assignments to one property) *)

Definition set_c_body (x : string) (c : Comment) : Comment :=
  {| c_id := c_id c; c_commentID := c_commentID c; c_body := x;
     c_likes := c_likes c; c_unlikes := c_unlikes c; c_actor := c_actor c;
     c_time := c_time c; c_class := c_class c; c_removed := c_removed c;
     c_allowInteractions := c_allowInteractions c;
     c_subcomments := c_subcomments c; c_new_comment := c_new_comment c;
     c_liked := c_liked c; c_unliked := c_unliked c; c_flagged := c_flagged c |}.

Definition set_c_likes (x : Z) (c : Comment) : Comment :=
  {| c_id := c_id c; c_commentID := c_commentID c; c_body := c_body c;
     c_likes := x; c_unlikes := c_unlikes c; c_actor := c_actor c;
     c_time := c_time c; c_class := c_class c; c_removed := c_removed c;
     c_allowInteractions := c_allowInteractions c;
     c_subcomments := c_subcomments c; c_new_comment := c_new_comment c;
     c_liked := c_liked c; c_unliked := c_unliked c; c_flagged := c_flagged c |}.

Definition set_c_unlikes (x : Z) (c : Comment) : Comment :=
  {| c_id := c_id c; c_commentID := c_commentID c; c_body := c_body c;
     c_likes := c_likes c; c_unlikes := x; c_actor := c_actor c;
     c_time := c_time c; c_class := c_class c; c_removed := c_removed c;
     c_allowInteractions := c_allowInteractions c;
     c_subcomments := c_subcomments c; c_new_comment := c_new_comment c;
     c_liked := c_liked c; c_unliked := c_unliked c; c_flagged := c_flagged c |}.

Definition set_c_actor (x : option Actor) (c : Comment) : Comment :=
  {| c_id := c_id c; c_commentID := c_commentID c; c_body := c_body c;
     c_likes := c_likes c; c_unlikes := c_unlikes c; c_actor := x;
     c_time := c_time c; c_class := c_class c; c_removed := c_removed c;
     c_allowInteractions := c_allowInteractions c;
     c_subcomments := c_subcomments c; c_new_comment := c_new_comment c;
     c_liked := c_liked c; c_unliked := c_unliked c; c_flagged := c_flagged c |}.

Definition set_c_time (x : Z) (c : Comment) : Comment :=
  {| c_id := c_id c; c_commentID := c_commentID c; c_body := c_body c;
     c_likes := c_likes c; c_unlikes := c_unlikes c; c_actor := c_actor c;
     c_time := x; c_class := c_class c; c_removed := c_removed c;
     c_allowInteractions := c_allowInteractions c;
     c_subcomments := c_subcomments c; c_new_comment := c_new_comment c;
     c_liked := c_liked c; c_unliked := c_unliked c; c_flagged := c_flagged c |}.

Definition set_c_class (x : string) (c : Comment) : Comment :=
  {| c_id := c_id c; c_commentID := c_commentID c; c_body := c_body c;
     c_likes := c_likes c; c_unlikes := c_unlikes c; c_actor := c_actor c;
     c_time := c_time c; c_class := x; c_removed := c_removed c;
     c_allowInteractions := c_allowInteractions c;
     c_subcomments := c_subcomments c; c_new_comment := c_new_comment c;
     c_liked := c_liked c; c_unliked := c_unliked c; c_flagged := c_flagged c |}.

Definition set_c_removed (x : bool) (c : Comment) : Comment :=
  {| c_id := c_id c; c_commentID := c_commentID c; c_body := c_body c;
     c_likes := c_likes c; c_unlikes := c_unlikes c; c_actor := c_actor c;
     c_time := c_time c; c_class := c_class c; c_removed := x;
     c_allowInteractions := c_allowInteractions c;
     c_subcomments := c_subcomments c; c_new_comment := c_new_comment c;
     c_liked := c_liked c; c_unliked := c_unliked c; c_flagged := c_flagged c |}.

Definition set_c_allowInteractions (x : option bool) (c : Comment) : Comment :=
  {| c_id := c_id c; c_commentID := c_commentID c; c_body := c_body c;
     c_likes := c_likes c; c_unlikes := c_unlikes c; c_actor := c_actor c;
     c_time := c_time c; c_class := c_class c; c_removed := c_removed c;
     c_allowInteractions := x;
     c_subcomments := c_subcomments c; c_new_comment := c_new_comment c;
     c_liked := c_liked c; c_unliked := c_unliked c; c_flagged := c_flagged c |}.

Definition set_c_subcomments (x : list Subcomment) (c : Comment) : Comment :=
  {| c_id := c_id c; c_commentID := c_commentID c; c_body := c_body c;
     c_likes := c_likes c; c_unlikes := c_unlikes c; c_actor := c_actor c;
     c_time := c_time c; c_class := c_class c; c_removed := c_removed c;
     c_allowInteractions := c_allowInteractions c;
     c_subcomments := x; c_new_comment := c_new_comment c;
     c_liked := c_liked c; c_unliked := c_unliked c; c_flagged := c_flagged c |}.

Definition set_c_liked (x : bool) (c : Comment) : Comment :=
  {| c_id := c_id c; c_commentID := c_commentID c; c_body := c_body c;
     c_likes := c_likes c; c_unlikes := c_unlikes c; c_actor := c_actor c;
     c_time := c_time c; c_class := c_class c; c_removed := c_removed c;
     c_allowInteractions := c_allowInteractions c;
     c_subcomments := c_subcomments c; c_new_comment := c_new_comment c;
     c_liked := x; c_unliked := c_unliked c; c_flagged := c_flagged c |}.

Definition set_c_unliked (x : bool) (c : Comment) : Comment :=
  {| c_id := c_id c; c_commentID := c_commentID c; c_body := c_body c;
     c_likes := c_likes c; c_unlikes := c_unlikes c; c_actor := c_actor c;
     c_time := c_time c; c_class := c_class c; c_removed := c_removed c;
     c_allowInteractions := c_allowInteractions c;
     c_subcomments := c_subcomments c; c_new_comment := c_new_comment c;
     c_liked := c_liked c; c_unliked := x; c_flagged := c_flagged c |}.

Definition set_c_flagged (x : bool) (c : Comment) : Comment :=
  {| c_id := c_id c; c_commentID := c_commentID c; c_body := c_body c;
     c_likes := c_likes c; c_unlikes := c_unlikes c; c_actor := c_actor c;
     c_time := c_time c; c_class := c_class c; c_removed := c_removed c;
     c_allowInteractions := c_allowInteractions c;
     c_subcomments := c_subcomments c; c_new_comment := c_new_comment c;
     c_liked := c_liked c; c_unliked := c_unliked c; c_flagged := x |}.

Definition set_s_likes (x : Z) (s : Subcomment) : Subcomment :=
  {| s_id := s_id s; s_commentID := s_commentID s; s_body := s_body s;
     s_likes := x; s_unlikes := s_unlikes s; s_actor := s_actor s;
     s_time := s_time s; s_class := s_class s;
     s_new_comment := s_new_comment s; s_liked := s_liked s;
     s_unliked := s_unliked s; s_flagged := s_flagged s;
     s_reply_to := s_reply_to s; s_parent_comment := s_parent_comment s |}.

Definition set_s_unlikes (x : Z) (s : Subcomment) : Subcomment :=
  {| s_id := s_id s; s_commentID := s_commentID s; s_body := s_body s;
     s_likes := s_likes s; s_unlikes := x; s_actor := s_actor s;
     s_time := s_time s; s_class := s_class s;
     s_new_comment := s_new_comment s; s_liked := s_liked s;
     s_unliked := s_unliked s; s_flagged := s_flagged s;
     s_reply_to := s_reply_to s; s_parent_comment := s_parent_comment s |}.

Definition set_s_liked (x : bool) (s : Subcomment) : Subcomment :=
  {| s_id := s_id s; s_commentID := s_commentID s; s_body := s_body s;
     s_likes := s_likes s; s_unlikes := s_unlikes s; s_actor := s_actor s;
     s_time := s_time s; s_class := s_class s;
     s_new_comment := s_new_comment s; s_liked := x;
     s_unliked := s_unliked s; s_flagged := s_flagged s;
     s_reply_to := s_reply_to s; s_parent_comment := s_parent_comment s |}.

Definition set_s_unliked (x : bool) (s : Subcomment) : Subcomment :=
  {| s_id := s_id s; s_commentID := s_commentID s; s_body := s_body s;
     s_likes := s_likes s; s_unlikes := s_unlikes s; s_actor := s_actor s;
     s_time := s_time s; s_class := s_class s;
     s_new_comment := s_new_comment s; s_liked := s_liked s;
     s_unliked := x; s_flagged := s_flagged s;
     s_reply_to := s_reply_to s; s_parent_comment := s_parent_comment s |}.

Definition set_s_flagged (x : bool) (s : Subcomment) : Subcomment :=
  {| s_id := s_id s; s_commentID := s_commentID s; s_body := s_body s;
     s_likes := s_likes s; s_unlikes := s_unlikes s; s_actor := s_actor s;
     s_time := s_time s; s_class := s_class s;
     s_new_comment := s_new_comment s; s_liked := s_liked s;
     s_unliked := s_unliked s; s_flagged := x;
     s_reply_to := s_reply_to s; s_parent_comment := s_parent_comment s |}.

Definition set_v_comments (x : list Comment) (v : Video) : Video :=
  {| v_id := v_id v; v_postID := v_postID v; v_class := v_class v;
     v_actor := v_actor v; v_comments := x; v_likes := v_likes v;
     v_unlikes := v_unlikes v; v_own := v_own v |}.

Definition set_v_likes (x : Z) (v : Video) : Video :=
  {| v_id := v_id v; v_postID := v_postID v; v_class := v_class v;
     v_actor := v_actor v; v_comments := v_comments v; v_likes := x;
     v_unlikes := v_unlikes v; v_own := v_own v |}.

Definition set_v_unlikes (x : Z) (v : Video) : Video :=
  {| v_id := v_id v; v_postID := v_postID v; v_class := v_class v;
     v_actor := v_actor v; v_comments := v_comments v; v_likes := v_likes v;
     v_unlikes := x; v_own := v_own v |}.

Definition set_v_own (x : gmap string bool) (v : Video) : Video :=
  {| v_id := v_id v; v_postID := v_postID v; v_class := v_class v;
     v_actor := v_actor v; v_comments := v_comments v; v_likes := v_likes v;
     v_unlikes := v_unlikes v; v_own := x |}.

Definition set_next_oid (x : ObjectId) (w : World) : World :=
  {| scripts := scripts w; actorsDB := actorsDB w; env := env w;
     clock := clock w; next_oid := x;
     schema_allowInteractions := schema_allowInteractions w;
     schema_post_overlay := schema_post_overlay w |}.

Definition set_clock (x : Z) (w : World) : World :=
  {| scripts := scripts w; actorsDB := actorsDB w; env := env w;
     clock := x; next_oid := next_oid w;
     schema_allowInteractions := schema_allowInteractions w;
     schema_post_overlay := schema_post_overlay w |}.

(** ** JavaScript library functions *)

(** [Array.prototype.findIndex] and lodash's [_.findIndex]; [None] is -1. *)
Fixpoint findIndex {A : Type} (p : A -> bool) (l : list A) : option nat :=
  match l with
  | [] => None
  | x :: l' => if p x then Some 0%nat else S <$> findIndex p l'
  end.

(** [String.prototype.includes]. *)
Fixpoint includes (s sub : string) : bool :=
  String.prefix sub s ||
  match s with
  | EmptyString => false
  | String _ s' => includes s' sub
  end.

(** [String.prototype.startsWith]. *)
Definition startsWith (s pre : string) : bool := String.prefix pre s.

(** [process.env.X || fallback]: an unset or empty variable is falsy. *)
Definition env_or (x : option string) (fallback : string) : string :=
  match x with
  | Some (String a s) => String a s
  | _ => fallback
  end.

(** [Array.prototype.sort] with a comparator [cmp] that returns a number.
    The built-in sort is stable, and so is this insertion sort: [x] is put
    before the first [y] that [cmp x y <= 0] allows it to precede. *)
Section Sort.
Context {A : Type} (cmp : A -> A -> Z).

Fixpoint insert_sorted (x : A) (l : list A) : list A :=
  match l with
  | [] => [x]
  | y :: l' =>
      if cmp x y <=? 0 then x :: y :: l' else y :: insert_sorted x l'
  end.

Definition sort_by (l : list A) : list A := foldr insert_sorted [] l.
End Sort.

(** The comparators handed to [sort]: [b.time - a.time] for the top-level
    comments, [a.time - b.time] for merged subcomments, and
    [a.postID - b.postID] for posts (also the order of [.sort('postID')]). *)
Definition by_time_desc (a b : Comment) : Z := c_time b - c_time a.
Definition by_time_asc (a b : Subcomment) : Z := s_time a - s_time b.
Definition by_postID (a b : Video) : Z := v_postID a - v_postID b.

(** ** The monad of the asynchronous helpers *)

Inductive result (A : Type) : Type :=
| Ok (a : A)
| TypeError (msg : string).
Arguments Ok {A} a.
Arguments TypeError {A} msg.

Definition M (A : Type) : Type := World -> result A * World.

Definition ret {A : Type} (a : A) : M A := fun w => (Ok a, w).

Definition throw {A : Type} (msg : string) : M A := fun w => (TypeError msg, w).

Definition bind {A B : Type} (m : M A) (k : A -> M B) : M B :=
  fun w =>
    match m w with
    | (Ok a, w') => k a w'
    | (TypeError msg, w') => (TypeError msg, w')
    end.

Definition lift {A : Type} (r : result A) : M A := fun w => (r, w).

Notation "'let*' x ':=' m 'in' k" := (bind m (fun x => k))
  (at level 10, x name, m at level 100, k at level 200).

(** Error propagation outside the monad, for the synchronous loops. *)
Definition rbind {A B : Type} (r : result A) (k : A -> result B) : result B :=
  match r with
  | Ok a => k a
  | TypeError msg => TypeError msg
  end.

(** *** Collaborators *)

(** [Script.find().where('class').equals(interest).sort('postID')], with
    the three [populate] calls already applied in the store. *)
Definition Script_find (interest : string) : M (list Video) :=
  fun w =>
    (Ok (sort_by by_postID
           (List.filter (fun v => String.eqb (v_class v) interest) (scripts w))),
     w).

(** [Actor.findOne().where('username').equals(u)]. *)
Definition Actor_findOne_username (u : string) : M (option Actor) :=
  fun w => (Ok (List.find (fun a => String.eqb (username a) u) (actorsDB w)), w).

(** [Actor.find().where('class').equals(c).where('username').ne(u)]. *)
Definition Actor_find_class_ne (c u : string) : M (list Actor) :=
  fun w =>
    (Ok (List.filter
           (fun a => String.eqb (a_class a) c && negb (String.eqb (username a) u))
           (actorsDB w)),
     w).

(** [Actor.findOne()]. *)
Definition Actor_findOne : M (option Actor) :=
  fun w => (Ok (head (actorsDB w)), w).

(** [Date.now()]. *)
Definition Date_now : M Z := fun w => (Ok (clock w), w).

(** [new mongoose.Types.ObjectId()]: a value never handed out before. *)
Definition new_ObjectId : M ObjectId :=
  fun w => (Ok (next_oid w), set_next_oid (N.succ (next_oid w)) w).

(** Whether [allowInteractions] is a path of the comment schema of
    [models/Script.js], which decides what a cast into the [comments]
    array and [toObject] keep of it. *)
Definition comment_schema_allowInteractions : M bool :=
  fun w => (Ok (schema_allowInteractions w), w).

(** [process.env.X || fallback]. *)
Definition getenv (var : Env -> option string) (fallback : string) : M string :=
  fun w => (Ok (env_or (var (env w)) fallback), w).

(** ** Helpers of [helpers.js] *)

Definition HARASSMENT_TIME_OFFSET : Z := -6 * 60 * 60 * 1000.

(** [setHarassmentCommentTime]; [markModified] only flags the path as dirty
    for a later [toObject] or [save] and changes no field. *)
Definition setHarassmentCommentTime (comment : Comment) : Comment :=
  set_c_time HARASSMENT_TIME_OFFSET comment.

(** [serializeActorForSubcomment]: [toObject] copies the fields. *)
Definition serializeActorForSubcomment (actor : Actor) : Actor := actor.

Definition deleted_profile : Profile :=
  {| name := ""; location := ""; bio := ""; color := "#9bbcd6";
     picture := "30_bat.svg" |}.

(** [setDeletedActor]; reading [_id] of a missing actor is a TypeError. *)
Definition setDeletedActor (comment : Comment) (originalActor : option Actor)
  : result Comment :=
  match originalActor with
  | None => TypeError "Cannot read properties of null (reading '_id')"
  | Some a =>
      Ok (set_c_actor
            (Some {| a_id := a_id a; username := "[deleted]"; a_class := "";
                     profile := deleted_profile |})
            comment)
  end.

(** ** [applyManipulationToFirstVideo] *)

(** [user.condition && (startsWith('Obj:AI:') || startsWith('Obj:Com:'))];
    a falsy condition yields a falsy value, read here as [false]. *)
Definition isObjectionCondition (cond : string) : bool :=
  startsWith cond "Obj:AI:" || startsWith cond "Obj:Com:".

Definition HARASSMENT_MARKER : string := "LOL, did you even preview".

(** Lines 348-358: the index of the harassment comment, by class and then
    by body. *)
Definition locateHarassment (comments : list Comment) : option nat :=
  if (0 <? length comments)%nat then
    match findIndex (fun c => String.eqb (c_class c) "offense1") comments with
    | Some i => Some i
    | None => findIndex (fun c => includes (c_body c) HARASSMENT_MARKER) comments
    end
  else None.

(** Lines 362-377: the assignments on the comment that was found. *)
Definition markFound (cond : string) (foundComment : Comment) : Comment :=
  set_c_allowInteractions (Some (isObjectionCondition cond))
    (setHarassmentCommentTime
       (set_c_unlikes 0 (set_c_likes 0 (set_c_class "offense1" foundComment)))).

(** Lines 395-406: the comment created when none was found, as the
    subdocument that [firstVideo.comments.push(harassmentCommentObj)]
    leaves in the array.  The cast gives it an [_id] and keeps the keys
    that are paths of the comment schema: [allowInteractions] is kept when
    the schema declares it and dropped otherwise, so that the property is
    then undefined on the subdocument. *)
Definition harassmentCommentObj (declares_allowInteractions : bool)
    (cond harassmentComment : string) (harassmentActor : Actor) : Comment :=
  {| c_id := generated; c_commentID := 999; c_body := harassmentComment;
     c_likes := 0; c_unlikes := 0; c_actor := Some harassmentActor;
     c_time := -6 * 60 * 60 * 1000; c_class := "offense1";
     c_removed := false;
     c_allowInteractions :=
       if declares_allowInteractions
       then Some (isObjectionCondition cond) else None;
     c_subcomments := []; c_new_comment := false; c_liked := false;
     c_unliked := false; c_flagged := false |}.

(** Lines 347-409: find the harassment comment or create it.  Returns the
    index ([None] is -1) and the comments array. *)
Definition ensureHarassment (cond harassmentComment : string)
    (comments : list Comment) : M (option nat * list Comment) :=
  match locateHarassment comments with
  | Some i => ret (Some i, alter (markFound cond) i comments)
  | None =>
      let* harassmentActor := Actor_findOne in
      match harassmentActor with
      | Some a =>
          let* declares_allowInteractions := comment_schema_allowInteractions in
          ret (Some (length comments),
               comments
               ++ [harassmentCommentObj declares_allowInteractions cond
                     harassmentComment a])
      | None => ret (None, comments)
      end
  end.

(** [case 'Control']. *)
Definition controlCase (harassmentComment : string) (idx : option nat)
    (comments : list Comment) : list Comment :=
  match idx with
  | Some i =>
      alter (fun controlComment =>
               setHarassmentCommentTime
                 (set_c_allowInteractions (Some true)
                    (set_c_subcomments []
                       (set_c_unlikes 0
                          (set_c_likes 0
                             (set_c_removed false
                                (set_c_class "offense1"
                                   (set_c_body harassmentComment
                                      controlComment))))))))
        i comments
  | None => comments
  end.

(** The four [case 'Rem:...'] branches, which differ in the body and the
    class they assign. *)
Definition removalCase (body class : string) (idx : option nat)
    (comments : list Comment) : result (list Comment) :=
  match idx with
  | Some i =>
      match comments !! i with
      | Some c =>
          let c1 :=
            setHarassmentCommentTime
              (set_c_subcomments []
                 (set_c_unlikes 0
                    (set_c_likes 0
                       (set_c_removed true
                          (set_c_class class (set_c_body body c)))))) in
          rbind (setDeletedActor c1 (c_actor c1))
            (fun c2 => Ok (<[i := c2]> comments))
      | None => TypeError "Cannot set properties of undefined (setting 'body')"
      end
  | None => TypeError "Cannot set properties of undefined (setting 'body')"
  end.

(** The four [case 'Obj:...'] branches, which differ in the actor, the body
    and the class of the subcomment they push.  The pushed object is cast
    into a subdocument of [subcomments]: its key [id] is no path of the
    schema and is dropped, so the ObjectId drawn for it is lost and the
    subdocument answers [id] with the [_id] generated at the push. *)
Definition objectionCase (actor : option Actor) (body class : string)
    (user : User) (idx : option nat) (comments : list Comment)
  : M (list Comment) :=
  match actor, idx with
  | Some a, Some i =>
      let actorForSubcomment := serializeActorForSubcomment a in
      let* objectionId := new_ObjectId in
      let* now := Date_now in
      let subcomment :=
        {| s_id := generated; s_commentID := 96; s_body := body;
           s_likes := 0; s_unlikes := 0; s_actor := Some actorForSubcomment;
           s_time := (now - 3 * 60 * 60 * 1000) - createdAt user;
           s_class := class; s_new_comment := false; s_liked := false;
           s_unliked := false; s_flagged := false; s_reply_to := None;
           s_parent_comment := None |} in
      match comments !! i with
      | Some c =>
          ret (<[i := set_c_subcomments (c_subcomments c ++ [subcomment]) c]>
                 comments)
      | None =>
          throw "Cannot read properties of undefined (reading 'subcomments')"
      end
  | _, _ => ret comments
  end.

(** Lines 417-599: the [switch] on [user.condition]. *)
Definition switchCondition (user : User) (aiBotActor : option Actor)
    (humanObjectionActors : list Actor) (harassmentComment : string)
    (idx : option nat) (comments : list Comment) : M (list Comment) :=
  let cond := condition user in
  if String.eqb cond "Control" then
    ret (controlCase harassmentComment idx comments)
  else if String.eqb cond "Rem:AI:NoRef" then
    let* body := getenv REMOVAL_AI_NO_REF
      "This comment is removed. Our botðŸ¤– removed the comment for containing harassing language." in
    lift (removalCase body "ai_removal_no_ref" idx comments)
  else if String.eqb cond "Rem:AI:Ref" then
    let* body := getenv REMOVAL_AI_REF
      "This comment is removed. Our botðŸ¤– removed this comment for containing harassing language inconsistent with typical community behavior." in
    lift (removalCase body "ai_removal_community" idx comments)
  else if String.eqb cond "Rem:Com:NoRef" then
    let* body := getenv REMOVAL_COM_NO_REF
      "This comment is removed. Our community memberðŸ™‹ removed the comment for containing harassing language." in
    lift (removalCase body "community_removal_no_ref" idx comments)
  else if String.eqb cond "Rem:Com:Ref" then
    let* body := getenv REMOVAL_COM_REF
      "This comment is removed. Our community memberðŸ§‘ removed this comment for containing harassing language inconsistent with typical community behavior." in
    lift (removalCase body "community_removal_community" idx comments)
  else if String.eqb cond "Obj:AI:NoRef" then
    let* body := getenv OBJECTION_AI_NO_REF
      "This comment is offensive toward others. Please remember to stay respectful to each other here." in
    objectionCase aiBotActor body "ai_objection_no_ref" user idx comments
  else if String.eqb cond "Obj:AI:Ref" then
    let* body := getenv OBJECTION_AI_REF
      "This comment is offensive toward others. This is not how people typically respond in this community." in
    objectionCase aiBotActor body "ai_objection_community" user idx comments
  else if String.eqb cond "Obj:Com:NoRef" then
    let* body := getenv OBJECTION_COM_NO_REF
      "Please remember to stay respectful to each other here." in
    objectionCase (head humanObjectionActors) body "human_objection_no_ref"
      user idx comments
  else if String.eqb cond "Obj:Com:Ref" then
    let* body := getenv OBJECTION_COM_REF
      "This comment is offensive toward others. This is not how people typically respond in this community." in
    objectionCase (head humanObjectionActors) body "human_objection_community"
      user idx comments
  else ret comments.

Definition applyManipulationToFirstVideo (firstVideo : Video) (user : User)
  : M Video :=
  let* aiBotActor := Actor_findOne_username "VidShare Bot" in
  let* humanObjectionActors := Actor_find_class_ne "objection" "VidShare Bot" in
  let* harassmentComment := getenv HARASSMENT_COMMENT
    "LOL, did you even preview this before sharing? No one is interested in this crap. Save your time and ours." in
  let* located :=
    ensureHarassment (condition user) harassmentComment (v_comments firstVideo) in
  match fst located with
  | None =>
      if negb (String.eqb (condition user) "Control") then
        ret (set_v_comments (snd located) firstVideo)
      else
        let* comments :=
          switchCondition user aiBotActor humanObjectionActors
            harassmentComment None (snd located) in
        ret (set_v_comments comments firstVideo)
  | Some i =>
      let* comments :=
        switchCondition user aiBotActor humanObjectionActors
          harassmentComment (Some i) (snd located) in
      ret (set_v_comments comments firstVideo)
  end.

(** [applyExperimentalManipulations]: only a feed of exactly three videos
    is manipulated, and only its first video. *)
Definition applyExperimentalManipulations (script_feed : list Video)
    (user : User) : M (list Video) :=
  match script_feed with
  | [v0; v1; v2] =>
      let* v0' := applyManipulationToFirstVideo v0 user in
      ret [v0'; v1; v2]
  | _ => ret script_feed
  end.

(** ** [getFeed] *)

(** Lines 85-90: the comments that the re-pinning pass selects. *)
Definition isHarassmentOrRemoval (comment : Comment) : bool :=
  (String.eqb (c_class comment) "offense1"
   && includes (c_body comment) HARASSMENT_MARKER)
  || (includes (c_class comment) "removal"
      || includes (c_class comment) "ai_removal"
      || includes (c_class comment) "community_removal").

(** Lines 78-94: pin the time of every selected comment of every video. *)
Definition repinPass (script_feed : list Video) : list Video :=
  map (fun video =>
         set_v_comments
           (map (fun comment =>
                   if isHarassmentOrRemoval comment
                   then setHarassmentCommentTime comment else comment)
              (v_comments video))
           video)
    script_feed.

(** [replyDictionary]: the entries in the order [Object.entries] lists
    them, which for integer keys is ascending. *)
Definition ReplyDictionary := list (N * list Subcomment).

Fixpoint dict_push (k : N) (x : Subcomment) (d : ReplyDictionary)
  : ReplyDictionary :=
  match d with
  | [] => [(k, [x])]
  | (k', xs) :: d' =>
      if (k =? k')%N then (k', xs ++ [x]) :: d'
      else if (k <? k')%N then (k, [x]) :: (k', xs) :: d'
      else (k', xs) :: dict_push k x d'
  end.

(** Lines 116-126 and 137: [cat], as the subdocument that
    [script_feed[0].comments.push(cat)] leaves among the top-level
    comments: it has an [_id] generated at the push and an empty
    [subcomments]. *)
Definition cat_comment (commentObject : ActionedComment) : Comment :=
  {| c_id := generated; c_commentID := ac_new_comment_id commentObject;
     c_body := ac_body commentObject;
     c_likes := if ac_liked commentObject then 1 else 0;
     c_unlikes := if ac_unliked commentObject then 1 else 0;
     c_actor := None; c_time := ac_relativeTime commentObject;
     c_class := ""; c_removed := false; c_allowInteractions := None;
     c_subcomments := []; c_new_comment := ac_new_comment commentObject;
     c_liked := ac_liked commentObject;
     c_unliked := ac_unliked commentObject; c_flagged := false |}.

(** Lines 116-130: [cat] with [reply_to] and [parent_comment], buffered in
    the dictionary.  Nothing reads the [id] of a buffered reply; the
    assignment of lines 192-196 casts it into a subdocument of
    [subcomments], which gives it the generated [_id] it has here. *)
Definition cat_reply (commentObject : ActionedComment) (reply_to : N)
  : Subcomment :=
  {| s_id := generated; s_commentID := ac_new_comment_id commentObject;
     s_body := ac_body commentObject;
     s_likes := if ac_liked commentObject then 1 else 0;
     s_unlikes := if ac_unliked commentObject then 1 else 0;
     s_actor := None; s_time := ac_relativeTime commentObject;
     s_class := ""; s_new_comment := ac_new_comment commentObject;
     s_liked := ac_liked commentObject;
     s_unliked := ac_unliked commentObject; s_flagged := false;
     s_reply_to := Some reply_to;
     s_parent_comment := Some (ac_parent_comment commentObject) |}.

(** [o.id == commentObject.comment]: the [id] of a subdocument against
    the reference of a log entry.  An entry without a reference matches no
    subdocument, and a generated [_id] is the reference of no entry. *)
Definition id_matches (id : DocId) (ref : option ObjectId) : bool :=
  match id, ref with
  | stored a, Some b => (a =? b)%N
  | _, _ => false
  end.

(** Lines 146-159. *)
Definition applyDeltaComment (commentObject : ActionedComment) (c : Comment)
  : Comment :=
  let c1 := if ac_liked commentObject
            then set_c_likes (c_likes c + 1) (set_c_liked true c) else c in
  let c2 := if ac_unliked commentObject
            then set_c_unlikes (c_unlikes c1 + 1) (set_c_unliked true c1)
            else c1 in
  if ac_flagged commentObject then set_c_flagged true c2 else c2.

(** Lines 166-179. *)
Definition applyDeltaSubcomment (commentObject : ActionedComment)
    (s : Subcomment) : Subcomment :=
  let s1 := if ac_liked commentObject
            then set_s_likes (s_likes s + 1) (set_s_liked true s) else s in
  let s2 := if ac_unliked commentObject
            then set_s_unlikes (s_unlikes s1 + 1) (set_s_unliked true s1)
            else s1 in
  if ac_flagged commentObject then set_s_flagged true s2 else s2.

(** Lines 162-181: the [forEach] over the comments that looks for the
    subcomment in each of them. *)
Definition applyDeltaInSubcomments (commentObject : ActionedComment)
    (comment : Comment) : Comment :=
  match findIndex (fun o => id_matches (s_id o) (ac_comment commentObject))
          (c_subcomments comment) with
  | Some subcommentIndex =>
      set_c_subcomments
        (alter (applyDeltaSubcomment commentObject) subcommentIndex
           (c_subcomments comment))
        comment
  | None => comment
  end.

(** Lines 113-184: one iteration of the loop over the comment actions,
    on the comments of the post and the dictionary. *)
Definition processCommentObject (st : list Comment * ReplyDictionary)
    (commentObject : ActionedComment) : list Comment * ReplyDictionary :=
  let (comments, replyDictionary) := st in
  if ac_new_comment commentObject then
    match ac_reply_to commentObject with
    | Some reply_to =>
        (comments,
         dict_push (ac_parent_comment commentObject)
           (cat_reply commentObject reply_to) replyDictionary)
    | None => (comments ++ [cat_comment commentObject], replyDictionary)
    end
  else
    match findIndex (fun o => id_matches (c_id o) (ac_comment commentObject))
            comments with
    | Some commentIndex =>
        (alter (applyDeltaComment commentObject) commentIndex comments,
         replyDictionary)
    | None =>
        (map (applyDeltaInSubcomments commentObject) comments, replyDictionary)
    end.

(** Lines 190-197: attach the buffered replies.  No index check guards the
    access [comments[commentIndex]["subcomments"]], so a key that matches
    no comment is a TypeError. *)
Fixpoint mergeReplies (replyDictionary : ReplyDictionary)
    (comments : list Comment) : result (list Comment) :=
  match replyDictionary with
  | [] => Ok comments
  | (key, value) :: rest =>
      match findIndex (fun o => (c_commentID o =? key)%N) comments with
      | Some commentIndex =>
          mergeReplies rest
            (alter (fun c =>
                      set_c_subcomments
                        (sort_by by_time_asc (c_subcomments c ++ value)) c)
               commentIndex comments)
      | None =>
          TypeError "Cannot read properties of undefined (reading 'subcomments')"
      end
  end.

(** Lines 199-212: the post-level overlay. *)
Definition applyPostOverlay (fa : FeedAction) (post : Video) : Video :=
  let p1 := if fa_liked fa
            then set_v_likes (v_likes post + 1)
                   (set_v_own (<["like" := true]> (v_own post)) post)
            else post in
  let p2 := if fa_unliked fa
            then set_v_unlikes (v_unlikes p1 + 1)
                   (set_v_own (<["unlike" := true]> (v_own p1)) p1)
            else p1 in
  if fa_flagged fa then set_v_own (<["flag" := true]> (v_own p2)) p2 else p2.

(** Lines 101-223: the body of the [while] loop for one post. *)
Definition replayPost (user : User) (post : Video) : result Video :=
  match List.find (fun o => (fa_post o =? v_id post)%N) (feedAction user) with
  | Some fa =>
      let (comments, replyDictionary) :=
        fold_left processCommentObject (fa_comments fa) (v_comments post, []) in
      rbind (mergeReplies replyDictionary (sort_by by_time_desc comments))
        (fun comments' => Ok (applyPostOverlay fa (set_v_comments comments' post)))
  | None =>
      Ok (set_v_comments (sort_by by_time_desc (v_comments post)) post)
  end.

(** Lines 100-224: the [while] loop moves the posts of [script_feed] to
    [finalfeed] one by one, in order. *)
Fixpoint replayAll (user : User) (script_feed : list Video)
  : result (list Video) :=
  match script_feed with
  | [] => Ok []
  | post :: rest =>
      rbind (replayPost user post)
        (fun post' =>
           rbind (replayAll user rest) (fun rest' => Ok (post' :: rest')))
  end.

(** [toObject] on a comment keeps the schema paths; [allowInteractions]
    survives only when the schema declares it. *)
Definition toObject_comment (keeps_allowInteractions : bool) (c : Comment)
  : Comment :=
  if keeps_allowInteractions then c else set_c_allowInteractions None c.

(** Lines 246-261: the comment of the document with the same [commentID],
    or else the same [id].  A comment and its own copy in [postObj] have
    the same [commentID], so the second test decides only between two
    different subdocuments, and those never share a generated [_id]. *)
Definition sameComment (comment c : Comment) : bool :=
  (c_commentID c =? c_commentID comment)%N
  || match c_id c, c_id comment with
     | stored a, stored b => (a =? b)%N
     | _, _ => false
     end.

(** Lines 243-277: restore [allowInteractions] from the document. *)
Definition restoreAllowInteractions (original : list Comment)
    (comment : Comment) : Comment :=
  match List.find (sameComment comment) original with
  | Some originalComment =>
      match c_allowInteractions originalComment with
      | Some b => set_c_allowInteractions (Some b) comment
      | None => comment
      end
  | None => comment
  end.

(** Lines 231-280: one post of [serializedFeed]. *)
Definition serializePost (keeps_allowInteractions keeps_overlay : bool)
    (post : Video) : Video :=
  let postObj :=
    set_v_comments (map (toObject_comment keeps_allowInteractions) (v_comments post))
      (if keeps_overlay then post else set_v_own ∅ post) in
  set_v_comments
    (map (restoreAllowInteractions (v_comments post)) (v_comments postObj))
    postObj.

Definition serializeFeed (finalfeed : list Video) : M (list Video) :=
  fun w =>
    (Ok (map (serializePost (schema_allowInteractions w) (schema_post_overlay w))
           finalfeed),
     w).

(** Lines 284-294: the final pass. *)
Definition finalPinPass (serializedFeed : list Video) : list Video :=
  map (fun post =>
         set_v_comments
           (map (fun comment =>
                   if String.eqb (c_class comment) "offense1"
                      && includes (c_body comment) HARASSMENT_MARKER
                   then setHarassmentCommentTime comment else comment)
              (v_comments post))
           post)
    serializedFeed.

Definition getFeed (user : User) : M (list Video) :=
  let* script_feed := Script_find (interest user) in
  let* script_feed := applyExperimentalManipulations script_feed user in
  let script_feed := repinPass script_feed in
  let* finalfeed := lift (replayAll user script_feed) in
  let finalfeed := sort_by by_postID finalfeed in
  let* serializedFeed := serializeFeed finalfeed in
  ret (finalPinPass serializedFeed).

Definition getTutorial (user : User) : M (list Video) := getFeed user.


(** ** [applyHarassmentToLastVideo] *)

(** Lines 606-626.  The function awaits nothing and touches [lastVideo]
    only; it reads one environment variable, whose value is the first
    argument here, and ignores [user]. *)
Definition applyHarassmentToLastVideo (HARASSMENT_COMMENT_V3 : option string)
    (lastVideo : Video) (user : User) : Video :=
  let harassmentComment :=
    env_or HARASSMENT_COMMENT_V3
      "Seriously, how can you be so clueless about what's worth sharing? Your stuff is a total waste of space!" in
  if (0 <? length (v_comments lastVideo))%nat then
    let harassmentCommentIndex :=
      match findIndex (fun comment => String.eqb (c_class comment) "offense3")
              (v_comments lastVideo) with
      | Some i => i
      | None => 0%nat
      end in
    set_v_comments
      (alter (fun comment =>
                set_c_unlikes 0
                  (set_c_likes 0
                     (set_c_class "offense3"
                        (set_c_body harassmentComment comment))))
         harassmentCommentIndex (v_comments lastVideo))
      lastVideo
  else lastVideo.
(** * Vocabulary of the properties *)

(** ** The nine condition tags *)

Definition removalConditions : list string :=
  ["Rem:AI:NoRef"; "Rem:AI:Ref"; "Rem:Com:NoRef"; "Rem:Com:Ref"].

Definition objectionConditions : list string :=
  ["Obj:AI:NoRef"; "Obj:AI:Ref"; "Obj:Com:NoRef"; "Obj:Com:Ref"].

Definition conditions : list string :=
  "Control" :: removalConditions ++ objectionConditions.

(** Two worlds that agree on everything but the clock and the ObjectId
    generator: the same collections, environment and schema. *)
Definition same_db (w1 w2 : World) : Prop :=
  scripts w1 = scripts w2 /\ actorsDB w1 = actorsDB w2 /\ env w1 = env w2
  /\ schema_allowInteractions w1 = schema_allowInteractions w2
  /\ schema_post_overlay w1 = schema_post_overlay w2.

(** What a helper may do to the world: draw ObjectIds.  The collections,
    the environment, the schema and the clock stay as they are, and the
    generator only moves forward. *)
Definition only_draws_ids (w w' : World) : Prop :=
  same_db w w' /\ clock w' = clock w /\ (next_oid w <= next_oid w')%N.

(** A computation that does no more than that, whether it returns or
    throws. *)
Definition read_only {A : Type} (m : M A) : Prop :=
  forall w, only_draws_ids w (m w).2.

(** ** What [applyManipulationToFirstVideo] reads from the world *)

Definition theAiBotActor (w : World) : option Actor :=
  List.find (fun a => String.eqb (username a) "VidShare Bot") (actorsDB w).

Definition theHumanObjectionActors (w : World) : list Actor :=
  List.filter
    (fun a => String.eqb (a_class a) "objection"
              && negb (String.eqb (username a) "VidShare Bot"))
    (actorsDB w).

Definition theHarassmentText (w : World) : string :=
  env_or (HARASSMENT_COMMENT (env w))
    "LOL, did you even preview this before sharing? No one is interested in this crap. Save your time and ours.".

(** The actor that an objection condition requires: the bot for [Obj:AI:*],
    the first human objection actor for [Obj:Com:*]. *)
Definition objectionActor (cond : string) (w : World) : option Actor :=
  if startsWith cond "Obj:AI:" then theAiBotActor w
  else if startsWith cond "Obj:Com:" then head (theHumanObjectionActors w)
  else None.

(** The value that [ensureHarassment] returns in world [w]. *)
Definition ensured (cond : string) (comments : list Comment) (w : World)
  : option nat * list Comment :=
  match locateHarassment comments with
  | Some i => (Some i, alter (markFound cond) i comments)
  | None =>
      match head (actorsDB w) with
      | Some a =>
          (Some (length comments),
           comments
           ++ [harassmentCommentObj (schema_allowInteractions w) cond
                 (theHarassmentText w) a])
      | None => (None, comments)
      end
  end.

(** The index of the harassment comment of the first video once
    [ensureHarassment] has run: the comment found, or else the one
    appended. *)
Definition harassmentIndex (comments : list Comment) (w : World) : option nat :=
  (ensured "" comments w).1.

(** The [allowInteractions] of the harassment comment before the [switch]:
    on a comment that was found it is the value assigned on the document,
    on the comment that was created it is what the cast has kept. *)
Definition allowInteractionsBefore (cond : string) (comments : list Comment)
    (w : World) : option bool :=
  match locateHarassment comments with
  | Some _ => Some (isObjectionCondition cond)
  | None =>
      if schema_allowInteractions w then Some (isObjectionCondition cond)
      else None
  end.

(** The subcomments of the harassment comment before the [switch]. *)
Definition subcommentsBefore (comments : list Comment) : list Subcomment :=
  match locateHarassment comments with
  | Some i => default [] (c_subcomments <$> comments !! i)
  | None => []
  end.

(** The user name of the actor of a comment, when it has one. *)
Definition actorUsername (c : Comment) : option string :=
  username <$> c_actor c.

(** The subcomment that an objection branch pushes, given the clock value
    it reads. *)
Definition objectionSubcomment (now : Z)
    (actor : Actor) (body class : string) (user : User) : Subcomment :=
  {| s_id := generated; s_commentID := 96; s_body := body;
     s_likes := 0; s_unlikes := 0; s_actor := Some actor;
     s_time := (now - 3 * 60 * 60 * 1000) - createdAt user;
     s_class := class; s_new_comment := false; s_liked := false;
     s_unliked := false; s_flagged := false; s_reply_to := None;
     s_parent_comment := None |}.

(** ** Sample data for the concrete checks *)

Module Sample.

Definition someProfile : Profile :=
  {| name := "Sam"; location := "Ithaca"; bio := ""; color := "#a6a488";
     picture := "actor1.jpg" |}.

Definition bot : Actor :=
  {| a_id := 1%N; username := "VidShare Bot"; a_class := "objection";
     profile := someProfile |}.

Definition amy : Actor :=
  {| a_id := 2%N; username := "amy"; a_class := "objection";
     profile := someProfile |}.

Definition troll : Actor :=
  {| a_id := 3%N; username := "troll"; a_class := "normal";
     profile := someProfile |}.

Definition noEnv : Env :=
  {| HARASSMENT_COMMENT := None; REMOVAL_AI_NO_REF := None;
     REMOVAL_AI_REF := None; REMOVAL_COM_NO_REF := None;
     REMOVAL_COM_REF := None; OBJECTION_AI_NO_REF := None;
     OBJECTION_AI_REF := None; OBJECTION_COM_NO_REF := None;
     OBJECTION_COM_REF := None |}.

(** A seeded comment: four likes, one unlike, no subcomments. *)
Definition comment (id commentID : N) (body class : string) (time : Z)
    (actor : Actor) : Comment :=
  {| c_id := stored id; c_commentID := commentID; c_body := body;
     c_likes := 4; c_unlikes := 1; c_actor := Some actor; c_time := time;
     c_class := class; c_removed := false; c_allowInteractions := None;
     c_subcomments := []; c_new_comment := false; c_liked := false;
     c_unliked := false; c_flagged := false |}.

Definition video (id : ObjectId) (postID : Z) (comments : list Comment)
  : Video :=
  {| v_id := id; v_postID := postID; v_class := "Science";
     v_actor := Some amy; v_comments := comments; v_likes := 10;
     v_unlikes := 2; v_own := ∅ |}.

(** The harassment comment of the seed data, two hours old. *)
Definition harassment : Comment :=
  comment 100 13
    "LOL, did you even preview this before sharing? No one is interested in this crap. Save your time and ours."
    "offense1" (-7200000) troll.

(** An ordinary comment posted six hours before the account. *)
Definition sixHoursOld : Comment :=
  comment 101 14 "Great video!" "normal" (-21600000) amy.

(** An ordinary comment posted one minute before the account. *)
Definition ordinary : Comment :=
  comment 102 15 "Thanks for sharing" "normal" (-60000) amy.

Definition world (first : list Comment) (actors : list Actor) (now : Z)
  : World :=
  {| scripts := [video 11 1 first; video 12 2 [ordinary]; video 13 3 []];
     actorsDB := actors; env := noEnv; clock := now; next_oid := 5000%N;
     schema_allowInteractions := false; schema_post_overlay := true |}.

(** A user created at time 1000000 with the given log. *)
Definition user (cond : string) (log : list FeedAction) : User :=
  {| condition := cond; interest := "Science"; createdAt := 1000000;
     feedAction := log |}.

Definition likeOf (post : ObjectId) : FeedAction :=
  {| fa_post := post; fa_liked := true; fa_unliked := false;
     fa_flagged := false; fa_comments := [] |}.

(** A new reply, written at time 500, to the comment with [commentID]
    [parent]. *)
Definition replyTo (parent : N) : ActionedComment :=
  {| ac_comment := None; ac_new_comment := true; ac_new_comment_id := 50;
     ac_body := "Not cool."; ac_liked := false; ac_unliked := false;
     ac_flagged := false; ac_relativeTime := 500; ac_reply_to := Some parent;
     ac_parent_comment := parent |}.

(** A new top-level comment written at time [time]. *)
Definition newComment (id : N) (time : Z) : ActionedComment :=
  {| ac_comment := None; ac_new_comment := true; ac_new_comment_id := id;
     ac_body := "Interesting"; ac_liked := true; ac_unliked := false;
     ac_flagged := false; ac_relativeTime := time; ac_reply_to := None;
     ac_parent_comment := 0 |}.

(** A like of the seeded comment with ObjectId [id]. *)
Definition likeComment (id : ObjectId) : ActionedComment :=
  {| ac_comment := Some id; ac_new_comment := false; ac_new_comment_id := 0;
     ac_body := ""; ac_liked := true; ac_unliked := false;
     ac_flagged := false; ac_relativeTime := 0; ac_reply_to := None;
     ac_parent_comment := 0 |}.

Definition commentsOn (post : ObjectId) (entries : list ActionedComment)
  : FeedAction :=
  {| fa_post := post; fa_liked := false; fa_unliked := false;
     fa_flagged := false; fa_comments := entries |}.

(** A like of the post together with comment actions on it. *)
Definition likeAndCommentsOn (post : ObjectId)
    (entries : list ActionedComment) : FeedAction :=
  {| fa_post := post; fa_liked := true; fa_unliked := false;
     fa_flagged := false; fa_comments := entries |}.

End Sample.

(** The value of a result, or [d] for an error. *)
Definition valueOf {A : Type} (d : A) (r : result A) : A :=
  match r with
  | Ok a => a
  | TypeError _ => d
  end.

(** The value a run returned, or [d] when it threw. *)
Definition returned {A : Type} (d : A) (run : result A * World) : A :=
  valueOf d run.1.

(** A comment that the manipulator does not take for the harassment
    comment: its class is not [offense1] and its body does not contain the
    harassment text. *)
Definition notHarassment (c : Comment) : Prop :=
  c_class c <> "offense1" /\ includes (c_body c) HARASSMENT_MARKER = false.

(** ** What the replay of one post computes on the way *)

(** The user's log entry for a post: the first whose [post] is its id. *)
Definition logEntry (user : User) (post : Video) : option FeedAction :=
  List.find (fun o => (fa_post o =? v_id post)%N) (feedAction user).

(** The replies buffered in [replyDictionary] when the loop over the
    comment actions of [fa] ends. *)
Definition bufferedReplies (post : Video) (fa : FeedAction) : ReplyDictionary :=
  (fold_left processCommentObject (fa_comments fa) (v_comments post, [])).2.

(** The top-level comments right after the sort of line 186, before any
    buffered reply is attached. *)
Definition commentsBeforeMerge (post : Video) (fa : FeedAction) : list Comment :=
  sort_by by_time_desc
    (fold_left processCommentObject (fa_comments fa) (v_comments post, [])).1.

(** [x] may come before [y] in an array sorted with comparator [cmp]. *)
Definition precedes {A : Type} (cmp : A -> A -> Z) (x y : A) : Prop :=
  cmp x y <= 0.

(** ** What [getFeed] computes on the way *)

(** The posts that [Script.find()] returns for the user. *)
Definition scriptFeed (user : User) (w : World) : list Video :=
  sort_by by_postID
    (List.filter (fun v => String.eqb (v_class v) (interest user)) (scripts w)).

(** [c] is the comment [h] as far as identity goes, with the pinned time. *)
Definition pinnedCopyOf (h c : Comment) : Prop :=
  c_id c = c_id h /\ c_commentID c = c_commentID h
  /\ c_time c = HARASSMENT_TIME_OFFSET.

(** A step on one comment that keeps its [id] and [commentID], and either
    keeps its time or pins it. *)
Definition keepsPin (f : Comment -> Comment) : Prop :=
  forall c, c_id (f c) = c_id c /\ c_commentID (f c) = c_commentID c
            /\ (c_time (f c) = c_time c
                \/ c_time (f c) = HARASSMENT_TIME_OFFSET).

(** A step on one post that keeps its [id] and [postID] and every pinned
    comment. *)
Definition keepsPinned (p p' : Video) : Prop :=
  v_id p' = v_id p /\ v_postID p' = v_postID p
  /\ forall h, Exists (pinnedCopyOf h) (v_comments p) ->
               Exists (pinnedCopyOf h) (v_comments p').

(** ** The overlay of a feed: like and unlike counts and flags *)

Definition subOverlay (s : Subcomment) : N * Z * Z * bool * bool * bool :=
  (s_commentID s, s_likes s, s_unlikes s, s_liked s, s_unliked s, s_flagged s).

Definition commentOverlay (c : Comment) : N * Z * Z * bool * bool * bool :=
  (c_commentID c, c_likes c, c_unlikes c, c_liked c, c_unliked c, c_flagged c).

Definition postOverlay (p : Video) : ObjectId * Z * Z * gmap string bool :=
  (v_id p, v_likes p, v_unlikes p, v_own p).

(** Two comments with the same counts and flags, whose subcomments carry
    the same counts and flags up to their order. *)
Definition sameCommentOverlay (c1 c2 : Comment) : Prop :=
  commentOverlay c1 = commentOverlay c2
  /\ subOverlay <$> c_subcomments c1 ≡ₚ subOverlay <$> c_subcomments c2.

(** Two posts with the same counts and flags, on the post and on its
    comments one by one. *)
Definition samePostOverlay (p1 p2 : Video) : Prop :=
  postOverlay p1 = postOverlay p2
  /\ Forall2 sameCommentOverlay (v_comments p1) (v_comments p2).

(** Two results that are both values, related by [R], or the same error. *)
Definition simResult {A : Type} (R : A -> A -> Prop) (r1 r2 : result A) : Prop :=
  match r1, r2 with
  | Ok a1, Ok a2 => R a1 a2
  | TypeError m1, TypeError m2 => m1 = m2
  | _, _ => False
  end.

(** A reference of the log to an ObjectId handed out before [n]. *)
Definition oldRef (n : ObjectId) (ref : option ObjectId) : Prop :=
  match ref with
  | Some x => (x < n)%N
  | None => True
  end.

(** Every comment reference of the user's log is to an ObjectId handed
    out before [n]: the log was written before the generator reached [n]. *)
Definition logRefsBelow (user : User) (n : ObjectId) : Prop :=
  Forall (fun fa => Forall (fun co => oldRef n (ac_comment co)) (fa_comments fa))
    (feedAction user).

(** *** Relations between two runs of [getFeed] on the same collections *)

(** Subcomments with the same counts and flags that no old reference
    tells apart. *)
Definition simSub (n : ObjectId) (s1 s2 : Subcomment) : Prop :=
  subOverlay s1 = subOverlay s2
  /\ forall ref, oldRef n ref ->
       id_matches (s_id s1) ref = id_matches (s_id s2) ref.

(** The fields of a top-level comment that the rest of [getFeed] reads. *)
Definition topView (c : Comment) :=
  (c_id c, c_commentID c, c_time c, c_class c, c_body c,
   c_allowInteractions c, commentOverlay c).

(** Before the merge of the replies: the same top-level fields, and
    subcomments related position by position. *)
Definition simComment (n : ObjectId) (c1 c2 : Comment) : Prop :=
  topView c1 = topView c2
  /\ Forall2 (simSub n) (c_subcomments c1) (c_subcomments c2).

(** After the merge: the same top-level fields, and the same subcomment
    counts and flags up to order. *)
Definition simMerged (c1 c2 : Comment) : Prop :=
  topView c1 = topView c2
  /\ subOverlay <$> c_subcomments c1 ≡ₚ subOverlay <$> c_subcomments c2.

Definition postView (p : Video) := (postOverlay p, v_postID p).

Definition simPost (n : ObjectId) (p1 p2 : Video) : Prop :=
  postView p1 = postView p2
  /\ Forall2 (simComment n) (v_comments p1) (v_comments p2).

Definition simPostMerged (p1 p2 : Video) : Prop :=
  postView p1 = postView p2
  /\ Forall2 simMerged (v_comments p1) (v_comments p2).

(** *** The post-level counts that the log determines *)

(** What the user's log adds to the likes and to the unlikes of a post. *)
Definition likeDelta (user : User) (post : Video) : Z :=
  match logEntry user post with
  | Some fa => if fa_liked fa then 1 else 0
  | None => 0
  end.

Definition unlikeDelta (user : User) (post : Video) : Z :=
  match logEntry user post with
  | Some fa => if fa_unliked fa then 1 else 0
  | None => 0
  end.

(** A step that keeps the identity and the counts of a post. *)
Definition sameCounts (p p' : Video) : Prop :=
  v_id p' = v_id p /\ v_postID p' = v_postID p
  /\ v_likes p' = v_likes p /\ v_unlikes p' = v_unlikes p.

(** [p'] is the post [p] with the counts of the script plus what the log
    adds, once. *)
Definition countsFromLog (user : User) (p p' : Video) : Prop :=
  v_id p' = v_id p /\ v_postID p' = v_postID p
  /\ v_likes p' = v_likes p + likeDelta user p
  /\ v_unlikes p' = v_unlikes p + unlikeDelta user p.

(** ** Vocabulary of the further properties *)

(** The class that each removal condition gives the harassment comment. *)
Definition removalClass (cond : string) : string :=
  if String.eqb cond "Rem:AI:NoRef" then "ai_removal_no_ref"
  else if String.eqb cond "Rem:AI:Ref" then "ai_removal_community"
  else if String.eqb cond "Rem:Com:NoRef" then "community_removal_no_ref"
  else "community_removal_community".

(** The class that each objection condition gives the subcomment. *)
Definition objectionClass (cond : string) : string :=
  if String.eqb cond "Obj:AI:NoRef" then "ai_objection_no_ref"
  else if String.eqb cond "Obj:AI:Ref" then "ai_objection_community"
  else if String.eqb cond "Obj:Com:NoRef" then "human_objection_no_ref"
  else "human_objection_community".

(** The body that each removal condition gives the harassment comment: the
    environment variable of the condition, or its built-in text. *)
Definition removalText (cond : string) (w : World) : string :=
  if String.eqb cond "Rem:AI:NoRef" then
    env_or (REMOVAL_AI_NO_REF (env w))
      "This comment is removed. Our botðŸ¤– removed the comment for containing harassing language."
  else if String.eqb cond "Rem:AI:Ref" then
    env_or (REMOVAL_AI_REF (env w))
      "This comment is removed. Our botðŸ¤– removed this comment for containing harassing language inconsistent with typical community behavior."
  else if String.eqb cond "Rem:Com:NoRef" then
    env_or (REMOVAL_COM_NO_REF (env w))
      "This comment is removed. Our community memberðŸ™‹ removed the comment for containing harassing language."
  else
    env_or (REMOVAL_COM_REF (env w))
      "This comment is removed. Our community memberðŸ§‘ removed this comment for containing harassing language inconsistent with typical community behavior.".

(** The body that each objection condition gives the subcomment. *)
Definition objectionText (cond : string) (w : World) : string :=
  if String.eqb cond "Obj:AI:NoRef" then
    env_or (OBJECTION_AI_NO_REF (env w))
      "This comment is offensive toward others. Please remember to stay respectful to each other here."
  else if String.eqb cond "Obj:AI:Ref" then
    env_or (OBJECTION_AI_REF (env w))
      "This comment is offensive toward others. This is not how people typically respond in this community."
  else if String.eqb cond "Obj:Com:NoRef" then
    env_or (OBJECTION_COM_NO_REF (env w))
      "Please remember to stay respectful to each other here."
  else
    env_or (OBJECTION_COM_REF (env w))
      "This comment is offensive toward others. This is not how people typically respond in this community.".

(** The sentinel actor of a removed comment, with the [_id] of the actor
    it replaces. *)
Definition deletedActor (original : Actor) : Actor :=
  {| a_id := a_id original; username := "[deleted]"; a_class := "";
     profile := deleted_profile |}.


(** What the replay never changes on a top-level comment: everything but
    the counts, the flags and the subcomments. *)
Definition content (c : Comment) :=
  (c_id c, c_commentID c, c_body c, c_actor c, c_time c, c_class c,
   c_removed c, c_allowInteractions c, c_new_comment c).

(** The new top-level comments of a log entry: those of its comment
    actions that are new and reply to nothing, in log order. *)
Definition newTopLevel (entries : list ActionedComment) : list Comment :=
  cat_comment <$>
    List.filter (fun co => ac_new_comment co
                           && match ac_reply_to co with
                              | Some _ => false
                              | None => true
                              end) entries.


(** A comment whose time must be the pinned offset: the harassment
    comment or one of its removal variants. *)
Definition pinnedIfHarassment (c : Comment) : Prop :=
  isHarassmentOrRemoval c = true -> c_time c = HARASSMENT_TIME_OFFSET.

(** No two comments of the list can be taken for one another by
    [sameComment]: their [commentID]s differ, and so do their [id]s where
    both have one. *)
Fixpoint distinctComments (l : list Comment) : Prop :=
  match l with
  | [] => True
  | c :: l' => Forall (fun c' => sameComment c' c = false) l'
               /\ distinctComments l'
  end.

(** The reply [x] is buffered in the dictionary under the key [k]. *)
Definition buffered (d : ReplyDictionary) (k : N) (x : Subcomment) : Prop :=
  exists value, (k, value) ∈ d /\ x ∈ value.

(** No comment and no subcomment of the list has the ObjectId [x]. *)
Definition noId (x : ObjectId) (comments : list Comment) : Prop :=
  Forall (fun c => c_id c <> stored x
                   /\ Forall (fun s => s_id s <> stored x) (c_subcomments c))
    comments.

(** A comment action that points at nothing in the post: it is not a new
    comment, and it refers to an ObjectId that no comment and no
    subcomment of the post has. *)
Definition danglingFor (post : Video) (co : ActionedComment) : Prop :=
  ac_new_comment co = false
  /\ exists x, ac_comment co = Some x /\ noId x (v_comments post).

(** The text [applyHarassmentToLastVideo] writes: HARASSMENT_COMMENT_V3
    or the built-in fallback. *)
Definition lastVideoText (HARASSMENT_COMMENT_V3 : option string) : string :=
  env_or HARASSMENT_COMMENT_V3
    "Seriously, how can you be so clueless about what's worth sharing? Your stuff is a total waste of space!".

(** The comment [applyHarassmentToLastVideo] leaves in the place of
    [comment]: new body and class, counters at zero, all else as it was. *)
Definition asLastVideoHarassment (text : string) (comment : Comment) : Comment :=
  set_c_unlikes 0 (set_c_likes 0 (set_c_class "offense3"
    (set_c_body text comment))).


(** A new reply of the log: a new comment with a [reply_to]. *)
Definition isNewReply (co : ActionedComment) : Prop :=
  ac_new_comment co = true /\ exists reply_to, ac_reply_to co = Some reply_to.

(** What a reader of the feed sees of a top-level comment, the time, the
    counts and the replies apart: who wrote what, and in which class. *)
Definition shown (c : Comment) :=
  (c_id c, c_commentID c, c_body c, c_actor c, c_class c, c_removed c,
   c_new_comment c).



(** What a reader sees of a subcomment, the counts and flags apart. *)
Definition subShown (s : Subcomment) :=
  (s_id s, s_commentID s, s_body s, s_actor s, s_time s, s_class s,
   s_new_comment s, s_reply_to s, s_parent_comment s).

(** Among [comments] is one that shows as [c] does and has a subcomment
    that shows as [s] does. *)
Definition holdsReply (c : Comment) (s : Subcomment)
    (comments : list Comment) : Prop :=
  Exists (fun c' => shown c' = shown c
                    /\ subShown s ∈ subShown <$> c_subcomments c') comments.

(** A step on a comment that keeps what it shows and every subcomment. *)
Definition keepsReplies (f : Comment -> Comment) : Prop :=
  forall c, shown (f c) = shown c
            /\ forall x, x ∈ subShown <$> c_subcomments c ->
                         x ∈ subShown <$> c_subcomments (f c).

(** [q] is the post [p] with every subcomment of [p] still under its
    comment. *)
Definition keepsRepliesOf (p q : Video) : Prop :=
  v_id q = v_id p /\ v_postID q = v_postID p
  /\ forall c s, holdsReply c s (v_comments p) -> holdsReply c s (v_comments q).
(** * Properties *)

(** ** Running the monad *)

Lemma same_db_refl w : same_db w w.
Proof. by repeat split. Qed.

Lemma same_db_sym w1 w2 : same_db w1 w2 -> same_db w2 w1.
Proof. unfold same_db. intros (?&?&?&?&?). by repeat split. Qed.

Lemma same_db_trans w1 w2 w3 : same_db w1 w2 -> same_db w2 w3 -> same_db w1 w3.
Proof. unfold same_db. intros (?&?&?&?&?) (?&?&?&?&?). repeat split; congruence. Qed.

Lemma only_draws_ids_refl w : only_draws_ids w w.
Proof. split; [apply same_db_refl|]. split; [done|lia]. Qed.

Lemma only_draws_ids_trans w1 w2 w3 :
  only_draws_ids w1 w2 -> only_draws_ids w2 w3 -> only_draws_ids w1 w3.
Proof.
  intros (Hdb1 & Hc1 & Hn1) (Hdb2 & Hc2 & Hn2).
  split; [by eapply same_db_trans|]. split; [congruence|lia].
Qed.

Lemma read_only_ret {A} (a : A) : read_only (ret a).
Proof. intros w. apply only_draws_ids_refl. Qed.

Lemma read_only_throw {A} msg : read_only (@throw A msg).
Proof. intros w. apply only_draws_ids_refl. Qed.

Lemma read_only_lift {A} (r : result A) : read_only (lift r).
Proof. intros w. apply only_draws_ids_refl. Qed.

Lemma read_only_bind {A B} (m : M A) (k : A -> M B) :
  read_only m -> (forall a, read_only (k a)) -> read_only (bind m k).
Proof.
  intros Hm Hk w. unfold bind. specialize (Hm w).
  destruct (m w) as [[a|msg] w1]; simpl in *; [|done].
  eapply only_draws_ids_trans; [exact Hm|apply Hk].
Qed.

Lemma read_only_new_ObjectId : read_only new_ObjectId.
Proof. intros w. repeat split. simpl. lia. Qed.

Lemma read_only_objectionCase actor body class user idx comments :
  read_only (objectionCase actor body class user idx comments).
Proof.
  unfold objectionCase. destruct actor, idx; try apply read_only_ret.
  apply read_only_bind; [apply read_only_new_ObjectId|intros oid].
  apply read_only_bind; [intros w; apply only_draws_ids_refl|intros now].
  destruct (comments !! n); [apply read_only_ret|apply read_only_throw].
Qed.

Lemma read_only_getenv var fallback : read_only (getenv var fallback).
Proof. intros w. apply only_draws_ids_refl. Qed.

Lemma read_only_switchCondition user ai humans hc idx comments :
  read_only (switchCondition user ai humans hc idx comments).
Proof.
  unfold switchCondition.
  repeat (case_match;
          [first [apply read_only_ret
                 |apply read_only_bind;
                  [apply read_only_getenv
                  |intros ?; first [apply read_only_lift
                                   |apply read_only_objectionCase]]]|]).
  apply read_only_ret.
Qed.

Lemma read_only_ensureHarassment cond hc comments :
  read_only (ensureHarassment cond hc comments).
Proof.
  unfold ensureHarassment. case_match; [apply read_only_ret|].
  apply read_only_bind; [intros w; apply only_draws_ids_refl|].
  intros [a|]; [|apply read_only_ret].
  apply read_only_bind; [intros w; apply only_draws_ids_refl|].
  intros ?; apply read_only_ret.
Qed.

Lemma read_only_applyManipulationToFirstVideo firstVideo user :
  read_only (applyManipulationToFirstVideo firstVideo user).
Proof.
  unfold applyManipulationToFirstVideo.
  apply read_only_bind; [intros w; apply only_draws_ids_refl|intros ai].
  apply read_only_bind; [intros w; apply only_draws_ids_refl|intros humans].
  apply read_only_bind; [apply read_only_getenv|intros hc].
  apply read_only_bind; [apply read_only_ensureHarassment|intros located].
  destruct (located.1).
  - apply read_only_bind; [apply read_only_switchCondition|].
    intros ?; apply read_only_ret.
  - case_match; [apply read_only_ret|].
    apply read_only_bind; [apply read_only_switchCondition|].
    intros ?; apply read_only_ret.
Qed.

Lemma read_only_applyExperimentalManipulations script_feed user :
  read_only (applyExperimentalManipulations script_feed user).
Proof.
  unfold applyExperimentalManipulations.
  destruct script_feed as [|v0 [|v1 [|v2 [|v3 rest]]]]; try apply read_only_ret.
  apply read_only_bind; [apply read_only_applyManipulationToFirstVideo|].
  intros ?; apply read_only_ret.
Qed.

Lemma read_only_getFeed user : read_only (getFeed user).
Proof.
  unfold getFeed.
  apply read_only_bind; [intros w; apply only_draws_ids_refl|intros feed0].
  apply read_only_bind; [apply read_only_applyExperimentalManipulations|].
  intros feed1.
  apply read_only_bind; [apply read_only_lift|intros feed2].
  apply read_only_bind; [intros w; apply only_draws_ids_refl|intros feed3].
  apply read_only_ret.
Qed.

(** C9: [getFeed] never writes to the script or the actor collection.
    Whatever the user, the collections in the world that [getFeed] leaves
    are the ones it was started in, whether it returned a feed or threw;
    the overlay exists only in the value it returns. *)
Theorem getFeed_leaves_stores_unchanged (user : User) (w : World) :
  scripts (getFeed user w).2 = scripts w
  /\ actorsDB (getFeed user w).2 = actorsDB w.
Proof.
  destruct (read_only_getFeed user w) as ((Hs & Ha & _) & _).
  split; congruence.
Qed.

(** C10: [getTutorial] returns what [getFeed] returns, and leaves the
    world as [getFeed] leaves it. *)
Theorem getTutorial_is_getFeed (user : User) (w : World) :
  getTutorial user w = getFeed user w.
Proof. reflexivity. Qed.

(** ** Lists *)

Lemma findIndex_Some {A} (p : A -> bool) l i :
  findIndex p l = Some i ->
  exists x, l !! i = Some x /\ p x = true.
Proof.
  revert i. induction l as [|y l IH]; intros i; simpl; [done|].
  destruct (p y) eqn:Hp.
  - intros [= <-]. eauto.
  - destruct (findIndex p l) as [j|]; simpl; [|done].
    intros [= <-]. apply (IH j eq_refl).
Qed.

Lemma findIndex_None {A} (p : A -> bool) l :
  findIndex p l = None <-> Forall (fun x => p x = false) l.
Proof.
  induction l as [|y l IH]; simpl.
  - split; [constructor|done].
  - destruct (p y) eqn:Hp.
    + split; [done|]. inversion 1; congruence.
    + destruct (findIndex p l) as [j|]; simpl.
      * split; [done|]. inversion 1; subst. by apply IH in H3.
      * split; [|done]. intros _. constructor; [done|by apply IH].
Qed.

Lemma findIndex_ext {A B} (p : A -> bool) (q : B -> bool) l1 l2 :
  Forall2 (fun x y => p x = q y) l1 l2 ->
  findIndex p l1 = findIndex q l2.
Proof. induction 1 as [|x y l1 l2 Hxy _ IH]; simpl; [done|]. by rewrite Hxy, IH. Qed.

(** ** The condition manipulator *)

Lemma ensureHarassment_run cond hc comments w :
  hc = theHarassmentText w ->
  ensureHarassment cond hc comments w = (Ok (ensured cond comments w), w).
Proof.
  intros ->. unfold ensureHarassment, ensured.
  destruct (locateHarassment comments); [done|].
  unfold bind, Actor_findOne. by destruct (head (actorsDB w)).
Qed.

Lemma ensured_index cond comments w :
  (ensured cond comments w).1 = harassmentIndex comments w.
Proof.
  unfold harassmentIndex, ensured.
  destruct (locateHarassment comments); [done|].
  by destruct (head (actorsDB w)).
Qed.

Lemma locateHarassment_lookup comments i :
  locateHarassment comments = Some i -> is_Some (comments !! i).
Proof.
  unfold locateHarassment. case_match; [|done].
  case_match eqn:H1.
  - intros [= <-]. apply findIndex_Some in H1 as (x & -> & _). eauto.
  - intros H2. apply findIndex_Some in H2 as (x & -> & _). eauto.
Qed.

(** After [ensureHarassment] the harassment comment sits at its index, with
    the pinned time, class [offense1], and the [allowInteractions] that
    the assignment or the cast has left on it. *)
Lemma ensured_lookup cond comments w i :
  harassmentIndex comments w = Some i ->
  exists c0, (ensured cond comments w).2 !! i = Some c0
    /\ c_time c0 = HARASSMENT_TIME_OFFSET
    /\ c_class c0 = "offense1"
    /\ c_allowInteractions c0 = allowInteractionsBefore cond comments w
    /\ c_subcomments c0 = subcommentsBefore comments
    /\ (locateHarassment comments = None ->
        c_commentID c0 = 999%N /\ is_Some (c_actor c0)
        /\ (ensured cond comments w).2 = comments ++ [c0]).
Proof.
  unfold harassmentIndex, ensured, subcommentsBefore, allowInteractionsBefore.
  destruct (locateHarassment comments) as [j|] eqn:Hloc; simpl.
  - intros [= <-]. destruct (locateHarassment_lookup _ _ Hloc) as [c Hc].
    exists (markFound cond c). rewrite list_lookup_alter_eq, Hc. simpl.
    by repeat split.
  - destruct (head (actorsDB w)) as [a|]; simpl; [|done].
    intros [= <-]. eexists. rewrite lookup_app_r, Nat.sub_diag by lia.
    simpl. split; [done|]. repeat split; eauto.
Qed.

Lemma applyManipulation_run firstVideo user w :
  applyManipulationToFirstVideo firstVideo user w =
  let located := ensured (condition user) (v_comments firstVideo) w in
  match located.1 with
  | None => (Ok (set_v_comments located.2 firstVideo), w)
  | Some i =>
      match switchCondition user (theAiBotActor w) (theHumanObjectionActors w)
              (theHarassmentText w) (Some i) located.2 w with
      | (Ok comments, w') => (Ok (set_v_comments comments firstVideo), w')
      | (TypeError msg, w') => (TypeError msg, w')
      end
  end.
Proof.
  unfold applyManipulationToFirstVideo.
  unfold bind at 1. unfold Actor_findOne_username at 1.
  unfold bind at 1. unfold Actor_find_class_ne at 1.
  unfold bind at 1. unfold getenv at 1.
  unfold bind at 1. rewrite ensureHarassment_run by done.
  fold (theAiBotActor w) (theHumanObjectionActors w) (theHarassmentText w).
  cbv zeta. destruct ((ensured _ _ w).1) as [i|] eqn:Hi; simpl.
  - unfold bind, ret. by destruct (switchCondition _ _ _ _ _ _ w) as [[?|?] ?].
  - destruct (String.eqb (condition user) "Control") eqn:Hc; simpl; [|done].
    unfold bind, ret, switchCondition. by rewrite Hc.
Qed.

Lemma switch_control user ai humans hc idx comments w :
  condition user = "Control" ->
  switchCondition user ai humans hc idx comments w
  = (Ok (controlCase hc idx comments), w).
Proof. intros H. unfold switchCondition. by rewrite H. Qed.

Lemma switch_removal user ai humans hc idx comments w :
  In (condition user) removalConditions ->
  exists body class,
    switchCondition user ai humans hc idx comments w
    = (removalCase body class idx comments, w).
Proof.
  intros H. unfold switchCondition.
  destruct H as [<-|[<-|[<-|[<-|[]]]]]; simpl; eexists _, _; reflexivity.
Qed.

Lemma switch_objection user idx comments w :
  In (condition user) objectionConditions ->
  exists body class,
    switchCondition user (theAiBotActor w) (theHumanObjectionActors w)
      (theHarassmentText w) idx comments w
    = objectionCase (objectionActor (condition user) w) body class user idx
        comments w.
Proof.
  intros H. unfold switchCondition, objectionActor.
  destruct H as [<-|[<-|[<-|[<-|[]]]]]; simpl; eexists _, _; reflexivity.
Qed.

Lemma controlCase_lookup hc i comments c0 :
  comments !! i = Some c0 ->
  exists c, controlCase hc (Some i) comments !! i = Some c
    /\ c_allowInteractions c = Some true
    /\ c_time c = HARASSMENT_TIME_OFFSET
    /\ c_subcomments c = []
    /\ c_body c = hc
    /\ c_id c = c_id c0 /\ c_commentID c = c_commentID c0.
Proof.
  intros H. unfold controlCase. rewrite list_lookup_alter_eq, H. simpl.
  eexists. split; [done|]. by repeat split.
Qed.

Lemma removalCase_lookup body class i comments comments' c0 :
  comments !! i = Some c0 ->
  removalCase body class (Some i) comments = Ok comments' ->
  exists c, comments' !! i = Some c
    /\ actorUsername c = Some "[deleted]"
    /\ c_subcomments c = []
    /\ c_allowInteractions c = c_allowInteractions c0
    /\ c_time c = HARASSMENT_TIME_OFFSET
    /\ c_class c = class
    /\ c_id c = c_id c0 /\ c_commentID c = c_commentID c0.
Proof.
  intros H. unfold removalCase. rewrite H. simpl.
  destruct (c_actor c0) as [a|]; simpl; [|done]. intros [= <-].
  eexists. rewrite list_lookup_insert_eq by (by eapply lookup_lt_Some).
  split; [done|]. by repeat split.
Qed.

Lemma objectionCase_run actor body class user i comments c0 w :
  comments !! i = Some c0 ->
  objectionCase actor body class user (Some i) comments w =
  match actor with
  | Some a =>
      (Ok (<[i := set_c_subcomments
                    (c_subcomments c0
                     ++ [objectionSubcomment (clock w) a body
                           class user]) c0]> comments),
       set_next_oid (N.succ (next_oid w)) w)
  | None => (Ok comments, w)
  end.
Proof.
  intros H. unfold objectionCase. destruct actor as [a|]; [|done].
  unfold bind, new_ObjectId, Date_now. simpl. by rewrite H.
Qed.

Lemma objectionCase_lookup actor body class user i comments c0 w :
  comments !! i = Some c0 ->
  exists comments' w' c,
    objectionCase actor body class user (Some i) comments w = (Ok comments', w')
    /\ comments' !! i = Some c
    /\ c_allowInteractions c = c_allowInteractions c0
    /\ c_time c = c_time c0
    /\ c_class c = c_class c0
    /\ c_id c = c_id c0 /\ c_commentID c = c_commentID c0.
Proof.
  intros H. rewrite (objectionCase_run _ _ _ _ _ _ _ _ H).
  destruct actor as [a|].
  - eexists _, _, _. split; [done|].
    rewrite list_lookup_insert_eq by (by eapply lookup_lt_Some).
    split; [done|]. by repeat split.
  - eexists _, _, _. split; [done|]. by repeat split.
Qed.

Lemma removal_condition_facts cond :
  In cond removalConditions ->
  cond <> "Control" /\ ~ In cond objectionConditions
  /\ isObjectionCondition cond = false.
Proof.
  intros [<-|[<-|[<-|[<-|[]]]]];
    (split; [discriminate|split; [|reflexivity]]);
    intros [H|[H|[H|[H|[]]]]]; discriminate.
Qed.

Lemma objection_condition_facts cond :
  In cond objectionConditions ->
  cond <> "Control" /\ ~ In cond removalConditions
  /\ isObjectionCondition cond = true.
Proof.
  intros [<-|[<-|[<-|[<-|[]]]]];
    (split; [discriminate|split; [|reflexivity]]);
    intros [H|[H|[H|[H|[]]]]]; discriminate.
Qed.

Lemma control_condition_facts :
  ~ In "Control" removalConditions /\ ~ In "Control" objectionConditions.
Proof. split; intros [H|[H|[H|[H|[]]]]]; discriminate. Qed.

(** The harassment comment after the manipulation, under each of the nine
    conditions: it stays at its index with its [id] and [commentID], its
    time is the pinned offset, and the fields that the condition decides
    are as the branch of the [switch] leaves them. *)
Lemma manipulated_harassment_comment user firstVideo v' w w' i :
  In (condition user) conditions ->
  harassmentIndex (v_comments firstVideo) w = Some i ->
  applyManipulationToFirstVideo firstVideo user w = (Ok v', w') ->
  exists c0 c,
    (ensured (condition user) (v_comments firstVideo) w).2 !! i = Some c0
    /\ v_comments v' !! i = Some c
    /\ c_id c = c_id c0 /\ c_commentID c = c_commentID c0
    /\ c_time c = HARASSMENT_TIME_OFFSET
    /\ (condition user = "Control" -> c_allowInteractions c = Some true)
    /\ (In (condition user) removalConditions ->
        actorUsername c = Some "[deleted]" /\ c_subcomments c = []
        /\ c_allowInteractions c
           = allowInteractionsBefore (condition user) (v_comments firstVideo) w)
    /\ (In (condition user) objectionConditions ->
        c_allowInteractions c
        = allowInteractionsBefore (condition user) (v_comments firstVideo) w).
Proof.
  intros Hcond Hidx. rewrite applyManipulation_run. cbv zeta.
  rewrite ensured_index, Hidx.
  destruct (ensured_lookup (condition user) _ _ _ Hidx)
    as (c0 & Hc0 & Htime & _ & Hallow & _).
  destruct Hcond as [Hctl|Hcond].
  - symmetry in Hctl. rewrite switch_control by done. intros [= <- <-].
    destruct (controlCase_lookup (theHarassmentText w) _ _ _ Hc0)
      as (c & Hc & Ha & Ht & _ & _ & Hid & Hcid).
    exists c0, c. repeat (split; [done|]).
    destruct control_condition_facts. rewrite Hctl. by split.
  - apply in_app_or in Hcond as [Hrem|Hobj].
    + destruct (removal_condition_facts _ Hrem) as (Hnc & Hno & Hf).
      destruct (switch_removal user (theAiBotActor w)
                  (theHumanObjectionActors w) (theHarassmentText w) (Some i)
                  (ensured (condition user) (v_comments firstVideo) w).2 w Hrem)
        as (body & class & ->).
      destruct (removalCase _ _ _ _) as [comments'|] eqn:Hrc; [|done].
      intros [= <- <-].
      destruct (removalCase_lookup _ _ _ _ _ _ Hc0 Hrc)
        as (c & Hc & Hu & Hs & Ha & Ht & _ & Hid & Hcid).
      exists c0, c. repeat (split; [done|]).
      rewrite Ha, Hallow. by repeat split.
    + destruct (objection_condition_facts _ Hobj) as (Hnc & Hno & Hf).
      destruct (switch_objection user (Some i)
                  (ensured (condition user) (v_comments firstVideo) w).2 w Hobj)
        as (body & class & ->).
      destruct (objectionCase_lookup (objectionActor (condition user) w) body
                  class user _ _ _ w Hc0)
        as (comments' & w1 & c & -> & Hc & Ha & Ht & _ & Hid & Hcid).
      intros [= <- <-]. exists c0, c. repeat (split; [done|]).
      rewrite Ht, Ha, Hallow. by repeat split.
Qed.

(** C4 fails on the code.  In a video without a harassment comment the
    manipulation creates one and pushes it with the key
    [allowInteractions]; when the comment schema does not declare that
    path, the cast into the [comments] array drops it.  Under a removal
    condition the created comment then ends with the user name
    [[deleted]] and no subcomments but with [allowInteractions] undefined,
    not false, and under an objection condition it is undefined, not
    true; [Control] sets the property afterwards.  On a harassment comment
    that was found, where the property is assigned on the document, the
    same conditions give false and true. *)
Theorem created_comment_loses_allowInteractions :
  let w := Sample.world [Sample.ordinary] [Sample.troll; Sample.bot] 4600000 in
  let harassmentOf := fun (comments : list Comment) (cond : string) =>
    let firstVideo := Sample.video 11 1 comments in
    last (v_comments
            (returned firstVideo
               (applyManipulationToFirstVideo firstVideo
                  (Sample.user cond []) w))) in
  let created := harassmentOf [Sample.ordinary] in
  let found := harassmentOf [Sample.ordinary; Sample.harassment] in
  schema_allowInteractions w = false
  /\ c_commentID <$> created "Rem:AI:NoRef" = Some 999%N
  /\ actorUsername <$> created "Rem:AI:NoRef" = Some (Some "[deleted]")
  /\ c_subcomments <$> created "Rem:AI:NoRef" = Some []
  /\ c_allowInteractions <$> created "Rem:AI:NoRef" = Some None
  /\ c_allowInteractions <$> created "Obj:AI:NoRef" = Some None
  /\ c_allowInteractions <$> created "Control" = Some (Some true)
  /\ c_allowInteractions <$> found "Rem:AI:NoRef" = Some (Some false)
  /\ c_allowInteractions <$> found "Obj:AI:NoRef" = Some (Some true).
Proof. vm_compute. by repeat split. Qed.

Lemma objectionActor_nonempty cond w actor :
  objectionActor cond w = Some actor -> is_Some (head (actorsDB w)).
Proof.
  unfold objectionActor, theAiBotActor, theHumanObjectionActors.
  destruct (actorsDB w) as [|a l]; simpl; [|by eauto].
  by repeat case_match.
Qed.

(** C2, as amended: under each objection condition whose actor exists the
    manipulation returns, and the harassment comment's subcomments are the
    ones it had followed by exactly one new entry; that entry has
    [commentID] 96, the required actor, and the time
    [(now - 3h) - createdAt], which is three hours before the assembly and
    not a fixed offset from the account creation. *)
Theorem objection_is_injected
    (user : User) (firstVideo : Video) (w : World) (actor : Actor) :
  In (condition user) objectionConditions ->
  objectionActor (condition user) w = Some actor ->
  exists v' i c obj,
    applyManipulationToFirstVideo firstVideo user w
    = (Ok v', set_next_oid (N.succ (next_oid w)) w)
    /\ harassmentIndex (v_comments firstVideo) w = Some i
    /\ v_comments v' !! i = Some c
    /\ c_subcomments c = subcommentsBefore (v_comments firstVideo) ++ [obj]
    /\ s_commentID obj = 96%N
    /\ s_actor obj = Some actor
    /\ s_time obj = (clock w - 3 * 60 * 60 * 1000) - createdAt user.
Proof.
  intros Hobj Hactor.
  assert (exists i, harassmentIndex (v_comments firstVideo) w = Some i)
    as [i Hidx].
  { destruct (objectionActor_nonempty _ _ _ Hactor) as [a Ha].
    unfold harassmentIndex, ensured. rewrite Ha.
    destruct (locateHarassment _); simpl; eauto. }
  destruct (ensured_lookup (condition user) _ _ _ Hidx)
    as (c0 & Hc0 & _ & _ & _ & Hsubs & _).
  rewrite applyManipulation_run. cbv zeta. rewrite ensured_index, Hidx.
  destruct (switch_objection user (Some i)
              (ensured (condition user) (v_comments firstVideo) w).2 w Hobj)
    as (body & class & ->).
  rewrite (objectionCase_run _ _ _ _ _ _ _ _ Hc0), Hactor.
  eexists _, i, _, _. split; [reflexivity|]. split; [done|]. simpl.
  rewrite list_lookup_insert_eq by (by eapply lookup_lt_Some).
  split; [reflexivity|]. simpl. by rewrite Hsubs.
Qed.

Lemma objection_is_injected_witness :
  let user := Sample.user "Obj:Com:NoRef" [] in
  let firstVideo := Sample.video 11 1 [Sample.ordinary; Sample.harassment] in
  let w := Sample.world [Sample.ordinary; Sample.harassment]
             [Sample.troll; Sample.bot; Sample.amy] 4600000 in
  In (condition user) objectionConditions
  /\ objectionActor (condition user) w = Some Sample.amy
  /\ exists v' i c obj,
       applyManipulationToFirstVideo firstVideo user w
       = (Ok v', set_next_oid (N.succ (next_oid w)) w)
       /\ harassmentIndex (v_comments firstVideo) w = Some i
       /\ v_comments v' !! i = Some c
       /\ c_subcomments c = subcommentsBefore (v_comments firstVideo) ++ [obj]
       /\ s_commentID obj = 96%N
       /\ s_actor obj = Some Sample.amy
       /\ s_time obj = (clock w - 3 * 60 * 60 * 1000) - createdAt user.
Proof.
  intros user firstVideo w.
  assert (In (condition user) objectionConditions) as H1 by (simpl; auto).
  assert (objectionActor (condition user) w = Some Sample.amy) as H2
    by reflexivity.
  repeat (split; [assumption|]).
  exact (objection_is_injected user firstVideo w Sample.amy H1 H2).
Defined.

(** C2 as stated fails: one hour after the account was created the
    injected entry is timed two hours, not three, before the creation. *)
Lemma objection_time_is_not_a_fixed_offset :
  ~ (forall (user : User) (firstVideo v' : Video) (w w' : World)
            (actor : Actor) (i : nat) (c : Comment),
        In (condition user) objectionConditions ->
        objectionActor (condition user) w = Some actor ->
        applyManipulationToFirstVideo firstVideo user w = (Ok v', w') ->
        harassmentIndex (v_comments firstVideo) w = Some i ->
        v_comments v' !! i = Some c ->
        exists obj,
          c_subcomments c = subcommentsBefore (v_comments firstVideo) ++ [obj]
          /\ s_commentID obj = 96%N
          /\ s_time obj = -3 * 60 * 60 * 1000).
Proof.
  intros H.
  pose (user := Sample.user "Obj:AI:NoRef" []).
  pose (firstVideo := Sample.video 11 1 [Sample.harassment]).
  pose (w := Sample.world [Sample.harassment] [Sample.bot] 4600000).
  pose (run := applyManipulationToFirstVideo firstVideo user w).
  destruct (H user firstVideo (returned firstVideo run) w run.2 Sample.bot
              0%nat
              (default Sample.ordinary
                 (v_comments (returned firstVideo run) !! 0%nat)))
    as (obj & Hsubs & _ & Htime).
  - simpl. auto.
  - reflexivity.
  - vm_compute. reflexivity.
  - reflexivity.
  - vm_compute. reflexivity.
  - vm_compute in Hsubs. injection Hsubs as <-. vm_compute in Htime.
    discriminate.
Qed.

Lemma alter_insert_lookup {A} (f : A -> A) (l : list A) i x :
  l !! i = Some x -> alter f i l = <[i := f x]> l.
Proof.
  revert i. induction l as [|y l IH]; intros [|i]; simpl; try done.
  - by intros [= ->].
  - intros H. f_equal. by apply IH.
Qed.

Lemma locateHarassment_None comments :
  Forall notHarassment comments -> locateHarassment comments = None.
Proof.
  intros H. unfold locateHarassment. case_match; [|done].
  assert (findIndex (fun c => String.eqb (c_class c) "offense1") comments
          = None) as ->.
  { apply findIndex_None. eapply Forall_impl; [exact H|].
    intros c [Hc _]. by apply String.eqb_neq. }
  apply findIndex_None. eapply Forall_impl; [exact H|]. by intros c [_ Hb].
Qed.

Lemma switch_default user ai humans hc idx comments w :
  ~ In (condition user) conditions ->
  switchCondition user ai humans hc idx comments w = (Ok comments, w).
Proof.
  intros Hnot. unfold switchCondition.
  repeat (lazymatch goal with
          | |- context [if String.eqb ?c ?s then _ else _] =>
              destruct (String.eqb_spec c s) as [Heq|_]
          end;
          [exfalso; apply Hnot; rewrite Heq; simpl; tauto|]).
  reflexivity.
Qed.

Lemma switch_removal_run user ai humans hc idx comments w :
  In (condition user) removalConditions ->
  switchCondition user ai humans hc idx comments w
  = (removalCase (removalText (condition user) w)
       (removalClass (condition user)) idx comments, w).
Proof.
  intros H. unfold switchCondition, removalClass, removalText.
  destruct H as [<-|[<-|[<-|[<-|[]]]]]; reflexivity.
Qed.

Lemma switch_objection_run user idx comments w :
  In (condition user) objectionConditions ->
  switchCondition user (theAiBotActor w) (theHumanObjectionActors w)
    (theHarassmentText w) idx comments w
  = objectionCase (objectionActor (condition user) w)
      (objectionText (condition user) w) (objectionClass (condition user))
      user idx comments w.
Proof.
  intros H.
  unfold switchCondition, objectionActor, objectionClass, objectionText.
  destruct H as [<-|[<-|[<-|[<-|[]]]]]; reflexivity.
Qed.

Lemma insert_last {A} (l : list A) x y :
  <[length l := y]> (l ++ [x]) = l ++ [y].
Proof.
  replace (length l) with (length l + 0)%nat at 1 by lia.
  by rewrite insert_app_r.
Qed.

Lemma alter_last {A} (f : A -> A) (l : list A) x :
  alter f (length l) (l ++ [x]) = l ++ [f x].
Proof.
  rewrite (alter_insert_lookup f (l ++ [x]) (length l) x).
  - apply insert_last.
  - by rewrite lookup_app_r, Nat.sub_diag by lia.
Qed.

(** C3, as amended: when no comment has class [offense1] and none contains
    the harassment text, what happens depends on the actor collection and
    not on the number of comments.  With no actor at all nothing is
    created and the video comes back unchanged, without an error.  With at
    least one actor a comment with [commentID] 999, the pinned time and no
    likes or unlikes is appended after the existing comments, whether or
    not there are any, and the condition's manipulation is applied to it.
    A removal condition gives it the removal text and class of the
    condition, marks it removed and replaces its actor, the first actor of
    the collection, by the [[deleted]] sentinel.  Every other condition
    leaves it the harassment text, class [offense1], not removed, with
    that actor.  An objection condition whose actor exists gives it the
    objection as its one subcomment, and otherwise it has none.  [Control]
    allows interactions on it. *)
Theorem harassment_comment_not_found
    (user : User) (firstVideo : Video) (w : World) :
  Forall notHarassment (v_comments firstVideo) ->
  match head (actorsDB w) with
  | None => applyManipulationToFirstVideo firstVideo user w = (Ok firstVideo, w)
  | Some harassmentActor =>
      exists v' w' c,
        applyManipulationToFirstVideo firstVideo user w = (Ok v', w')
        /\ v_comments v' = v_comments firstVideo ++ [c]
        /\ c_commentID c = 999%N
        /\ c_time c = HARASSMENT_TIME_OFFSET
        /\ c_likes c = 0 /\ c_unlikes c = 0
        /\ (In (condition user) removalConditions ->
            c_body c = removalText (condition user) w
            /\ c_class c = removalClass (condition user)
            /\ c_removed c = true
            /\ c_actor c = Some (deletedActor harassmentActor))
        /\ (~ In (condition user) removalConditions ->
            c_body c = theHarassmentText w
            /\ c_class c = "offense1"
            /\ c_removed c = false
            /\ c_actor c = Some harassmentActor)
        /\ (In (condition user) objectionConditions ->
            c_subcomments c
            = match objectionActor (condition user) w with
              | Some actor =>
                  [objectionSubcomment (clock w) actor
                     (objectionText (condition user) w)
                     (objectionClass (condition user)) user]
              | None => []
              end)
        /\ (~ In (condition user) objectionConditions -> c_subcomments c = [])
        /\ (condition user = "Control" -> c_allowInteractions c = Some true)
  end.
Proof.
  intros Hnone. apply locateHarassment_None in Hnone.
  rewrite applyManipulation_run. cbv zeta. unfold ensured. rewrite Hnone.
  destruct (head (actorsDB w)) as [a|]; simpl; [|by destruct firstVideo].
  set (c0 := harassmentCommentObj _ _ _ a).
  destruct control_condition_facts as [Hcr Hco].
  destruct (in_dec string_dec (condition user) conditions) as [Hin|Hnot].
  2: {
    rewrite switch_default by done.
    exists (set_v_comments (v_comments firstVideo ++ [c0]) firstVideo), w, c0.
    repeat (split; [reflexivity|]).
    split; [intros H; exfalso; apply Hnot; right; apply in_or_app; by left|].
    split; [done|].
    split; [intros H; exfalso; apply Hnot; right; apply in_or_app; by right|].
    split; [done|]. intros H. exfalso. apply Hnot. by left. }
  destruct Hin as [Hctl|Hin].
  { symmetry in Hctl. rewrite switch_control by done. unfold controlCase.
    rewrite alter_last. eexists _, w, _. split; [reflexivity|].
    split; [reflexivity|]. rewrite Hctl. repeat (split; [reflexivity|]).
    split; [done|]. split; [done|]. split; [done|]. by split. }
  apply in_app_or in Hin as [Hrem|Hobj].
  - destruct (removal_condition_facts _ Hrem) as (Hnc & Hno & _).
    rewrite switch_removal_run by done. unfold removalCase.
    rewrite lookup_app_r, Nat.sub_diag by lia. simpl. rewrite insert_last.
    eexists _, w, _. split; [reflexivity|]. split; [reflexivity|].
    repeat (split; [reflexivity|]).
    split; [done|]. split; [done|]. split; [done|]. by split.
  - destruct (objection_condition_facts _ Hobj) as (Hnc & Hno & _).
    rewrite switch_objection_run by done.
    rewrite (objectionCase_run _ _ _ _ _ _ c0)
      by (by rewrite lookup_app_r, Nat.sub_diag by lia).
    destruct (objectionActor (condition user) w) as [b|].
    + rewrite insert_last. eexists _, _, _. split; [reflexivity|].
      split; [reflexivity|]. repeat (split; [reflexivity|]).
      split; [done|]. split; [done|]. split; [done|]. by split.
    + exists (set_v_comments (v_comments firstVideo ++ [c0]) firstVideo), w, c0.
      repeat (split; [reflexivity|]).
      split; [done|]. split; [done|]. split; [done|]. by split.
Qed.

Lemma harassment_comment_not_found_witness :
  let user := Sample.user "Rem:Com:Ref" [] in
  let firstVideo := Sample.video 11 1 [Sample.ordinary] in
  let w := Sample.world [Sample.ordinary] [Sample.amy] 0 in
  Forall notHarassment (v_comments firstVideo)
  /\ match head (actorsDB w) with
     | None =>
         applyManipulationToFirstVideo firstVideo user w = (Ok firstVideo, w)
     | Some harassmentActor =>
         exists v' w' c,
           applyManipulationToFirstVideo firstVideo user w = (Ok v', w')
           /\ v_comments v' = v_comments firstVideo ++ [c]
           /\ c_commentID c = 999%N
           /\ c_time c = HARASSMENT_TIME_OFFSET
           /\ c_likes c = 0 /\ c_unlikes c = 0
           /\ (In (condition user) removalConditions ->
               c_body c = removalText (condition user) w
               /\ c_class c = removalClass (condition user)
               /\ c_removed c = true
               /\ c_actor c = Some (deletedActor harassmentActor))
           /\ (~ In (condition user) removalConditions ->
               c_body c = theHarassmentText w
               /\ c_class c = "offense1"
               /\ c_removed c = false
               /\ c_actor c = Some harassmentActor)
           /\ (In (condition user) objectionConditions ->
               c_subcomments c
               = match objectionActor (condition user) w with
                 | Some actor =>
                     [objectionSubcomment (clock w) actor
                        (objectionText (condition user) w)
                        (objectionClass (condition user)) user]
                 | None => []
                 end)
           /\ (~ In (condition user) objectionConditions ->
               c_subcomments c = [])
           /\ (condition user = "Control" ->
               c_allowInteractions c = Some true)
     end.
Proof.
  intros user firstVideo w.
  assert (Forall notHarassment (v_comments firstVideo)) as H1.
  { repeat constructor. simpl. discriminate. }
  split; [assumption|].
  exact (harassment_comment_not_found user firstVideo w H1).
Defined.

(** C3 as stated fails: a video with one ordinary comment, a removal
    condition and one actor in the collection does not come back
    unchanged; it comes back with a second comment. *)
Lemma not_found_is_not_a_no_op :
  ~ (forall (user : User) (firstVideo v' : Video) (w w' : World),
        Forall notHarassment (v_comments firstVideo) ->
        applyManipulationToFirstVideo firstVideo user w = (Ok v', w') ->
        (v_comments firstVideo <> [] -> condition user <> "Control" ->
         v' = firstVideo)
        /\ ((exists c, In c (v_comments v') /\ c_commentID c = 999%N
                       /\ ~ In c (v_comments firstVideo)) ->
            v_comments firstVideo = [])).
Proof.
  intros H.
  pose (user := Sample.user "Rem:AI:NoRef" []).
  pose (firstVideo := Sample.video 11 1 [Sample.ordinary]).
  pose (w := Sample.world [Sample.ordinary] [Sample.amy] 0).
  pose (run := applyManipulationToFirstVideo firstVideo user w).
  destruct (H user firstVideo (returned firstVideo run) w run.2) as [Hnoop _].
  - repeat constructor. simpl. discriminate.
  - vm_compute. reflexivity.
  - assert (length (v_comments (returned firstVideo run)) = 2%nat) as Hlen
      by (vm_compute; reflexivity).
    rewrite Hnoop in Hlen; [discriminate|discriminate|discriminate].
Qed.

(** ** The replay of the action log *)

Lemma replayPost_run user post fa :
  logEntry user post = Some fa ->
  replayPost user post =
  rbind (mergeReplies (bufferedReplies post fa) (commentsBeforeMerge post fa))
    (fun comments' => Ok (applyPostOverlay fa (set_v_comments comments' post))).
Proof.
  unfold logEntry, replayPost, bufferedReplies, commentsBeforeMerge.
  intros ->. by destruct (fold_left _ _ _).
Qed.

(** C5, as amended: when the post has a log entry, a [liked] entry makes
    the replay set the post's property [like] (not [liked]) to true and add
    exactly one to [likes]; an [unliked] entry sets [unlike] and adds one
    to [unlikes]; a [flagged] entry sets [flag]. *)
Theorem replay_post_overlay
    (user : User) (post post' : Video) (fa : FeedAction) :
  logEntry user post = Some fa ->
  replayPost user post = Ok post' ->
  (fa_liked fa = true ->
   v_own post' !! "like" = Some true /\ v_likes post' = v_likes post + 1)
  /\ (fa_unliked fa = true ->
      v_own post' !! "unlike" = Some true
      /\ v_unlikes post' = v_unlikes post + 1)
  /\ (fa_flagged fa = true -> v_own post' !! "flag" = Some true).
Proof.
  intros Hfa. rewrite (replayPost_run _ _ _ Hfa).
  destruct (mergeReplies _ _) as [comments'|]; simpl; [|done].
  intros [= <-]. unfold applyPostOverlay.
  destruct (fa_liked fa), (fa_unliked fa), (fa_flagged fa); simpl;
    repeat split; intros; try done; by simplify_map_eq.
Qed.

Lemma replay_post_overlay_witness :
  let user := Sample.user "Control" [Sample.likeOf 12] in
  let post := Sample.video 12 2 [Sample.ordinary] in
  let fa := Sample.likeOf 12 in
  let post' := valueOf post (replayPost user post) in
  logEntry user post = Some fa
  /\ replayPost user post = Ok post'
  /\ (fa_liked fa = true ->
      v_own post' !! "like" = Some true /\ v_likes post' = v_likes post + 1)
  /\ (fa_unliked fa = true ->
      v_own post' !! "unlike" = Some true
      /\ v_unlikes post' = v_unlikes post + 1)
  /\ (fa_flagged fa = true -> v_own post' !! "flag" = Some true).
Proof.
  intros user post fa post'.
  assert (logEntry user post = Some fa) as H1 by reflexivity.
  assert (replayPost user post = Ok post') as H2 by (vm_compute; reflexivity).
  repeat (split; [assumption|]).
  exact (replay_post_overlay user post post' fa H1 H2).
Defined.

(** C5 as stated fails: after the replay of a [liked] entry the post has
    no property [liked]; the flag is stored under [like]. *)
Lemma replay_does_not_set_liked :
  ~ (forall (user : User) (post post' : Video) (fa : FeedAction),
        logEntry user post = Some fa ->
        replayPost user post = Ok post' ->
        fa_liked fa = true ->
        v_own post' !! "liked" = Some true
        /\ v_likes post' = v_likes post + 1).
Proof.
  intros H.
  pose (user := Sample.user "Control" [Sample.likeOf 12]).
  pose (post := Sample.video 12 2 [Sample.ordinary]).
  destruct (H user post
              (valueOf post (replayPost user post))
              (Sample.likeOf 12)) as [Hliked _].
  - reflexivity.
  - vm_compute. reflexivity.
  - reflexivity.
  - vm_compute in Hliked. discriminate.
Qed.

(** C6 fails on the code: a new reply whose [parent_comment] is the
    [commentID] of no top-level comment makes [getFeed] throw instead of
    returning a feed without that reply. *)
Theorem orphan_reply_makes_getFeed_throw :
  (getFeed (Sample.user "Control"
              [Sample.commentsOn 12 [Sample.replyTo 42]])
     (Sample.world [Sample.harassment] [Sample.troll] 2000000)).1
  = TypeError "Cannot read properties of undefined (reading 'subcomments')".
Proof. vm_compute. reflexivity. Qed.

(** ** Sorting *)

Section SortFacts.
Context {A : Type} (cmp : A -> A -> Z).

Lemma insert_sorted_perm x l : insert_sorted cmp x l ≡ₚ x :: l.
Proof.
  induction l as [|y l IH]; simpl; [done|].
  case_match; [done|]. rewrite IH. apply perm_swap.
Qed.

Lemma sort_by_perm l : sort_by cmp l ≡ₚ l.
Proof.
  induction l as [|x l IH]; simpl; [done|].
  by rewrite insert_sorted_perm, IH.
Qed.

Hypothesis cmp_total : forall x y, cmp x y <= 0 \/ cmp y x <= 0.
Hypothesis cmp_trans : forall x y z, cmp x y <= 0 -> cmp y z <= 0 -> cmp x z <= 0.

Lemma insert_sorted_sorted x l :
  StronglySorted (precedes cmp) l -> StronglySorted (precedes cmp) (insert_sorted cmp x l).
Proof.
  induction 1 as [|y l Hl IH Hy]; simpl.
  - repeat constructor.
  - destruct (cmp x y <=? 0) eqn:Hxy.
    + apply Z.leb_le in Hxy. constructor; [by constructor|].
      constructor; [done|]. eapply Forall_impl; [exact Hy|].
      intros z Hz. by eapply cmp_trans.
    + apply Z.leb_gt in Hxy. constructor; [done|].
      rewrite insert_sorted_perm. constructor; [|done].
      destruct (cmp_total x y); [lia|done].
Qed.

Lemma sort_by_sorted l : StronglySorted (precedes cmp) (sort_by cmp l).
Proof.
  induction l as [|x l IH]; simpl; [constructor|].
  by apply insert_sorted_sorted.
Qed.

Lemma sort_by_of_sorted l : StronglySorted (precedes cmp) l -> sort_by cmp l = l.
Proof.
  induction 1 as [|x l Hl IH Hx]; simpl; [done|]. rewrite IH.
  destruct Hx as [|y l' Hxy _]; simpl; [done|].
  unfold precedes in Hxy. by apply Z.leb_le in Hxy as ->.
Qed.

End SortFacts.

(** Sorting two lists that are related element by element, with
    comparators that agree on related elements, gives related lists. *)
Lemma sort_by_Forall2 {A B} (R : A -> B -> Prop)
    (cmp1 : A -> A -> Z) (cmp2 : B -> B -> Z) l1 l2 :
  (forall x x' y y', R x x' -> R y y' -> cmp1 x y = cmp2 x' y') ->
  Forall2 R l1 l2 ->
  Forall2 R (sort_by cmp1 l1) (sort_by cmp2 l2).
Proof.
  intros Hcmp. induction 1 as [|x x' l1 l2 Hx _ IH]; simpl; [constructor|].
  induction IH as [|y y' s1 s2 Hy Hs IHs]; simpl.
  - by repeat constructor.
  - rewrite (Hcmp x x' y y' Hx Hy). case_match; by repeat constructor.
Qed.

Lemma StronglySorted_weaken {A} (R R' : A -> A -> Prop) l :
  (forall x y, R x y -> R' x y) -> StronglySorted R l -> StronglySorted R' l.
Proof.
  intros HR. induction 1 as [|x l _ IH Hx]; constructor; [done|].
  eapply Forall_impl; [exact Hx|]. intros y. apply HR.
Qed.

Lemma by_time_desc_sorted (l : list Comment) :
  StronglySorted (fun a b => c_time a >= c_time b) (sort_by by_time_desc l).
Proof.
  eapply StronglySorted_weaken; [|apply (sort_by_sorted by_time_desc)].
  - unfold precedes, by_time_desc. intros a b. lia.
  - unfold by_time_desc. intros. lia.
  - unfold by_time_desc. intros. lia.
Qed.

Lemma by_time_asc_sorted (l : list Subcomment) :
  StronglySorted (fun a b => s_time a <= s_time b) (sort_by by_time_asc l).
Proof.
  eapply StronglySorted_weaken; [|apply (sort_by_sorted by_time_asc)].
  - unfold precedes, by_time_asc. intros a b. lia.
  - unfold by_time_asc. intros. lia.
  - unfold by_time_asc. intros. lia.
Qed.

(** ** The reply dictionary and its merge *)

Lemma dict_push_keys k x d :
  forall k', k' ∈ (dict_push k x d).*1 <-> k' = k \/ k' ∈ d.*1.
Proof.
  induction d as [|[k0 xs] d IH]; intros k'; simpl.
  - rewrite list_elem_of_singleton. set_solver.
  - destruct (N.eqb_spec k k0) as [->|Hne]; simpl; [set_solver|].
    case_match; simpl; [set_solver|].
    rewrite !elem_of_cons, IH. tauto.
Qed.

Lemma dict_push_sorted k x d :
  StronglySorted N.lt d.*1 -> StronglySorted N.lt (dict_push k x d).*1.
Proof.
  induction d as [|[k0 xs] d IH]; simpl; intros Hd.
  - repeat constructor.
  - apply StronglySorted_inv in Hd as [Hd Hk0].
    destruct (N.eqb_spec k k0) as [->|Hne]; simpl; [by constructor|].
    destruct (N.ltb_spec k k0) as [Hlt|Hge]; simpl.
    + constructor; [by constructor|]. constructor; [done|].
      eapply Forall_impl; [exact Hk0|]. simpl. intros; lia.
    + constructor; [by apply IH|]. apply Forall_forall. intros k' Hk'.
      apply dict_push_keys in Hk' as [->|Hk']; [lia|].
      by eapply Forall_forall in Hk0.
Qed.

Lemma processCommentObject_sorted st commentObject :
  StronglySorted N.lt st.2.*1 ->
  StronglySorted N.lt (processCommentObject st commentObject).2.*1.
Proof.
  destruct st as [comments d]. unfold processCommentObject. simpl.
  repeat case_match; simpl; try done. apply dict_push_sorted.
Qed.

Lemma fold_processCommentObject_sorted entries st :
  StronglySorted N.lt st.2.*1 ->
  StronglySorted N.lt (fold_left processCommentObject entries st).2.*1.
Proof.
  revert st. induction entries as [|e entries IH]; intros st Hst; simpl; [done|].
  by apply IH, processCommentObject_sorted.
Qed.

Lemma StronglySorted_lt_NoDup (l : list N) : StronglySorted N.lt l -> NoDup l.
Proof.
  induction 1 as [|x l _ IH Hx]; constructor; [|done].
  intros Hin. eapply Forall_forall in Hx; [|exact Hin]. lia.
Qed.

Lemma bufferedReplies_NoDup post fa : NoDup (bufferedReplies post fa).*1.
Proof.
  apply StronglySorted_lt_NoDup, fold_processCommentObject_sorted. constructor.
Qed.

Lemma fmap_alter_preserved {A B} (g : A -> B) (f : A -> A) i (l : list A) :
  (forall x, g (f x) = g x) -> g <$> alter f i l = g <$> l.
Proof.
  intros H. revert i. induction l as [|y l IH]; intros [|i]; simpl; try done.
  - by rewrite H.
  - f_equal. apply IH.
Qed.

Lemma findIndex_fmap {A B} (g : A -> B) (p : B -> bool) (l : list A) :
  findIndex (fun x => p (g x)) l = findIndex p (g <$> l).
Proof. induction l as [|y l IH]; simpl; [done|]. by rewrite IH. Qed.

Lemma findIndex_commentID_Some key comments i :
  findIndex (fun o => (c_commentID o =? key)%N) comments = Some i ->
  exists c, comments !! i = Some c /\ c_commentID c = key.
Proof.
  intros H. apply findIndex_Some in H as (c & Hc & Hk).
  exists c. split; [done|]. by apply N.eqb_eq.
Qed.

(** What a merge that returned did to the comments: ids and times stay,
    the first comment with each key got its replies, sorted, and the
    comments that no key selects are untouched. *)
Lemma mergeReplies_spec dict pre res :
  NoDup dict.*1 ->
  mergeReplies dict pre = Ok res ->
  c_commentID <$> res = c_commentID <$> pre
  /\ c_time <$> res = c_time <$> pre
  /\ (forall key value, (key, value) ∈ dict ->
      exists i parent parent',
        findIndex (fun o => (c_commentID o =? key)%N) pre = Some i
        /\ pre !! i = Some parent
        /\ res !! i = Some parent'
        /\ c_subcomments parent'
           = sort_by by_time_asc (c_subcomments parent ++ value))
  /\ (forall j,
        (forall key, key ∈ dict.*1 ->
           findIndex (fun o => (c_commentID o =? key)%N) pre <> Some j) ->
        res !! j = pre !! j).
Proof.
  revert pre. induction dict as [|[k v] rest IH]; intros pre Hnd; simpl.
  - intros [= <-]. split; [done|]. split; [done|]. split; [|done].
    intros ?? H. by apply elem_of_nil in H.
  - apply NoDup_cons in Hnd as [Hk Hnd].
    destruct (findIndex _ pre) as [i|] eqn:Hi; [|done].
    set (f := fun c => set_c_subcomments
                         (sort_by by_time_asc (c_subcomments c ++ v)) c).
    intros Hres. destruct (IH _ Hnd Hres) as (Hids & Htimes & Hkeys & Hframe).
    assert (c_commentID <$> alter f i pre = c_commentID <$> pre) as Hids1
      by (by apply fmap_alter_preserved).
    assert (forall key,
              findIndex (fun o => (c_commentID o =? key)%N) (alter f i pre)
              = findIndex (fun o => (c_commentID o =? key)%N) pre) as Hfind.
    { intros key.
      rewrite (findIndex_fmap c_commentID (fun n => (n =? key)%N) (alter f i pre)).
      rewrite (findIndex_fmap c_commentID (fun n => (n =? key)%N) pre).
      by rewrite Hids1. }
    destruct (findIndex_commentID_Some _ _ _ Hi) as (parent & Hparent & Hpk).
    assert (forall key j, key ∈ rest.*1 ->
              findIndex (fun o => (c_commentID o =? key)%N) pre = Some j ->
              j <> i) as Hother.
    { intros key j Hkey Hj ->.
      destruct (findIndex_commentID_Some _ _ _ Hj) as (c & Hc & Hck).
      rewrite Hparent in Hc. injection Hc as <-.
      rewrite Hpk in Hck. by subst. }
    split; [congruence|]. split.
    { rewrite Htimes. by apply fmap_alter_preserved. }
    split.
    + intros key value Hin. apply elem_of_cons in Hin as [[= -> ->]|Hin].
      * exists i, parent, (f parent). repeat split; try done.
        rewrite Hframe.
        { by rewrite list_lookup_alter_eq, Hparent. }
        intros key Hkey Hj. rewrite Hfind in Hj. by eapply Hother.
      * destruct (Hkeys _ _ Hin) as (j & p & p' & Hj & Hp & Hp' & Hsubs).
        rewrite Hfind in Hj.
        assert (j <> i) as Hji.
        { eapply Hother; [|exact Hj]. apply list_elem_of_fmap.
          by exists (key, value). }
        rewrite list_lookup_alter_ne in Hp by done.
        by exists j, p, p'.
    + intros j Hj. rewrite Hframe.
      * apply list_lookup_alter_ne. intros ->. eapply Hj; [|exact Hi].
        simpl. apply elem_of_cons. by left.
      * intros key Hkey. rewrite Hfind. apply Hj. simpl.
        apply elem_of_cons. by right.
Qed.

Lemma findIndex_commentID_None key comments :
  findIndex (fun o => (c_commentID o =? key)%N) comments = None
  <-> key ∉ c_commentID <$> comments.
Proof.
  rewrite findIndex_None, list_elem_of_fmap, Forall_forall. split.
  - intros H (c & -> & Hc). specialize (H c Hc). by rewrite N.eqb_refl in H.
  - intros H c Hc. apply N.eqb_neq. intros Heq. apply H. by exists c.
Qed.

(** The merge throws exactly when some key of the dictionary is the
    [commentID] of no top-level comment. *)
Lemma mergeReplies_returns dict comments :
  (exists res, mergeReplies dict comments = Ok res)
  <-> forall key, key ∈ dict.*1 -> key ∈ c_commentID <$> comments.
Proof.
  revert comments. induction dict as [|[k v] rest IH]; intros comments; simpl.
  - split; [|by eauto]. intros _ key Hkey. by apply elem_of_nil in Hkey.
  - destruct (findIndex _ comments) as [i|] eqn:Hi.
    + rewrite IH, fmap_alter_preserved by done. split.
      * intros H key Hkey. apply elem_of_cons in Hkey as [->|Hkey]; [|auto].
        destruct (findIndex_commentID_Some _ _ _ Hi) as (c & Hc & <-).
        apply list_elem_of_fmap. exists c. split; [done|].
        apply list_elem_of_lookup. eauto.
      * intros H key Hkey. apply H, elem_of_cons. by right.
    + apply findIndex_commentID_None in Hi. split.
      * by intros [res Hres].
      * intros H. exfalso. apply Hi, H, elem_of_cons. by left.
Qed.

(** The replay of a post throws exactly when the log entry of the post
    buffers a reply whose [parent_comment] is the [commentID] of none of
    its top-level comments; every other entry that points at nothing is
    skipped. *)
Lemma replayPost_returns user post :
  (exists post', replayPost user post = Ok post')
  <-> forall fa key,
        logEntry user post = Some fa ->
        key ∈ (bufferedReplies post fa).*1 ->
        key ∈ c_commentID <$> commentsBeforeMerge post fa.
Proof.
  destruct (logEntry user post) as [fa|] eqn:Hfa.
  - rewrite (replayPost_run _ _ _ Hfa). split.
    + intros [post' Hpost'] fa' key [= <-].
      apply mergeReplies_returns.
      destruct (mergeReplies _ _) as [res|]; [by eauto|done].
    + intros H.
      destruct (proj2 (mergeReplies_returns (bufferedReplies post fa)
                         (commentsBeforeMerge post fa))) as [res ->];
        [by eauto|]. simpl. by eauto.
  - split; [done|]. intros _. unfold replayPost. unfold logEntry in Hfa.
    rewrite Hfa. by eauto.
Qed.

Lemma applyPostOverlay_comments fa post :
  v_comments (applyPostOverlay fa post) = v_comments post.
Proof.
  unfold applyPostOverlay.
  by destruct (fa_liked fa), (fa_unliked fa), (fa_flagged fa).
Qed.

Lemma StronglySorted_by_time (l : list Comment) :
  StronglySorted (fun a b => c_time a >= c_time b) l
  <-> StronglySorted Z.ge (c_time <$> l).
Proof.
  induction l as [|x l IH]; [split; constructor|]. rewrite fmap_cons.
  split; intros H; apply StronglySorted_inv in H as [Hl Hx];
    (constructor; [by apply IH|]).
  - by apply Forall_fmap.
  - by rewrite Forall_fmap in Hx.
Qed.

(** C7: after the replay of a post that has a log entry, the top-level
    comments are in descending order of time, and for every key of the
    reply dictionary the parent comment (the first one with that
    [commentID]) holds its former subcomments together with the buffered
    replies, in ascending order of time. *)
Theorem replay_sorts_comments_and_replies
    (user : User) (post post' : Video) (fa : FeedAction) :
  logEntry user post = Some fa ->
  replayPost user post = Ok post' ->
  StronglySorted (fun a b => c_time a >= c_time b) (v_comments post')
  /\ forall key value, In (key, value) (bufferedReplies post fa) ->
     exists i parent parent',
       findIndex (fun o => (c_commentID o =? key)%N)
         (commentsBeforeMerge post fa) = Some i
       /\ commentsBeforeMerge post fa !! i = Some parent
       /\ v_comments post' !! i = Some parent'
       /\ c_subcomments parent' ≡ₚ c_subcomments parent ++ value
       /\ StronglySorted (fun a b => s_time a <= s_time b)
            (c_subcomments parent').
Proof.
  intros Hfa. rewrite (replayPost_run _ _ _ Hfa).
  destruct (mergeReplies _ _) as [comments'|] eqn:Hmerge; simpl; [|done].
  intros [= <-]. rewrite applyPostOverlay_comments. simpl.
  destruct (mergeReplies_spec _ _ _ (bufferedReplies_NoDup post fa) Hmerge)
    as (_ & Htimes & Hkeys & _).
  split.
  - apply StronglySorted_by_time. rewrite Htimes.
    apply StronglySorted_by_time, by_time_desc_sorted.
  - intros key value Hin. apply list_elem_of_In in Hin.
    destruct (Hkeys _ _ Hin) as (i & p & p' & Hi & Hp & Hp' & Hsubs).
    exists i, p, p'. repeat (split; [done|]). rewrite Hsubs. split.
    + apply sort_by_perm.
    + apply by_time_asc_sorted.
Qed.

Lemma replay_sorts_comments_and_replies_witness :
  let entries := [Sample.newComment 60 300; Sample.replyTo 15] in
  let user := Sample.user "Control" [Sample.commentsOn 12 entries] in
  let post := Sample.video 12 2 [Sample.ordinary] in
  let fa := Sample.commentsOn 12 entries in
  let post' := valueOf post (replayPost user post) in
  logEntry user post = Some fa
  /\ replayPost user post = Ok post'
  /\ StronglySorted (fun a b => c_time a >= c_time b) (v_comments post')
  /\ forall key value, In (key, value) (bufferedReplies post fa) ->
     exists i parent parent',
       findIndex (fun o => (c_commentID o =? key)%N)
         (commentsBeforeMerge post fa) = Some i
       /\ commentsBeforeMerge post fa !! i = Some parent
       /\ v_comments post' !! i = Some parent'
       /\ c_subcomments parent' ≡ₚ c_subcomments parent ++ value
       /\ StronglySorted (fun a b => s_time a <= s_time b)
            (c_subcomments parent').
Proof.
  intros entries user post fa post'.
  assert (logEntry user post = Some fa) as H1 by reflexivity.
  assert (replayPost user post = Ok post') as H2 by (vm_compute; reflexivity).
  repeat (split; [assumption|]).
  exact (replay_sorts_comments_and_replies user post post' fa H1 H2).
Defined.

(** ** The pinned time through the rest of [getFeed] *)

Lemma Script_find_run user w :
  Script_find (interest user) w = (Ok (scriptFeed user w), w).
Proof. reflexivity. Qed.

Lemma getFeed_run user w :
  getFeed user w =
  match applyExperimentalManipulations (scriptFeed user w) user w with
  | (Ok feed1, w1) =>
      (match replayAll user (repinPass feed1) with
       | Ok finalfeed =>
           Ok (finalPinPass
                 (map (serializePost (schema_allowInteractions w1)
                         (schema_post_overlay w1))
                    (sort_by by_postID finalfeed)))
       | TypeError msg => TypeError msg
       end, w1)
  | (TypeError msg, w1) => (TypeError msg, w1)
  end.
Proof.
  unfold getFeed. unfold bind at 1. rewrite Script_find_run.
  unfold bind at 1.
  destruct (applyExperimentalManipulations _ _ _) as [[feed1|msg] w1]; [|done].
  unfold bind, lift, serializeFeed, ret.
  by destruct (replayAll _ _).
Qed.

Lemma keepsPin_pinned f h c :
  keepsPin f -> pinnedCopyOf h c -> pinnedCopyOf h (f c).
Proof.
  intros Hf (Hid & Hcid & Ht). destruct (Hf c) as (Hid' & Hcid' & Ht').
  unfold pinnedCopyOf. rewrite Hid', Hcid'. repeat split; try done.
  destruct Ht'; congruence.
Qed.

Lemma keepsPin_fmap f h l :
  keepsPin f -> Exists (pinnedCopyOf h) l -> Exists (pinnedCopyOf h) (f <$> l).
Proof.
  intros Hf. induction 1 as [c l Hc|c l _ IH]; rewrite fmap_cons.
  - left. by apply keepsPin_pinned.
  - by right.
Qed.

Lemma keepsPin_alter f i h l :
  keepsPin f -> Exists (pinnedCopyOf h) l ->
  Exists (pinnedCopyOf h) (alter f i l).
Proof.
  intros Hf H. revert i.
  induction H as [c l Hc|c l H IH]; intros [|i]; simpl.
  - left. by apply keepsPin_pinned.
  - by left.
  - by right.
  - right. apply IH.
Qed.

Lemma Exists_perm {A} (P : A -> Prop) l1 l2 :
  l1 ≡ₚ l2 -> Exists P l1 -> Exists P l2.
Proof. intros Hp. by rewrite Hp. Qed.

Lemma keepsPinned_trans p1 p2 p3 :
  keepsPinned p1 p2 -> keepsPinned p2 p3 -> keepsPinned p1 p3.
Proof.
  intros (?&?&H12) (?&?&H23). repeat split; [congruence..|].
  intros h Hh. by apply H23, H12.
Qed.

Lemma keepsPin_applyDeltaComment co : keepsPin (applyDeltaComment co).
Proof.
  intros c. unfold applyDeltaComment.
  destruct (ac_liked co), (ac_unliked co), (ac_flagged co); simpl; auto.
Qed.

Lemma keepsPin_applyDeltaInSubcomments co :
  keepsPin (applyDeltaInSubcomments co).
Proof.
  intros c. unfold applyDeltaInSubcomments. case_match; simpl; auto.
Qed.

Lemma keepsPin_set_c_subcomments (g : Comment -> list Subcomment) :
  keepsPin (fun c => set_c_subcomments (g c) c).
Proof. intros c. simpl. auto. Qed.

Lemma keepsPin_toObject_comment b : keepsPin (toObject_comment b).
Proof. intros c. unfold toObject_comment. destruct b; simpl; auto. Qed.

Lemma keepsPin_restoreAllowInteractions original :
  keepsPin (restoreAllowInteractions original).
Proof.
  intros c. unfold restoreAllowInteractions. repeat case_match; simpl; auto.
Qed.

Lemma keepsPin_pin_if (test : Comment -> bool) :
  keepsPin (fun c => if test c then setHarassmentCommentTime c else c).
Proof. intros c. destruct (test c); simpl; auto. Qed.

Lemma processCommentObject_keeps h st co :
  Exists (pinnedCopyOf h) st.1 ->
  Exists (pinnedCopyOf h) (processCommentObject st co).1.
Proof.
  destruct st as [comments d]. unfold processCommentObject. simpl. intros H.
  repeat case_match; simpl; try done.
  - apply Exists_app. by left.
  - by apply keepsPin_alter; [apply keepsPin_applyDeltaComment|].
  - by apply keepsPin_fmap; [apply keepsPin_applyDeltaInSubcomments|].
Qed.

Lemma fold_processCommentObject_keeps h entries st :
  Exists (pinnedCopyOf h) st.1 ->
  Exists (pinnedCopyOf h) (fold_left processCommentObject entries st).1.
Proof.
  revert st. induction entries as [|e entries IH]; intros st Hst; simpl; [done|].
  by apply IH, processCommentObject_keeps.
Qed.

Lemma mergeReplies_keeps h dict comments comments' :
  mergeReplies dict comments = Ok comments' ->
  Exists (pinnedCopyOf h) comments -> Exists (pinnedCopyOf h) comments'.
Proof.
  revert comments. induction dict as [|[k v] rest IH]; intros comments; simpl.
  - by intros [= <-].
  - case_match; [|done]. intros Hres Hex. eapply IH; [exact Hres|].
    apply keepsPin_alter; [|done].
    apply (keepsPin_set_c_subcomments
             (fun c => sort_by by_time_asc (c_subcomments c ++ v))).
Qed.

Lemma applyPostOverlay_ids fa post :
  v_id (applyPostOverlay fa post) = v_id post
  /\ v_postID (applyPostOverlay fa post) = v_postID post.
Proof.
  unfold applyPostOverlay.
  by destruct (fa_liked fa), (fa_unliked fa), (fa_flagged fa).
Qed.

Lemma replayPost_keeps user post post' :
  replayPost user post = Ok post' -> keepsPinned post post'.
Proof.
  destruct (logEntry user post) as [fa|] eqn:Hfa.
  - rewrite (replayPost_run _ _ _ Hfa).
    destruct (mergeReplies _ _) as [comments'|] eqn:Hmerge; simpl; [|done].
    intros [= <-]. destruct (applyPostOverlay_ids fa (set_v_comments comments' post))
      as [Hid Hpid].
    split; [done|]. split; [done|]. intros h Hh.
    rewrite applyPostOverlay_comments. simpl.
    eapply mergeReplies_keeps; [exact Hmerge|].
    unfold commentsBeforeMerge. eapply Exists_perm.
    { symmetry. apply sort_by_perm. }
    by apply fold_processCommentObject_keeps.
  - unfold replayPost. unfold logEntry in Hfa. rewrite Hfa. intros [= <-].
    repeat split. simpl. intros h Hh. eapply Exists_perm; [|exact Hh].
    symmetry. apply sort_by_perm.
Qed.

Lemma replayAll_keeps user feed feed' :
  replayAll user feed = Ok feed' -> Forall2 keepsPinned feed feed'.
Proof.
  revert feed'. induction feed as [|post rest IH]; intros feed'; simpl.
  - intros [= <-]. constructor.
  - destruct (replayPost user post) as [post'|] eqn:Hpost; simpl; [|done].
    destruct (replayAll user rest) as [rest'|]; simpl; [|done].
    intros [= <-]. constructor; [by eapply replayPost_keeps|by apply IH].
Qed.

Lemma fmap_keepsPinned (g : Video -> Video) feed :
  (forall p, keepsPinned p (g p)) -> Forall2 keepsPinned feed (g <$> feed).
Proof.
  intros Hg. apply Forall2_fmap_r, Forall_Forall2_diag, Forall_forall.
  intros p _. apply Hg.
Qed.

Lemma repinPass_keeps feed : Forall2 keepsPinned feed (repinPass feed).
Proof.
  apply fmap_keepsPinned. intros p. repeat split. simpl. intros h.
  apply keepsPin_fmap, keepsPin_pin_if.
Qed.

Lemma serializePost_keeps a b p : keepsPinned p (serializePost a b p).
Proof.
  unfold serializePost. repeat split; simpl; try by destruct b.
  intros h Hh. apply keepsPin_fmap; [apply keepsPin_restoreAllowInteractions|].
  by apply keepsPin_fmap; [apply keepsPin_toObject_comment|].
Qed.

Lemma finalPinPass_keeps feed : Forall2 keepsPinned feed (finalPinPass feed).
Proof.
  apply fmap_keepsPinned. intros p. repeat split. simpl. intros h.
  apply keepsPin_fmap, keepsPin_pin_if.
Qed.

Lemma Forall2_keepsPinned_trans l1 l2 l3 :
  Forall2 keepsPinned l1 l2 -> Forall2 keepsPinned l2 l3 ->
  Forall2 keepsPinned l1 l3.
Proof.
  intros H. revert l3. induction H as [|x y l1 l2 Hxy _ IH]; intros l3 H23.
  - by inversion H23.
  - inversion H23; subst. constructor; [by eapply keepsPinned_trans|by apply IH].
Qed.

Lemma sorted_by_postID (l : list Video) :
  StronglySorted (precedes by_postID) l
  <-> StronglySorted Z.le (v_postID <$> l).
Proof.
  induction l as [|x l IH]; [split; constructor|]. rewrite fmap_cons.
  split; intros H; apply StronglySorted_inv in H as [Hl Hx];
    (constructor; [by apply IH|]).
  - apply Forall_fmap. eapply Forall_impl; [exact Hx|].
    unfold precedes, by_postID. simpl. intros; lia.
  - rewrite Forall_fmap in Hx. eapply Forall_impl; [exact Hx|].
    unfold precedes, by_postID. simpl. intros; lia.
Qed.

Lemma scriptFeed_sorted user w :
  StronglySorted (precedes by_postID) (scriptFeed user w).
Proof.
  apply sort_by_sorted; unfold by_postID; intros; lia.
Qed.

Lemma keepsPinned_postIDs l1 l2 :
  Forall2 keepsPinned l1 l2 -> v_postID <$> l2 = v_postID <$> l1.
Proof.
  induction 1 as [|x y l1 l2 (_ & Hp & _) _ IH]; [done|].
  rewrite !fmap_cons. by f_equal.
Qed.

(** Whenever the [switch] returns, it has replaced the comment at the
    harassment index and nothing else. *)
Lemma switchCondition_inv user ai humans hc i comments comments' c0 w w' :
  comments !! i = Some c0 ->
  switchCondition user ai humans hc (Some i) comments w = (Ok comments', w') ->
  exists c, comments' = <[i := c]> comments
    /\ c_commentID c = c_commentID c0 /\ c_id c = c_id c0
    /\ (c_time c = c_time c0 \/ c_time c = HARASSMENT_TIME_OFFSET).
Proof.
  intros H.
  assert (forall body class,
            removalCase body class (Some i) comments = Ok comments' ->
            exists c, comments' = <[i := c]> comments
              /\ c_commentID c = c_commentID c0 /\ c_id c = c_id c0
              /\ (c_time c = c_time c0 \/ c_time c = HARASSMENT_TIME_OFFSET))
    as Hrem.
  { intros body class. unfold removalCase. rewrite H. simpl.
    destruct (c_actor c0); simpl; [|done]. intros [= <-].
    eexists. split; [reflexivity|]. simpl. auto. }
  assert (forall actor body class,
            objectionCase actor body class user (Some i) comments w
            = (Ok comments', w') ->
            exists c, comments' = <[i := c]> comments
              /\ c_commentID c = c_commentID c0 /\ c_id c = c_id c0
              /\ (c_time c = c_time c0 \/ c_time c = HARASSMENT_TIME_OFFSET))
    as Hobj.
  { intros actor body class. rewrite (objectionCase_run _ _ _ _ _ _ _ _ H).
    destruct actor; intros [= <- <-].
    - eexists. split; [reflexivity|]. simpl. auto.
    - exists c0. rewrite list_insert_id by done. auto. }
  unfold switchCondition.
  repeat (lazymatch goal with
          | |- context [if String.eqb ?c ?s then _ else _] =>
              destruct (String.eqb c s)
          end;
          [first
             [ unfold ret, controlCase;
               rewrite (alter_insert_lookup _ _ _ _ H);
               intros [= <- <-]; eexists; split; [reflexivity|]; simpl;
               by auto
             | unfold bind, getenv, lift; intros Heq;
               apply pair_equal_spec in Heq as [Hr _]; by eapply Hrem
             | unfold bind, getenv; by apply Hobj ]|]).
  unfold ret. intros [= <- <-]. exists c0. rewrite list_insert_id by done. auto.
Qed.

Lemma insert_alter_eq {A} (f : A -> A) (l : list A) i x :
  <[i := x]> (alter f i l) = <[i := x]> l.
Proof.
  revert i. induction l as [|y l IH]; intros [|i]; simpl; try done.
  f_equal. apply IH.
Qed.

(** The manipulation of a first video whose harassment comment was found:
    that comment is replaced by a pinned copy, and nothing else changes. *)
Lemma manipulation_of_located user v0 v0' w w' i h :
  locateHarassment (v_comments v0) = Some i ->
  v_comments v0 !! i = Some h ->
  applyManipulationToFirstVideo v0 user w = (Ok v0', w') ->
  exists c, v_comments v0' = <[i := c]> (v_comments v0)
    /\ pinnedCopyOf h c
    /\ v_id v0' = v_id v0 /\ v_postID v0' = v_postID v0.
Proof.
  intros Hloc Hh. rewrite applyManipulation_run. cbv zeta.
  unfold ensured. rewrite Hloc. simpl.
  destruct (switchCondition _ _ _ _ _ _ w) as [[comments'|msg] w1] eqn:Hsw;
    [|done].
  intros [= <- <-].
  eapply switchCondition_inv in Hsw as (c & -> & Hcid & Hid & Ht).
  2: { by rewrite list_lookup_alter_eq, Hh. }
  exists c. simpl. rewrite insert_alter_eq. split; [done|].
  split; [|done]. unfold pinnedCopyOf. simpl in *. by destruct Ht.
Qed.

Lemma filter_insert_only {A} (P : A -> Prop) `{!forall x, Decision (P x)}
    (l : list A) i x :
  (i < length l)%nat -> P x ->
  (forall j y, j <> i -> l !! j = Some y -> ~ P y) ->
  filter P (<[i := x]> l) = [x].
Proof.
  revert i. induction l as [|y l IH]; intros i Hi Hx Hothers; simpl in Hi.
  - lia.
  - assert (forall k, Forall (fun y => ~ P y) k -> filter P k = []) as Hnil.
    { induction 1 as [|z k Hz _ IHk]; [done|].
      by rewrite filter_cons_False. }
    destruct i as [|i]; simpl.
    + rewrite filter_cons_True by done. f_equal. apply Hnil.
      apply Forall_forall. intros z Hz.
      apply list_elem_of_lookup in Hz as [j Hj].
      by apply (Hothers (S j) z).
    + rewrite filter_cons_False by (by apply (Hothers 0%nat y)).
      apply IH; [lia|done|]. intros j z Hj Hz.
      apply (Hothers (S j) z); [lia|done].
Qed.

(** C1, as amended: under each of the nine conditions the manipulation of
    a first video whose harassment comment is found replaces that comment
    by one with the same [id] and [commentID] and the time -21600000, and
    changes no other comment, so that it is the only comment with that
    time unless another comment of the video carried it already.  When
    [getFeed] returns, the first post of the feed is that video and still
    holds the comment with the pinned time. *)
Theorem harassment_time_is_pinned
    (user : User) (w w' : World) (v0 v1 v2 : Video) (i : nat) (h : Comment)
    (feed : list Video) :
  In (condition user) conditions ->
  scriptFeed user w = [v0; v1; v2] ->
  locateHarassment (v_comments v0) = Some i ->
  v_comments v0 !! i = Some h ->
  getFeed user w = (Ok feed, w') ->
  (exists v0' wm c,
      applyManipulationToFirstVideo v0 user w = (Ok v0', wm)
      /\ v_comments v0' = <[i := c]> (v_comments v0)
      /\ pinnedCopyOf h c
      /\ HARASSMENT_TIME_OFFSET = -21600000
      /\ ((forall j c', j <> i -> v_comments v0 !! j = Some c' ->
                        c_time c' <> HARASSMENT_TIME_OFFSET) ->
          filter (fun c => c_time c = HARASSMENT_TIME_OFFSET) (v_comments v0')
          = [c]))
  /\ (exists p0 p1 p2,
        feed = [p0; p1; p2] /\ v_id p0 = v_id v0
        /\ Exists (pinnedCopyOf h) (v_comments p0)).
Proof.
  intros _ Hfeed Hloc Hh. rewrite getFeed_run.
  pose proof (scriptFeed_sorted user w) as Hsorted. rewrite Hfeed in *.
  unfold applyExperimentalManipulations. unfold bind at 1.
  destruct (applyManipulationToFirstVideo v0 user w) as [[v0'|msg] wm] eqn:Hm;
    [|done].
  unfold ret.
  destruct (manipulation_of_located _ _ _ _ _ _ _ Hloc Hh Hm)
    as (c & Hcs & Hpin & Hid & Hpid).
  destruct (replayAll user _) as [finalfeed|] eqn:Hreplay; [|done].
  intros [= <- <-]. split.
  - exists v0', wm, c. repeat (split; [done|]). intros Hothers.
    rewrite Hcs. apply filter_insert_only.
    + by eapply lookup_lt_Some.
    + by destruct Hpin as (_ & _ & Ht).
    + done.
  - assert (Forall2 keepsPinned [v0'; v1; v2] finalfeed) as Hkeep.
    { eapply Forall2_keepsPinned_trans; [apply repinPass_keeps|].
      by apply (replayAll_keeps user). }
    assert (sort_by by_postID finalfeed = finalfeed) as ->.
    { apply sort_by_of_sorted, sorted_by_postID.
      rewrite (keepsPinned_postIDs _ _ Hkeep). simpl. rewrite Hpid.
      by apply sorted_by_postID in Hsorted. }
    assert (Forall2 keepsPinned [v0'; v1; v2]
              (finalPinPass
                 (map (serializePost (schema_allowInteractions wm)
                         (schema_post_overlay wm)) finalfeed))) as Hall.
    { eapply Forall2_keepsPinned_trans; [exact Hkeep|].
      eapply Forall2_keepsPinned_trans; [|apply finalPinPass_keeps].
      apply fmap_keepsPinned. intros p. apply serializePost_keeps. }
    inversion Hall as [|? p0 ? l0 (Hp0 & _ & Hex) Hrest]; subst.
    inversion Hrest as [|? p1 ? l1 _ Hrest1]; subst.
    inversion Hrest1 as [|? p2 ? l2 _ Hrest2]; subst.
    inversion Hrest2; subst.
    exists p0, p1, p2. split; [done|]. split; [congruence|].
    apply Hex. rewrite Hcs. apply Exists_exists. exists c. split; [|done].
    apply list_elem_of_lookup. exists i.
    apply list_lookup_insert_eq. by eapply lookup_lt_Some.
Qed.

Lemma harassment_time_is_pinned_witness :
  let log := [Sample.likeOf 11;
              Sample.commentsOn 12 [Sample.newComment 60 300]] in
  let user := Sample.user "Rem:AI:Ref" log in
  let first := [Sample.ordinary; Sample.harassment] in
  let w := Sample.world first [Sample.troll; Sample.bot] 4600000 in
  let v0 := Sample.video 11 1 first in
  let v1 := Sample.video 12 2 [Sample.ordinary] in
  let v2 := Sample.video 13 3 [] in
  let run := getFeed user w in
  let h := Sample.harassment in
  In (condition user) conditions
  /\ scriptFeed user w = [v0; v1; v2]
  /\ locateHarassment (v_comments v0) = Some 1%nat
  /\ v_comments v0 !! 1%nat = Some h
  /\ run = (Ok (returned [] run), run.2)
  /\ (exists v0' wm c,
         applyManipulationToFirstVideo v0 user w = (Ok v0', wm)
         /\ v_comments v0' = <[1%nat := c]> (v_comments v0)
         /\ pinnedCopyOf h c
         /\ HARASSMENT_TIME_OFFSET = -21600000
         /\ ((forall j c', j <> 1%nat -> v_comments v0 !! j = Some c' ->
                           c_time c' <> HARASSMENT_TIME_OFFSET) ->
             filter (fun c => c_time c = HARASSMENT_TIME_OFFSET)
               (v_comments v0') = [c]))
  /\ (exists p0 p1 p2,
        returned [] run = [p0; p1; p2] /\ v_id p0 = v_id v0
        /\ Exists (pinnedCopyOf h) (v_comments p0)).
Proof.
  intros log user first w v0 v1 v2 run h.
  assert (In (condition user) conditions) as H1 by (simpl; auto).
  assert (scriptFeed user w = [v0; v1; v2]) as H2 by (vm_compute; reflexivity).
  assert (locateHarassment (v_comments v0) = Some 1%nat) as H3 by reflexivity.
  assert (v_comments v0 !! 1%nat = Some h) as H4 by reflexivity.
  assert (run = (Ok (returned [] run), run.2)) as H5
    by (vm_compute; reflexivity).
  repeat (split; [assumption|]).
  exact (harassment_time_is_pinned user w run.2 v0 v1 v2 1%nat h
           (returned [] run) H1 H2 H3 H4 H5).
Defined.

(** C1 as stated fails: when another comment of the first video was
    posted six hours before the account, two comments carry the pinned
    time after the manipulation. *)
Lemma pinned_time_is_not_unique :
  ~ (forall (user : User) (v0 v0' : Video) (w w' : World) (i : nat),
        In (condition user) conditions ->
        locateHarassment (v_comments v0) = Some i ->
        applyManipulationToFirstVideo v0 user w = (Ok v0', w') ->
        length (filter (fun c => c_time c = -21600000) (v_comments v0'))
        = 1%nat).
Proof.
  intros H.
  pose (user := Sample.user "Control" []).
  pose (first := [Sample.harassment; Sample.sixHoursOld]).
  pose (v0 := Sample.video 11 1 first).
  pose (w := Sample.world first [Sample.troll] 4600000).
  pose (run := applyManipulationToFirstVideo v0 user w).
  assert (length (filter (fun c => c_time c = -21600000)
                    (v_comments (returned v0 run))) = 1%nat) as Hone.
  { apply (H user v0 (returned v0 run) w run.2 0%nat).
    - simpl. auto.
    - reflexivity.
    - vm_compute. reflexivity. }
  vm_compute in Hone. discriminate.
Qed.

(** ** Two runs of [getFeed] over the same collections and log *)

Lemma simSub_refl n s : simSub n s s.
Proof. by split. Qed.

Lemma Forall2_refl {A} (R : A -> A -> Prop) l :
  (forall x, R x x) -> Forall2 R l l.
Proof. intros HR. induction l; constructor; auto. Qed.

Lemma simComment_refl n c : simComment n c c.
Proof. split; [done|]. apply Forall2_refl, simSub_refl. Qed.

Lemma simComments_refl n l : Forall2 (simComment n) l l.
Proof. apply Forall2_refl, simComment_refl. Qed.

Lemma simSub_overlay n l1 l2 :
  Forall2 (simSub n) l1 l2 -> subOverlay <$> l1 = subOverlay <$> l2.
Proof.
  induction 1 as [|s1 s2 l1 l2 [H _] _ IH]; [done|].
  rewrite !fmap_cons. by f_equal.
Qed.

Lemma simComment_merged n c1 c2 : simComment n c1 c2 -> simMerged c1 c2.
Proof. intros [Htop Hsub]. split; [done|]. by rewrite (simSub_overlay _ _ _ Hsub). Qed.

Lemma simMerged_overlay c1 c2 : simMerged c1 c2 -> sameCommentOverlay c1 c2.
Proof. intros [Htop Hsub]. split; [|done]. unfold topView in Htop. congruence. Qed.

Lemma simPostMerged_overlay p1 p2 :
  simPostMerged p1 p2 -> samePostOverlay p1 p2.
Proof.
  intros [Hv Hc]. split; [unfold postView in Hv; congruence|].
  eapply Forall2_impl; [exact Hc|]. apply simMerged_overlay.
Qed.

(** The objection subcomments of two runs differ in their time, which no
    reference and no count can see. *)
Lemma objectionSubcomment_sim n now1 now2 a body class user :
  simSub n (objectionSubcomment now1 a body class user)
    (objectionSubcomment now2 a body class user).
Proof. by split. Qed.

Lemma objectionCase_sim n actor body class user idx comments w1 w2 :
  (n <= next_oid w1)%N -> (n <= next_oid w2)%N ->
  simResult (Forall2 (simComment n))
    (objectionCase actor body class user idx comments w1).1
    (objectionCase actor body class user idx comments w2).1.
Proof.
  intros H1 H2. destruct idx as [i|].
  2: { unfold objectionCase. destruct actor; simpl; apply simComments_refl. }
  destruct (comments !! i) as [c0|] eqn:Hc0.
  - rewrite !(objectionCase_run _ _ _ _ _ _ _ _ Hc0).
    destruct actor as [a|]; simpl; [|apply simComments_refl].
    apply Forall2_insert; [apply simComments_refl|].
    split; [done|]. simpl. apply Forall2_app.
    + apply Forall2_refl, simSub_refl.
    + constructor; [|constructor].
      apply objectionSubcomment_sim.
  - unfold objectionCase. destruct actor; simpl; [|apply simComments_refl].
    unfold bind, new_ObjectId, Date_now. simpl. by rewrite Hc0.
Qed.

Lemma switchCondition_sim n user ai humans hc idx comments w1 w2 :
  env w1 = env w2 ->
  (n <= next_oid w1)%N -> (n <= next_oid w2)%N ->
  simResult (Forall2 (simComment n))
    (switchCondition user ai humans hc idx comments w1).1
    (switchCondition user ai humans hc idx comments w2).1.
Proof.
  intros Henv H1 H2.
  assert (forall r : result (list Comment),
            simResult (Forall2 (simComment n)) r r) as Hrefl.
  { intros [l|msg]; simpl; [apply simComments_refl|done]. }
  unfold switchCondition.
  repeat (lazymatch goal with
          | |- context [if String.eqb ?c ?s then _ else _] =>
              destruct (String.eqb c s)
          end;
          [first
             [ apply simComments_refl
             | unfold bind, getenv, lift; rewrite Henv; by apply Hrefl
             | unfold bind, getenv; rewrite Henv; by apply objectionCase_sim ]|]).
  apply simComments_refl.
Qed.

Lemma simPost_refl n p : simPost n p p.
Proof. split; [done|]. apply simComments_refl. Qed.

Lemma ensured_same_db cond comments w1 w2 :
  same_db w1 w2 -> ensured cond comments w1 = ensured cond comments w2.
Proof.
  intros (_ & Ha & He & Hs & _). unfold ensured, theHarassmentText.
  by rewrite Ha, He, Hs.
Qed.

Lemma applyManipulation_sim n firstVideo user w1 w2 :
  same_db w1 w2 ->
  (n <= next_oid w1)%N -> (n <= next_oid w2)%N ->
  simResult (simPost n)
    (applyManipulationToFirstVideo firstVideo user w1).1
    (applyManipulationToFirstVideo firstVideo user w2).1.
Proof.
  intros Hdb H1 H2. rewrite !applyManipulation_run. cbv zeta.
  rewrite (ensured_same_db _ _ _ _ Hdb).
  destruct Hdb as (_ & Ha & He & _).
  unfold theAiBotActor, theHumanObjectionActors, theHarassmentText.
  rewrite Ha, He.
  destruct (ensured _ _ w2).1 as [i|]; simpl; [|apply simPost_refl].
  match goal with
  | |- context [switchCondition ?u ?a ?hs ?hc ?idx ?cs w1] =>
      pose proof (switchCondition_sim n u a hs hc idx cs w1 w2 He H1 H2) as Hsw
  end.
  destruct (switchCondition _ _ _ _ _ _ w1) as [[cs1|m1] w1'],
           (switchCondition _ _ _ _ _ _ w2) as [[cs2|m2] w2'];
    simpl in *; try done.
Qed.

Lemma applyExperimentalManipulations_sim n script_feed user w1 w2 :
  same_db w1 w2 ->
  (n <= next_oid w1)%N -> (n <= next_oid w2)%N ->
  simResult (Forall2 (simPost n))
    (applyExperimentalManipulations script_feed user w1).1
    (applyExperimentalManipulations script_feed user w2).1.
Proof.
  intros Hdb H1 H2. unfold applyExperimentalManipulations.
  destruct script_feed as [|v0 [|v1 [|v2 [|v3 rest]]]];
    try (simpl; apply Forall2_refl, simPost_refl).
  pose proof (applyManipulation_sim n v0 user w1 w2 Hdb H1 H2) as Hm.
  unfold bind.
  destruct (applyManipulationToFirstVideo v0 user w1) as [[p1|m1] w1'],
           (applyManipulationToFirstVideo v0 user w2) as [[p2|m2] w2'];
    simpl in *; try done.
  constructor; [done|]. apply Forall2_refl, simPost_refl.
Qed.

Lemma pin_if_simComment n (test : Comment -> bool) c1 c2 :
  (forall x y, topView x = topView y -> test x = test y) ->
  simComment n c1 c2 ->
  simComment n (if test c1 then setHarassmentCommentTime c1 else c1)
    (if test c2 then setHarassmentCommentTime c2 else c2).
Proof.
  intros Htest [Htop Hsub]. rewrite (Htest _ _ Htop).
  destruct (test c2); [|by split]. split; [|done].
  unfold topView, commentOverlay in *. simpl. congruence.
Qed.

Lemma pin_if_simMerged (test : Comment -> bool) c1 c2 :
  (forall x y, topView x = topView y -> test x = test y) ->
  simMerged c1 c2 ->
  simMerged (if test c1 then setHarassmentCommentTime c1 else c1)
    (if test c2 then setHarassmentCommentTime c2 else c2).
Proof.
  intros Htest [Htop Hsub]. rewrite (Htest _ _ Htop).
  destruct (test c2); [|by split]. split; [|done].
  unfold topView, commentOverlay in *. simpl. congruence.
Qed.

Lemma isHarassmentOrRemoval_topView x y :
  topView x = topView y -> isHarassmentOrRemoval x = isHarassmentOrRemoval y.
Proof.
  unfold topView, isHarassmentOrRemoval. intros [= _ _ _ -> -> _ _]. done.
Qed.

Lemma repinPass_sim n feed1 feed2 :
  Forall2 (simPost n) feed1 feed2 ->
  Forall2 (simPost n) (repinPass feed1) (repinPass feed2).
Proof.
  intros H. apply Forall2_fmap. eapply Forall2_impl; [exact H|].
  intros p1 p2 [Hv Hc]. split; [done|]. simpl. apply Forall2_fmap.
  eapply Forall2_impl; [exact Hc|]. intros c1 c2.
  apply (pin_if_simComment n isHarassmentOrRemoval).
  apply isHarassmentOrRemoval_topView.
Qed.

Lemma applyDeltaSubcomment_sim n co s1 s2 :
  simSub n s1 s2 ->
  simSub n (applyDeltaSubcomment co s1) (applyDeltaSubcomment co s2).
Proof.
  intros [Ho Hid]. unfold applyDeltaSubcomment.
  destruct (ac_liked co), (ac_unliked co), (ac_flagged co);
    (split; [unfold subOverlay in *; simpl; congruence|exact Hid]).
Qed.

Lemma applyDeltaComment_sim n co c1 c2 :
  simComment n c1 c2 ->
  simComment n (applyDeltaComment co c1) (applyDeltaComment co c2).
Proof.
  intros [Htop Hsub]. unfold applyDeltaComment.
  destruct (ac_liked co), (ac_unliked co), (ac_flagged co);
    (split; [unfold topView, commentOverlay in *; simpl; congruence
            |exact Hsub]).
Qed.

Lemma applyDeltaInSubcomments_sim n co c1 c2 :
  oldRef n (ac_comment co) ->
  simComment n c1 c2 ->
  simComment n (applyDeltaInSubcomments co c1) (applyDeltaInSubcomments co c2).
Proof.
  intros Href [Htop Hsub]. unfold applyDeltaInSubcomments.
  rewrite (findIndex_ext
             (fun o => id_matches (s_id o) (ac_comment co))
             (fun o => id_matches (s_id o) (ac_comment co))
             (c_subcomments c1) (c_subcomments c2)).
  2: { eapply Forall2_impl; [exact Hsub|]. intros s1 s2 [_ Hid]. by apply Hid. }
  destruct (findIndex _ (c_subcomments c2)) as [j|]; [|by split].
  split; [exact Htop|]. simpl. apply Forall2_alter; [done|].
  intros s1 s2 _ _. apply applyDeltaSubcomment_sim.
Qed.

Lemma simComment_id n c1 c2 : simComment n c1 c2 -> c_id c1 = c_id c2.
Proof. intros [Htop _]. unfold topView in Htop. congruence. Qed.

Lemma processCommentObject_sim n co comments1 comments2
    (d : list (N * list Subcomment)) :
  oldRef n (ac_comment co) ->
  Forall2 (simComment n) comments1 comments2 ->
  Forall2 (simComment n) (processCommentObject (comments1, d) co).1
    (processCommentObject (comments2, d) co).1
  /\ (processCommentObject (comments1, d) co).2
     = (processCommentObject (comments2, d) co).2.
Proof.
  intros Href H. unfold processCommentObject.
  destruct (ac_new_comment co).
  - destruct (ac_reply_to co); simpl; [done|]. split; [|done].
    apply Forall2_app; [done|].
    constructor; [apply simComment_refl|constructor].
  - rewrite (findIndex_ext
               (fun o => id_matches (c_id o) (ac_comment co))
               (fun o => id_matches (c_id o) (ac_comment co))
               comments1 comments2).
    2: { eapply Forall2_impl; [exact H|]. intros c1 c2 Hc.
         by rewrite (simComment_id _ _ _ Hc). }
    destruct (findIndex _ comments2) as [i|]; simpl; (split; [|done]).
    + apply Forall2_alter; [done|]. intros c1 c2 _ _.
      apply applyDeltaComment_sim.
    + apply Forall2_fmap. eapply Forall2_impl; [exact H|].
      intros c1 c2. by apply applyDeltaInSubcomments_sim.
Qed.

Lemma fold_processCommentObject_sim n entries comments1 comments2
    (d : list (N * list Subcomment)) :
  Forall (fun co => oldRef n (ac_comment co)) entries ->
  Forall2 (simComment n) comments1 comments2 ->
  Forall2 (simComment n)
    (fold_left processCommentObject entries (comments1, d)).1
    (fold_left processCommentObject entries (comments2, d)).1
  /\ (fold_left processCommentObject entries (comments1, d)).2
     = (fold_left processCommentObject entries (comments2, d)).2.
Proof.
  intros Hrefs. revert comments1 comments2 d.
  induction Hrefs as [|co entries Hco _ IH]; intros comments1 comments2 d H;
    [done|].
  cbn [fold_left].
  destruct (processCommentObject_sim n co _ _ d Hco H) as [Hc Hd].
  destruct (processCommentObject (comments1, d) co) as [cs1 d1],
           (processCommentObject (comments2, d) co) as [cs2 d2].
  simpl in *. subst d2. by apply IH.
Qed.

Lemma simMerged_commentID c1 c2 :
  simMerged c1 c2 -> c_commentID c1 = c_commentID c2.
Proof. intros [Htop _]. unfold topView in Htop. congruence. Qed.

Lemma mergeReplies_sim dict comments1 comments2 :
  Forall2 simMerged comments1 comments2 ->
  simResult (Forall2 simMerged) (mergeReplies dict comments1)
    (mergeReplies dict comments2).
Proof.
  revert comments1 comments2.
  induction dict as [|[k v] rest IH]; intros comments1 comments2 H; simpl;
    [done|].
  rewrite (findIndex_ext
             (fun o => (c_commentID o =? k)%N) (fun o => (c_commentID o =? k)%N)
             comments1 comments2).
  2: { eapply Forall2_impl; [exact H|]. intros c1 c2 Hc.
       by rewrite (simMerged_commentID _ _ Hc). }
  destruct (findIndex _ comments2) as [i|]; simpl; [|done].
  apply IH. apply Forall2_alter; [done|]. intros c1 c2 _ _ [Htop Hsub].
  split; [exact Htop|]. simpl.
  by rewrite !sort_by_perm, !fmap_app, Hsub.
Qed.

Lemma find_In_Some {A} (p : A -> bool) l x :
  List.find p l = Some x -> In x l.
Proof. intros H. by apply find_some in H as [H _]. Qed.

Lemma replayPost_sim n user p1 p2 :
  logRefsBelow user n ->
  simPost n p1 p2 ->
  simResult simPostMerged (replayPost user p1) (replayPost user p2).
Proof.
  intros Hlog [Hv Hc].
  assert (v_id p1 = v_id p2) as Hid
    by (unfold postView, postOverlay in Hv; congruence).
  destruct (logEntry user p2) as [fa|] eqn:Hfa.
  - assert (logEntry user p1 = Some fa) as Hfa1
      by (unfold logEntry in *; by rewrite Hid).
    rewrite (replayPost_run _ _ _ Hfa), (replayPost_run _ _ _ Hfa1).
    assert (Forall (fun co => oldRef n (ac_comment co)) (fa_comments fa))
      as Hrefs.
    { unfold logRefsBelow in Hlog. rewrite Forall_forall in Hlog.
      apply Hlog, list_elem_of_In. by eapply find_In_Some. }
    destruct (fold_processCommentObject_sim n _ _ _ [] Hrefs Hc) as [Hcs Hd].
    unfold bufferedReplies, commentsBeforeMerge. rewrite Hd.
    match goal with
    | |- simResult _ (rbind (mergeReplies ?d ?a) _) (rbind (mergeReplies ?d ?b) _) =>
        pose proof (mergeReplies_sim d a b) as Hm
    end.
    destruct (mergeReplies _ _) as [cs1|m1],
             (mergeReplies _ (sort_by by_time_desc _)) as [cs2|m2];
      simpl in *;
      try (apply Hm; apply Forall2_impl with (simComment n);
           [|apply simComment_merged];
           apply sort_by_Forall2; [|done];
           intros x x' y y' [Hx _] [Hy _];
           unfold by_time_desc, topView in *; congruence).
    split.
    + unfold postView, postOverlay, applyPostOverlay in *.
      destruct (fa_liked fa), (fa_unliked fa), (fa_flagged fa); simpl;
        congruence.
    + rewrite !applyPostOverlay_comments. simpl.
      apply Hm. apply Forall2_impl with (simComment n);
        [|apply simComment_merged].
      apply sort_by_Forall2; [|done].
      intros x x' y y' [Hx _] [Hy _].
      unfold by_time_desc, topView in *. congruence.
  - assert (logEntry user p1 = None) as Hfa1
      by (unfold logEntry in *; by rewrite Hid).
    unfold logEntry in *. unfold replayPost. rewrite Hfa, Hfa1. simpl.
    split; [done|]. simpl.
    apply Forall2_impl with (simComment n); [|apply simComment_merged].
    apply sort_by_Forall2; [|done].
    intros x x' y y' [Hx _] [Hy _].
    unfold by_time_desc, topView in *. congruence.
Qed.

Lemma replayAll_sim n user feed1 feed2 :
  logRefsBelow user n ->
  Forall2 (simPost n) feed1 feed2 ->
  simResult (Forall2 simPostMerged) (replayAll user feed1)
    (replayAll user feed2).
Proof.
  intros Hlog. induction 1 as [|p1 p2 feed1 feed2 Hp _ IH]; simpl; [constructor|].
  pose proof (replayPost_sim n user p1 p2 Hlog Hp) as Hr.
  destruct (replayPost user p1) as [q1|m1], (replayPost user p2) as [q2|m2];
    simpl in *; try done.
  destruct (replayAll user feed1) as [r1|e1], (replayAll user feed2) as [r2|e2];
    simpl in *; try done.
  by constructor.
Qed.

Lemma find_sim {A} (R : A -> A -> Prop) (p q : A -> bool) l1 l2 :
  (forall x y, R x y -> p x = q y) ->
  Forall2 R l1 l2 ->
  match List.find p l1, List.find q l2 with
  | Some x, Some y => R x y
  | None, None => True
  | _, _ => False
  end.
Proof.
  intros Hpq. induction 1 as [|x y l1 l2 Hxy _ IH]; simpl; [done|].
  rewrite (Hpq x y Hxy). by destruct (q y).
Qed.

Lemma toObject_comment_sim b c1 c2 :
  simMerged c1 c2 -> simMerged (toObject_comment b c1) (toObject_comment b c2).
Proof.
  intros [Htop Hsub]. unfold toObject_comment. destruct b; [by split|].
  split; [|done]. unfold topView, commentOverlay in *. simpl. congruence.
Qed.

Lemma sameComment_sim c1 c2 x1 x2 :
  topView c1 = topView c2 -> topView x1 = topView x2 ->
  sameComment c1 x1 = sameComment c2 x2.
Proof.
  unfold topView, sameComment. intros [= Hi Hc _ _ _ _ _] [= Hi' Hc' _ _ _ _ _].
  by rewrite Hi, Hc, Hi', Hc'.
Qed.

Lemma restoreAllowInteractions_sim original1 original2 c1 c2 :
  Forall2 simMerged original1 original2 ->
  simMerged c1 c2 ->
  simMerged (restoreAllowInteractions original1 c1)
    (restoreAllowInteractions original2 c2).
Proof.
  intros Horig [Htop Hsub]. unfold restoreAllowInteractions.
  pose proof (find_sim simMerged (sameComment c1) (sameComment c2)
                original1 original2) as Hfind.
  destruct (List.find (sameComment c1) original1) as [x1|],
           (List.find (sameComment c2) original2) as [x2|];
    try (by split);
    try (exfalso; apply Hfind; [|done]; intros x y [Hxy _];
         by apply sameComment_sim).
  assert (simMerged x1 x2) as [Hx _].
  { apply Hfind; [|done]. intros x y [Hxy _]. by apply sameComment_sim. }
  assert (c_allowInteractions x1 = c_allowInteractions x2) as ->
    by (unfold topView in Hx; congruence).
  destruct (c_allowInteractions x2); [|by split].
  split; [|done]. unfold topView, commentOverlay in *. simpl. congruence.
Qed.

Lemma serializePost_sim a b p1 p2 :
  simPostMerged p1 p2 ->
  simPostMerged (serializePost a b p1) (serializePost a b p2).
Proof.
  intros [Hv Hc]. unfold serializePost. split.
  - unfold postView, postOverlay in *. destruct b; simpl; congruence.
  - simpl. apply Forall2_fmap. apply Forall2_fmap.
    eapply Forall2_impl; [exact Hc|]. intros c1 c2 Hc12.
    apply restoreAllowInteractions_sim; [done|].
    by apply toObject_comment_sim.
Qed.

Lemma finalPinPass_sim feed1 feed2 :
  Forall2 simPostMerged feed1 feed2 ->
  Forall2 simPostMerged (finalPinPass feed1) (finalPinPass feed2).
Proof.
  intros H. apply Forall2_fmap. eapply Forall2_impl; [exact H|].
  intros p1 p2 [Hv Hc]. split; [done|]. simpl. apply Forall2_fmap.
  eapply Forall2_impl; [exact Hc|]. intros c1 c2.
  apply (pin_if_simMerged
           (fun c => String.eqb (c_class c) "offense1"
                     && includes (c_body c) HARASSMENT_MARKER)).
  unfold topView. by intros x y [= _ _ _ -> -> _ _].
Qed.

Lemma scriptFeed_same_db user w1 w2 :
  same_db w1 w2 -> scriptFeed user w1 = scriptFeed user w2.
Proof. intros (Hs & _). unfold scriptFeed. by rewrite Hs. Qed.

(** Two runs of [getFeed] for the same user in worlds with the same
    collections, environment and schema, whatever their clocks and
    generators, end alike: with the same error, or with feeds that have
    the same counts and flags. *)
Lemma getFeed_sim n user w1 w2 :
  same_db w1 w2 ->
  (n <= next_oid w1)%N -> (n <= next_oid w2)%N ->
  logRefsBelow user n ->
  simResult (Forall2 samePostOverlay) (getFeed user w1).1 (getFeed user w2).1.
Proof.
  intros Hdb H1 H2 Hlog. rewrite !getFeed_run.
  rewrite (scriptFeed_same_db user w1 w2 Hdb).
  pose proof (applyExperimentalManipulations_sim n (scriptFeed user w2) user
                w1 w2 Hdb H1 H2) as Hm.
  pose proof (read_only_applyExperimentalManipulations (scriptFeed user w2)
                user w1) as (Hdb1 & _).
  pose proof (read_only_applyExperimentalManipulations (scriptFeed user w2)
                user w2) as (Hdb2 & _).
  destruct (applyExperimentalManipulations _ user w1) as [[feed1|m1] w1'],
           (applyExperimentalManipulations _ user w2) as [[feed2|m2] w2'];
    simpl in *; try done.
  pose proof (replayAll_sim n user _ _ Hlog (repinPass_sim n _ _ Hm)) as Hr.
  destruct (replayAll user (repinPass feed1)) as [ff1|e1],
           (replayAll user (repinPass feed2)) as [ff2|e2];
    simpl in *; try done.
  assert (same_db w1' w2') as (_ & _ & _ & Ha & Hb).
  { eapply same_db_trans; [apply same_db_sym, Hdb1|].
    eapply same_db_trans; [exact Hdb|exact Hdb2]. }
  rewrite Ha, Hb.
  eapply Forall2_impl; [|apply simPostMerged_overlay].
  apply finalPinPass_sim, Forall2_fmap.
  eapply Forall2_impl; [|apply serializePost_sim].
  apply sort_by_Forall2; [|done].
  intros x x' y y' [Hx _] [Hy _].
  unfold by_postID, postView in *. congruence.
Qed.

(** ** The counts of a returned feed come from the script and the log *)

Lemma Forall2_compose {A B C} (R : A -> B -> Prop) (S : B -> C -> Prop)
    (T : A -> C -> Prop) l1 l2 l3 :
  (forall x y z, R x y -> S y z -> T x z) ->
  Forall2 R l1 l2 -> Forall2 S l2 l3 -> Forall2 T l1 l3.
Proof.
  intros H H12. revert l3. induction H12 as [|x y l1 l2 Hxy _ IH]; intros l3 H23.
  - inversion H23. constructor.
  - inversion H23; subst. constructor; [by eapply H|by apply IH].
Qed.

Lemma sameCounts_refl p : sameCounts p p.
Proof. by repeat split. Qed.

Lemma sameCounts_set_v_comments comments p :
  sameCounts p (set_v_comments comments p).
Proof. by repeat split. Qed.

Lemma sameCounts_then_log user p1 p2 p3 :
  sameCounts p1 p2 -> countsFromLog user p2 p3 -> countsFromLog user p1 p3.
Proof.
  intros (Hi & Hp & Hl & Hu) (Hi' & Hp' & Hl' & Hu').
  unfold countsFromLog, likeDelta, unlikeDelta, logEntry in *.
  rewrite Hi in *. repeat split; congruence.
Qed.

Lemma log_then_sameCounts user p1 p2 p3 :
  countsFromLog user p1 p2 -> sameCounts p2 p3 -> countsFromLog user p1 p3.
Proof.
  intros (Hi & Hp & Hl & Hu) (Hi' & Hp' & Hl' & Hu').
  repeat split; congruence.
Qed.

Lemma applyManipulation_sameCounts firstVideo user w v' w' :
  applyManipulationToFirstVideo firstVideo user w = (Ok v', w') ->
  sameCounts firstVideo v'.
Proof.
  rewrite applyManipulation_run. cbv zeta.
  destruct (ensured _ _ w).1.
  - destruct (switchCondition _ _ _ _ _ _ w) as [[cs|msg] w1]; [|done].
    intros Heq. apply pair_equal_spec in Heq as [[= <-] _].
    apply sameCounts_set_v_comments.
  - intros Heq. apply pair_equal_spec in Heq as [[= <-] _].
    apply sameCounts_set_v_comments.
Qed.

Lemma applyExperimentalManipulations_sameCounts script_feed user w feed1 w' :
  applyExperimentalManipulations script_feed user w = (Ok feed1, w') ->
  Forall2 sameCounts script_feed feed1.
Proof.
  unfold applyExperimentalManipulations.
  destruct script_feed as [|v0 [|v1 [|v2 [|v3 rest]]]];
    try (intros Heq; apply pair_equal_spec in Heq as [[= <-] _];
         apply Forall2_refl, sameCounts_refl).
  unfold bind.
  destruct (applyManipulationToFirstVideo v0 user w) as [[v0'|msg] w1] eqn:Hm;
    [|done].
  intros Heq. apply pair_equal_spec in Heq as [[= <-] _].
  constructor; [by eapply applyManipulation_sameCounts|].
  apply Forall2_refl, sameCounts_refl.
Qed.

Lemma replayPost_counts user post post' :
  replayPost user post = Ok post' -> countsFromLog user post post'.
Proof.
  unfold countsFromLog, likeDelta, unlikeDelta.
  destruct (logEntry user post) as [fa|] eqn:Hfa.
  - rewrite (replayPost_run _ _ _ Hfa).
    destruct (mergeReplies _ _) as [comments'|]; simpl; [|done].
    intros [= <-]. unfold applyPostOverlay.
    destruct (fa_liked fa), (fa_unliked fa), (fa_flagged fa); simpl;
      repeat split; lia.
  - unfold replayPost. unfold logEntry in Hfa. rewrite Hfa. intros [= <-].
    simpl. repeat split; lia.
Qed.

Lemma replayAll_counts user feed feed' :
  replayAll user feed = Ok feed' -> Forall2 (countsFromLog user) feed feed'.
Proof.
  revert feed'. induction feed as [|post rest IH]; intros feed'; simpl.
  - intros [= <-]. constructor.
  - destruct (replayPost user post) as [post'|] eqn:Hpost; simpl; [|done].
    destruct (replayAll user rest) as [rest'|]; simpl; [|done].
    intros [= <-]. constructor; [by apply replayPost_counts|by apply IH].
Qed.

Lemma fmap_sameCounts (g : Video -> Video) feed :
  (forall p, sameCounts p (g p)) -> Forall2 sameCounts feed (g <$> feed).
Proof.
  intros Hg. apply Forall2_fmap_r, Forall_Forall2_diag, Forall_forall.
  intros p _. apply Hg.
Qed.

Lemma serializePost_sameCounts a b p : sameCounts p (serializePost a b p).
Proof. unfold serializePost. by destruct b. Qed.

Lemma countsFromLog_postIDs user l1 l2 :
  Forall2 (countsFromLog user) l1 l2 -> v_postID <$> l2 = v_postID <$> l1.
Proof.
  induction 1 as [|x y l1 l2 (_ & Hp & _) _ IH]; [done|].
  rewrite !fmap_cons. by f_equal.
Qed.

(** Whenever [getFeed] returns, its feed lists the posts of the script in
    their order, each with the likes and unlikes of the script plus what
    the user's log adds: one for a liked entry, one for an unliked entry. *)
Lemma getFeed_counts user w feed w' :
  getFeed user w = (Ok feed, w') ->
  Forall2 (countsFromLog user) (scriptFeed user w) feed.
Proof.
  rewrite getFeed_run.
  destruct (applyExperimentalManipulations _ user w) as [[feed1|msg] w1] eqn:Hm;
    [|done].
  destruct (replayAll user (repinPass feed1)) as [finalfeed|] eqn:Hreplay;
    [|done].
  intros Heq. apply pair_equal_spec in Heq as [[= <-] _].
  apply applyExperimentalManipulations_sameCounts in Hm.
  apply replayAll_counts in Hreplay.
  assert (Forall2 (countsFromLog user) (scriptFeed user w) finalfeed) as Hlog.
  { eapply Forall2_compose; [apply sameCounts_then_log|exact Hm|].
    eapply Forall2_compose; [apply sameCounts_then_log| |exact Hreplay].
    apply fmap_sameCounts. intros p. apply sameCounts_set_v_comments. }
  assert (sort_by by_postID finalfeed = finalfeed) as ->.
  { apply sort_by_of_sorted, sorted_by_postID.
    rewrite (countsFromLog_postIDs _ _ _ Hlog).
    apply sorted_by_postID, scriptFeed_sorted. }
  eapply Forall2_compose; [apply log_then_sameCounts|exact Hlog|].
  eapply Forall2_compose with (R := sameCounts) (S := sameCounts).
  - intros x y z (?&?&?&?) (?&?&?&?). repeat split; congruence.
  - apply fmap_sameCounts. intros p. apply serializePost_sameCounts.
  - apply fmap_sameCounts. intros p. apply sameCounts_set_v_comments.
Qed.

(** C8: invoking [getFeed] twice for the same user, the second time at any
    clock reading in the world the first run left, ends alike both times:
    the same error, or feeds with identical like and unlike counts and
    flags on every post, every comment and, up to their order, every
    subcomment.  Each returned feed has the likes and unlikes of the
    script plus what the log adds once, however many runs came before.
    The log is the one written before the first run: its comment
    references are to ObjectIds handed out earlier. *)
Theorem getFeed_twice_same_counts (user : User) (w : World) (later : Z) :
  logRefsBelow user (next_oid w) ->
  let run1 := getFeed user w in
  let run2 := getFeed user (set_clock later run1.2) in
  simResult (Forall2 samePostOverlay) run1.1 run2.1
  /\ (forall feed, run1.1 = Ok feed ->
        Forall2 (countsFromLog user) (scriptFeed user w) feed)
  /\ (forall feed, run2.1 = Ok feed ->
        Forall2 (countsFromLog user) (scriptFeed user w) feed).
Proof.
  intros Hlog run1 run2.
  destruct (read_only_getFeed user w) as (Hdb & _ & Hn).
  assert (same_db w (set_clock later run1.2)) as Hdb2.
  { eapply same_db_trans; [exact Hdb|]. by repeat split. }
  split; [|split].
  - apply (getFeed_sim (next_oid w)); [exact Hdb2|lia|exact Hn|exact Hlog].
  - intros feed Hfeed. apply (getFeed_counts user w feed run1.2).
    subst run1. destruct (getFeed user w) as [r w1]. simpl in *. by subst.
  - intros feed Hfeed. rewrite (scriptFeed_same_db user _ _ Hdb2).
    apply (getFeed_counts user _ feed run2.2).
    subst run2. destruct (getFeed user (set_clock later run1.2)) as [r w2].
    simpl in *. by subst.
Qed.

Lemma getFeed_twice_same_counts_witness :
  let log := [Sample.likeAndCommentsOn 11
                [Sample.replyTo 13; Sample.likeComment 102]] in
  let user := Sample.user "Obj:AI:Ref" log in
  let first := [Sample.ordinary; Sample.harassment] in
  let w := Sample.world first [Sample.troll; Sample.bot] 11800100 in
  let later := 11801000 in
  logRefsBelow user (next_oid w)
  /\ let run1 := getFeed user w in
     let run2 := getFeed user (set_clock later run1.2) in
     simResult (Forall2 samePostOverlay) run1.1 run2.1
     /\ (forall feed, run1.1 = Ok feed ->
           Forall2 (countsFromLog user) (scriptFeed user w) feed)
     /\ (forall feed, run2.1 = Ok feed ->
           Forall2 (countsFromLog user) (scriptFeed user w) feed).
Proof.
  intros log user first w later.
  assert (logRefsBelow user (next_oid w)) as H1.
  { repeat constructor. }
  split; [assumption|].
  exact (getFeed_twice_same_counts user w later H1).
Defined.

(** * Further properties of the condition manipulator *)

Lemma switch_removal_class user ai humans hc idx comments w :
  In (condition user) removalConditions ->
  exists body,
    switchCondition user ai humans hc idx comments w
    = (removalCase body (removalClass (condition user)) idx comments, w).
Proof.
  intros H. unfold switchCondition, removalClass.
  destruct H as [<-|[<-|[<-|[<-|[]]]]]; simpl; eexists; reflexivity.
Qed.

Lemma applyManipulation_located_run firstVideo user w i h :
  locateHarassment (v_comments firstVideo) = Some i ->
  v_comments firstVideo !! i = Some h ->
  applyManipulationToFirstVideo firstVideo user w =
  match switchCondition user (theAiBotActor w) (theHumanObjectionActors w)
          (theHarassmentText w) (Some i)
          (<[i := markFound (condition user) h]> (v_comments firstVideo)) w with
  | (Ok comments, w') => (Ok (set_v_comments comments firstVideo), w')
  | (TypeError msg, w') => (TypeError msg, w')
  end.
Proof.
  intros Hloc Hh. rewrite applyManipulation_run. cbv zeta.
  unfold ensured. rewrite Hloc. simpl.
  by rewrite (alter_insert_lookup _ _ _ _ Hh).
Qed.

Lemma insert_insert_same {A} (l : list A) i x y :
  <[i := y]> (<[i := x]> l) = <[i := y]> l.
Proof.
  revert i. induction l as [|z l IH]; intros [|i]; simpl; try done.
  f_equal. apply IH.
Qed.

(** X1: under [Control], a first video whose harassment comment is found
    comes back, without an error and without a change to the world, with
    that comment shown as written: the harassment text as body, class
    [offense1], not removed, no likes, no unlikes, no subcomments,
    interactions allowed, the pinned time, and the actor, [id] and
    [commentID] it had.  No other comment changes. *)
Theorem control_shows_the_harassment_as_written
    (user : User) (firstVideo : Video) (w : World) (i : nat) (h : Comment) :
  condition user = "Control" ->
  locateHarassment (v_comments firstVideo) = Some i ->
  v_comments firstVideo !! i = Some h ->
  exists c,
    applyManipulationToFirstVideo firstVideo user w
    = (Ok (set_v_comments (<[i := c]> (v_comments firstVideo)) firstVideo), w)
    /\ c_body c = theHarassmentText w
    /\ c_class c = "offense1"
    /\ c_removed c = false
    /\ c_likes c = 0 /\ c_unlikes c = 0
    /\ c_subcomments c = []
    /\ c_allowInteractions c = Some true
    /\ c_time c = HARASSMENT_TIME_OFFSET
    /\ c_actor c = c_actor h
    /\ c_id c = c_id h /\ c_commentID c = c_commentID h.
Proof.
  intros Hctl Hloc Hh.
  rewrite (applyManipulation_located_run _ _ _ _ _ Hloc Hh).
  rewrite switch_control by done. unfold controlCase.
  assert (i < length (v_comments firstVideo))%nat as Hi
    by (by eapply lookup_lt_Some).
  rewrite (alter_insert_lookup _ _ i (markFound (condition user) h))
    by (by apply list_lookup_insert_eq).
  rewrite insert_insert_same.
  eexists. split; [reflexivity|]. by repeat split.
Qed.

Lemma control_shows_the_harassment_as_written_witness :
  let user := Sample.user "Control" [] in
  let firstVideo := Sample.video 11 1 [Sample.ordinary; Sample.harassment] in
  let w := Sample.world [Sample.ordinary; Sample.harassment] [] 0 in
  let h := Sample.harassment in
  condition user = "Control"
  /\ locateHarassment (v_comments firstVideo) = Some 1%nat
  /\ v_comments firstVideo !! 1%nat = Some h
  /\ exists c,
       applyManipulationToFirstVideo firstVideo user w
       = (Ok (set_v_comments (<[1%nat := c]> (v_comments firstVideo))
                firstVideo), w)
       /\ c_body c = theHarassmentText w
       /\ c_class c = "offense1"
       /\ c_removed c = false
       /\ c_likes c = 0 /\ c_unlikes c = 0
       /\ c_subcomments c = []
       /\ c_allowInteractions c = Some true
       /\ c_time c = HARASSMENT_TIME_OFFSET
       /\ c_actor c = c_actor h
       /\ c_id c = c_id h /\ c_commentID c = c_commentID h.
Proof.
  intros user firstVideo w h.
  assert (condition user = "Control") as H1 by reflexivity.
  assert (locateHarassment (v_comments firstVideo) = Some 1%nat) as H2
    by reflexivity.
  assert (v_comments firstVideo !! 1%nat = Some h) as H3 by reflexivity.
  repeat (split; [assumption|]).
  exact (control_shows_the_harassment_as_written user firstVideo w 1%nat h
           H1 H2 H3).
Defined.

(** X2: under each removal condition, a first video whose harassment
    comment is found and has an actor comes back, without an error and
    without a change to the world, with that comment replaced by a removal
    notice: the class of the condition, which the re-pinning pass of
    [getFeed] recognises, marked removed, no likes, no unlikes, and as
    actor the [[deleted]] sentinel with the placeholder profile and the
    [_id] of the actor it replaces.  The [id] and [commentID] stay, and no
    other comment changes. *)
Theorem removal_replaces_the_harassment_comment
    (user : User) (firstVideo : Video) (w : World) (i : nat) (h : Comment)
    (a : Actor) :
  In (condition user) removalConditions ->
  locateHarassment (v_comments firstVideo) = Some i ->
  v_comments firstVideo !! i = Some h ->
  c_actor h = Some a ->
  exists c,
    applyManipulationToFirstVideo firstVideo user w
    = (Ok (set_v_comments (<[i := c]> (v_comments firstVideo)) firstVideo), w)
    /\ c_class c = removalClass (condition user)
    /\ isHarassmentOrRemoval c = true
    /\ c_removed c = true
    /\ c_likes c = 0 /\ c_unlikes c = 0
    /\ c_actor c = Some (deletedActor a)
    /\ c_id c = c_id h /\ c_commentID c = c_commentID h.
Proof.
  intros Hrem Hloc Hh Ha.
  rewrite (applyManipulation_located_run _ _ _ _ _ Hloc Hh).
  destruct (switch_removal_class user (theAiBotActor w)
              (theHumanObjectionActors w) (theHarassmentText w) (Some i)
              (<[i := markFound (condition user) h]> (v_comments firstVideo))
              w Hrem) as (body & ->).
  assert (i < length (v_comments firstVideo))%nat as Hi
    by (by eapply lookup_lt_Some).
  unfold removalCase. rewrite list_lookup_insert_eq by done. simpl.
  rewrite Ha. simpl. rewrite insert_insert_same.
  eexists. split; [reflexivity|]. simpl. repeat split.
  unfold isHarassmentOrRemoval, removalClass. simpl.
  destruct Hrem as [<-|[<-|[<-|[<-|[]]]]]; reflexivity.
Qed.

Lemma removal_replaces_the_harassment_comment_witness :
  let user := Sample.user "Rem:Com:NoRef" [] in
  let firstVideo := Sample.video 11 1 [Sample.ordinary; Sample.harassment] in
  let w := Sample.world [Sample.ordinary; Sample.harassment] [] 0 in
  let h := Sample.harassment in
  In (condition user) removalConditions
  /\ locateHarassment (v_comments firstVideo) = Some 1%nat
  /\ v_comments firstVideo !! 1%nat = Some h
  /\ c_actor h = Some Sample.troll
  /\ exists c,
       applyManipulationToFirstVideo firstVideo user w
       = (Ok (set_v_comments (<[1%nat := c]> (v_comments firstVideo))
                firstVideo), w)
       /\ c_class c = removalClass (condition user)
       /\ isHarassmentOrRemoval c = true
       /\ c_removed c = true
       /\ c_likes c = 0 /\ c_unlikes c = 0
       /\ c_actor c = Some (deletedActor Sample.troll)
       /\ c_id c = c_id h /\ c_commentID c = c_commentID h.
Proof.
  intros user firstVideo w h.
  assert (In (condition user) removalConditions) as H1 by (simpl; auto).
  assert (locateHarassment (v_comments firstVideo) = Some 1%nat) as H2
    by reflexivity.
  assert (v_comments firstVideo !! 1%nat = Some h) as H3 by reflexivity.
  assert (c_actor h = Some Sample.troll) as H4 by reflexivity.
  repeat (split; [assumption|]).
  exact (removal_replaces_the_harassment_comment user firstVideo w 1%nat h
           Sample.troll H1 H2 H3 H4).
Defined.

(** X3: under each objection condition, a first video whose harassment
    comment is found always comes back, and that comment keeps its body,
    its actor, its removed flag, its [id] and its [commentID]; it has class
    [offense1], no likes, no unlikes, interactions allowed and the pinned
    time.  When the actor of the condition exists, one subcomment follows
    the former ones: it carries the objection text and the class of the
    condition, that actor, [commentID] 96, the time three hours before
    the call relative to the account creation, no likes, no unlikes and
    no flag.  Its [id] is the [_id] generated at the push: the ObjectId
    that the branch draws for it is lost in the cast, and drawing it is
    all that changes in the world.  No other comment changes. *)
Theorem objection_keeps_the_harassment_comment
    (user : User) (firstVideo : Video) (w : World) (i : nat) (h : Comment) :
  In (condition user) objectionConditions ->
  locateHarassment (v_comments firstVideo) = Some i ->
  v_comments firstVideo !! i = Some h ->
  exists c w',
    applyManipulationToFirstVideo firstVideo user w
    = (Ok (set_v_comments (<[i := c]> (v_comments firstVideo)) firstVideo), w')
    /\ c_body c = c_body h /\ c_actor c = c_actor h
    /\ c_removed c = c_removed h
    /\ c_id c = c_id h /\ c_commentID c = c_commentID h
    /\ c_class c = "offense1" /\ c_likes c = 0 /\ c_unlikes c = 0
    /\ c_allowInteractions c = Some true
    /\ c_time c = HARASSMENT_TIME_OFFSET
    /\ match objectionActor (condition user) w with
       | Some a =>
           exists obj,
             c_subcomments c = c_subcomments h ++ [obj]
             /\ s_body obj = objectionText (condition user) w
             /\ s_class obj = objectionClass (condition user)
             /\ s_actor obj = Some a
             /\ s_commentID obj = 96%N
             /\ s_time obj = (clock w - 3 * 60 * 60 * 1000) - createdAt user
             /\ s_id obj = generated
             /\ s_likes obj = 0 /\ s_unlikes obj = 0
             /\ s_liked obj = false /\ s_unliked obj = false
             /\ s_flagged obj = false /\ s_new_comment obj = false
             /\ w' = set_next_oid (N.succ (next_oid w)) w
       | None => c_subcomments c = c_subcomments h /\ w' = w
       end.
Proof.
  intros Hobj Hloc Hh.
  rewrite (applyManipulation_located_run _ _ _ _ _ Hloc Hh).
  destruct (objection_condition_facts _ Hobj) as (_ & _ & Hf).
  rewrite switch_objection_run by done.
  assert (i < length (v_comments firstVideo))%nat as Hi
    by (by eapply lookup_lt_Some).
  rewrite (objectionCase_run _ _ _ _ _ _ (markFound (condition user) h))
    by (by apply list_lookup_insert_eq).
  destruct (objectionActor (condition user) w) as [a|].
  - rewrite insert_insert_same. eexists _, _. split; [reflexivity|]. simpl.
    rewrite Hf. repeat (split; [done|]). eexists. split; [reflexivity|].
    by repeat split.
  - exists (markFound (condition user) h), w. split; [reflexivity|]. simpl.
    rewrite Hf. by repeat split.
Qed.

Lemma objection_keeps_the_harassment_comment_witness :
  let user := Sample.user "Obj:AI:Ref" [] in
  let firstVideo := Sample.video 11 1 [Sample.ordinary; Sample.harassment] in
  let w := Sample.world [Sample.ordinary; Sample.harassment]
             [Sample.troll; Sample.bot] 4600000 in
  let h := Sample.harassment in
  In (condition user) objectionConditions
  /\ locateHarassment (v_comments firstVideo) = Some 1%nat
  /\ v_comments firstVideo !! 1%nat = Some h
  /\ exists c w',
       applyManipulationToFirstVideo firstVideo user w
       = (Ok (set_v_comments (<[1%nat := c]> (v_comments firstVideo))
                firstVideo), w')
       /\ c_body c = c_body h /\ c_actor c = c_actor h
       /\ c_removed c = c_removed h
       /\ c_id c = c_id h /\ c_commentID c = c_commentID h
       /\ c_class c = "offense1" /\ c_likes c = 0 /\ c_unlikes c = 0
       /\ c_allowInteractions c = Some true
       /\ c_time c = HARASSMENT_TIME_OFFSET
       /\ match objectionActor (condition user) w with
          | Some a =>
              exists obj,
                c_subcomments c = c_subcomments h ++ [obj]
                /\ s_body obj = objectionText (condition user) w
                /\ s_class obj = objectionClass (condition user)
                /\ s_actor obj = Some a
                /\ s_commentID obj = 96%N
                /\ s_time obj
                   = (clock w - 3 * 60 * 60 * 1000) - createdAt user
                /\ s_id obj = generated
                /\ s_likes obj = 0 /\ s_unlikes obj = 0
                /\ s_liked obj = false /\ s_unliked obj = false
                /\ s_flagged obj = false /\ s_new_comment obj = false
                /\ w' = set_next_oid (N.succ (next_oid w)) w
          | None => c_subcomments c = c_subcomments h /\ w' = w
          end.
Proof.
  intros user firstVideo w h.
  assert (In (condition user) objectionConditions) as H1 by (simpl; auto).
  assert (locateHarassment (v_comments firstVideo) = Some 1%nat) as H2
    by reflexivity.
  assert (v_comments firstVideo !! 1%nat = Some h) as H3 by reflexivity.
  repeat (split; [assumption|]).
  exact (objection_keeps_the_harassment_comment user firstVideo w 1%nat h
           H1 H2 H3).
Defined.

(** X4: when the [switch] has nothing to do, because the condition is none
    of the nine tags or because it is an objection condition whose actor
    is missing, the manipulation returns without an error, draws no
    ObjectId, and has done no more than [ensureHarassment] does: mark the
    harassment comment it found, or append the one it created, as the
    subdocument the [push] makes of it, with an [_id] of its own and with
    [allowInteractions] only when the schema declares that path. *)
Theorem manipulation_only_marks
    (user : User) (firstVideo : Video) (w : World) :
  ~ In (condition user) conditions
  \/ (In (condition user) objectionConditions
      /\ objectionActor (condition user) w = None) ->
  applyManipulationToFirstVideo firstVideo user w
  = (Ok (set_v_comments
           (ensured (condition user) (v_comments firstVideo) w).2 firstVideo),
     w).
Proof.
  intros H. rewrite applyManipulation_run. cbv zeta.
  destruct (ensured (condition user) (v_comments firstVideo) w).1 as [i|];
    [|done].
  destruct H as [Hnot|[Hobj Hnone]].
  - by rewrite switch_default.
  - destruct (switch_objection user (Some i)
                (ensured (condition user) (v_comments firstVideo) w).2 w Hobj)
      as (body & class & ->).
    rewrite Hnone. reflexivity.
Qed.

Lemma manipulation_only_marks_witness :
  let user := Sample.user "Obj:Com:Ref" [] in
  let firstVideo := Sample.video 11 1 [Sample.ordinary; Sample.harassment] in
  let w := Sample.world [Sample.ordinary; Sample.harassment]
             [Sample.troll; Sample.bot] 4600000 in
  (~ In (condition user) conditions
   \/ (In (condition user) objectionConditions
       /\ objectionActor (condition user) w = None))
  /\ applyManipulationToFirstVideo firstVideo user w
     = (Ok (set_v_comments
              (ensured (condition user) (v_comments firstVideo) w).2
              firstVideo),
        w).
Proof.
  intros user firstVideo w.
  assert (~ In (condition user) conditions
          \/ (In (condition user) objectionConditions
              /\ objectionActor (condition user) w = None)) as H1.
  { right. split; [simpl; auto|reflexivity]. }
  split; [assumption|].
  exact (manipulation_only_marks user firstVideo w H1).
Defined.

(** X5: the manipulation throws in exactly one situation: a removal
    condition meets a harassment comment that was found and has no actor,
    so that [setDeletedActor] reads the [_id] of nothing.  In every other
    case it returns. *)
Theorem manipulation_throws_iff
    (user : User) (firstVideo : Video) (w : World) :
  (exists msg w',
      applyManipulationToFirstVideo firstVideo user w = (TypeError msg, w'))
  <-> In (condition user) removalConditions
      /\ exists i h,
           locateHarassment (v_comments firstVideo) = Some i
           /\ v_comments firstVideo !! i = Some h
           /\ c_actor h = None.
Proof.
  split.
  - intros (msg & w' & Hrun). rewrite applyManipulation_run in Hrun.
    cbv zeta in Hrun. rewrite ensured_index in Hrun.
    destruct (harassmentIndex (v_comments firstVideo) w) as [i|] eqn:Hidx;
      [|done].
    destruct (ensured_lookup (condition user) _ _ _ Hidx)
      as (c0 & Hc0 & _ & _ & _ & _ & Hsynth).
    destruct (in_dec string_dec (condition user) conditions) as [Hin|Hnot].
    2: { by rewrite switch_default in Hrun. }
    destruct Hin as [Hctl|Hin].
    { symmetry in Hctl. by rewrite switch_control in Hrun. }
    apply in_app_or in Hin as [Hrem|Hobj].
    + split; [done|].
      destruct (switch_removal user (theAiBotActor w)
                  (theHumanObjectionActors w) (theHarassmentText w) (Some i)
                  (ensured (condition user) (v_comments firstVideo) w).2 w Hrem)
        as (body & class & Hsw).
      rewrite Hsw in Hrun. unfold removalCase in Hrun. rewrite Hc0 in Hrun.
      simpl in Hrun.
      destruct (c_actor c0) as [a|] eqn:Hactor; [done|].
      destruct (locateHarassment (v_comments firstVideo)) as [j|] eqn:Hloc.
      * destruct (locateHarassment_lookup _ _ Hloc) as [h Hh].
        unfold harassmentIndex, ensured in Hidx. rewrite Hloc in Hidx.
        injection Hidx as ->. exists i, h. repeat (split; [done|]).
        unfold ensured in Hc0. rewrite Hloc in Hc0. simpl in Hc0.
        rewrite list_lookup_alter_eq, Hh in Hc0. injection Hc0 as <-.
        exact Hactor.
      * destruct (Hsynth eq_refl) as (_ & [a Ha] & _). congruence.
    + destruct (switch_objection user (Some i)
                  (ensured (condition user) (v_comments firstVideo) w).2 w Hobj)
        as (body & class & Hsw).
      rewrite Hsw in Hrun.
      destruct (objectionCase_lookup (objectionActor (condition user) w) body
                  class user _ _ _ w Hc0) as (cs' & w1 & c & Hoc & _).
      by rewrite Hoc in Hrun.
  - intros (Hrem & i & h & Hloc & Hh & Hactor).
    rewrite (applyManipulation_located_run _ _ _ _ _ Hloc Hh).
    destruct (switch_removal_class user (theAiBotActor w)
                (theHumanObjectionActors w) (theHarassmentText w) (Some i)
                (<[i := markFound (condition user) h]> (v_comments firstVideo))
                w Hrem) as (body & ->).
    unfold removalCase.
    rewrite list_lookup_insert_eq by (by eapply lookup_lt_Some).
    simpl. rewrite Hactor. simpl. by eauto.
Qed.

(** * Further properties of the replay *)

Lemma content_applyDeltaComment co c :
  content (applyDeltaComment co c) = content c.
Proof.
  unfold applyDeltaComment.
  by destruct (ac_liked co), (ac_unliked co), (ac_flagged co).
Qed.

Lemma content_applyDeltaInSubcomments co c :
  content (applyDeltaInSubcomments co c) = content c.
Proof. unfold applyDeltaInSubcomments. by case_match. Qed.

Lemma fold_processCommentObject_content entries comments
    (d : list (N * list Subcomment)) :
  content <$> (fold_left processCommentObject entries (comments, d)).1
  = content <$> (comments ++ newTopLevel entries).
Proof.
  revert comments d.
  induction entries as [|co entries IH]; intros comments d.
  - unfold newTopLevel. simpl. by rewrite app_nil_r.
  - cbn [fold_left]. unfold processCommentObject at 2. unfold newTopLevel.
    cbn [List.filter].
    destruct (ac_new_comment co); simpl.
    + destruct (ac_reply_to co); simpl.
      * apply IH.
      * rewrite IH. unfold newTopLevel. by rewrite <- app_assoc.
    + destruct (findIndex _ comments); rewrite IH, !fmap_app; f_equal.
      * apply fmap_alter_preserved, content_applyDeltaComment.
      * rewrite <- list_fmap_compose. apply list_fmap_ext.
        intros ? c _. apply content_applyDeltaInSubcomments.
Qed.

Lemma mergeReplies_content dict comments res :
  mergeReplies dict comments = Ok res ->
  content <$> res = content <$> comments.
Proof.
  revert comments. induction dict as [|[k v] rest IH]; intros comments; simpl.
  - by intros [= <-].
  - destruct (findIndex _ comments); [|done]. intros Hres.
    rewrite (IH _ Hres). by apply fmap_alter_preserved.
Qed.



(** * Further properties of the returned feed *)

Lemma pinnedIfHarassment_same c c' :
  c_class c' = c_class c -> c_body c' = c_body c -> c_time c' = c_time c ->
  pinnedIfHarassment c -> pinnedIfHarassment c'.
Proof.
  unfold pinnedIfHarassment, isHarassmentOrRemoval. intros -> -> ->. done.
Qed.

Lemma pinnedIfHarassment_content c c' :
  content c = content c' -> pinnedIfHarassment c -> pinnedIfHarassment c'.
Proof.
  unfold content. intros [= _ _ Hb _ Ht Hc _ _ _].
  by apply pinnedIfHarassment_same.
Qed.

Lemma pinnedIfHarassment_perm (l l' : list Comment) :
  content <$> l' ≡ₚ content <$> l ->
  Forall pinnedIfHarassment l -> Forall pinnedIfHarassment l'.
Proof.
  intros Hperm Hl.
  assert (Forall (fun x => forall c, content c = x -> pinnedIfHarassment c)
            (content <$> l)) as HQ.
  { apply Forall_fmap. eapply Forall_impl; [exact Hl|].
    intros c Hc c' Hcc'. simpl in Hcc'. by eapply pinnedIfHarassment_content. }
  rewrite <- Hperm in HQ. apply Forall_fmap in HQ.
  eapply Forall_impl; [exact HQ|]. intros c Hc. by apply Hc.
Qed.

Lemma newTopLevel_pinned entries :
  Forall pinnedIfHarassment (newTopLevel entries).
Proof.
  unfold newTopLevel. apply Forall_fmap, Forall_forall. intros co _.
  unfold pinnedIfHarassment. simpl. discriminate.
Qed.

Lemma replayPost_pinned user post post' :
  replayPost user post = Ok post' ->
  Forall pinnedIfHarassment (v_comments post) ->
  Forall pinnedIfHarassment (v_comments post').
Proof.
  intros Hrun Hpost. destruct (logEntry user post) as [fa|] eqn:Hfa.
  - rewrite (replayPost_run _ _ _ Hfa) in Hrun.
    destruct (mergeReplies _ _) as [comments'|] eqn:Hmerge; simpl in Hrun;
      [|done].
    injection Hrun as <-. rewrite applyPostOverlay_comments. simpl.
    apply (pinnedIfHarassment_perm
             (v_comments post ++ newTopLevel (fa_comments fa))).
    + rewrite (mergeReplies_content _ _ _ Hmerge). unfold commentsBeforeMerge.
      rewrite sort_by_perm. by rewrite fold_processCommentObject_content.
    + apply Forall_app. split; [done|apply newTopLevel_pinned].
  - unfold replayPost in Hrun. unfold logEntry in Hfa. rewrite Hfa in Hrun.
    injection Hrun as <-. simpl.
    apply (pinnedIfHarassment_perm (v_comments post)); [|done].
    by rewrite sort_by_perm.
Qed.

Lemma content_times (l l' : list Comment) :
  content <$> l = content <$> l' -> c_time <$> l = c_time <$> l'.
Proof.
  intros H.
  assert (forall k : list Comment,
            c_time <$> k = (fun x => x.1.1.1.1.2) <$> (content <$> k)) as Ht.
  { intros k. rewrite <- list_fmap_compose. by apply list_fmap_ext. }
  by rewrite !Ht, H.
Qed.

Lemma replayPost_sorted user post post' :
  replayPost user post = Ok post' ->
  StronglySorted (fun a b => c_time a >= c_time b) (v_comments post').
Proof.
  intros Hrun. destruct (logEntry user post) as [fa|] eqn:Hfa.
  - rewrite (replayPost_run _ _ _ Hfa) in Hrun.
    destruct (mergeReplies _ _) as [comments'|] eqn:Hmerge; simpl in Hrun;
      [|done].
    injection Hrun as <-. rewrite applyPostOverlay_comments. simpl.
    apply StronglySorted_by_time.
    rewrite (content_times _ _ (mergeReplies_content _ _ _ Hmerge)).
    apply StronglySorted_by_time, by_time_desc_sorted.
  - unfold replayPost in Hrun. unfold logEntry in Hfa. rewrite Hfa in Hrun.
    injection Hrun as <-. simpl. apply by_time_desc_sorted.
Qed.

Lemma replayAll_pinned_sorted user feed feed' :
  replayAll user feed = Ok feed' ->
  Forall (fun p => Forall pinnedIfHarassment (v_comments p)) feed ->
  Forall (fun p => Forall pinnedIfHarassment (v_comments p)
                   /\ StronglySorted (fun a b => c_time a >= c_time b)
                        (v_comments p)) feed'.
Proof.
  revert feed'. induction feed as [|post rest IH]; intros feed'; simpl.
  - intros [= <-] _. constructor.
  - destruct (replayPost user post) as [post'|] eqn:Hpost; simpl; [|done].
    destruct (replayAll user rest) as [rest'|]; simpl; [|done].
    intros [= <-] Hall. apply Forall_cons in Hall as [Hp Hrest].
    constructor; [|by apply IH]. split.
    + by eapply replayPost_pinned.
    + by eapply replayPost_sorted.
Qed.

Lemma repinPass_pinned feed :
  Forall (fun p => Forall pinnedIfHarassment (v_comments p)) (repinPass feed).
Proof.
  apply Forall_fmap, Forall_forall. intros p _. simpl.
  apply Forall_fmap, Forall_forall. intros c _. simpl.
  unfold pinnedIfHarassment.
  destruct (isHarassmentOrRemoval c) eqn:Hc; [done|]. congruence.
Qed.

Lemma serialized_comment_fields a original c :
  let c' := restoreAllowInteractions original (toObject_comment a c) in
  c_class c' = c_class c /\ c_body c' = c_body c /\ c_time c' = c_time c.
Proof.
  unfold restoreAllowInteractions, toObject_comment.
  destruct a; repeat case_match; by repeat split.
Qed.

Lemma final_pass_comment_fields c :
  pinnedIfHarassment c ->
  let c' := if String.eqb (c_class c) "offense1"
               && includes (c_body c) HARASSMENT_MARKER
            then setHarassmentCommentTime c else c in
  c_class c' = c_class c /\ c_body c' = c_body c /\ c_time c' = c_time c.
Proof.
  intros Hpin. cbv zeta.
  destruct (String.eqb (c_class c) "offense1"
            && includes (c_body c) HARASSMENT_MARKER) eqn:Htest;
    [|by repeat split].
  simpl. repeat split. symmetry. apply Hpin.
  unfold isHarassmentOrRemoval. by rewrite Htest.
Qed.

(** What the last two steps of [getFeed] keep of a post whose harassment
    and removal comments are pinned: the pins, and the times of all its
    comments one by one. *)
Lemma serialize_and_final_pass a b p :
  Forall pinnedIfHarassment (v_comments p) ->
  forall q, [q] = finalPinPass [serializePost a b p] ->
  Forall pinnedIfHarassment (v_comments q)
  /\ c_time <$> v_comments q = c_time <$> v_comments p.
Proof.
  intros Hp q [= ->]. simpl. rewrite <- !list_fmap_compose.
  split.
  - apply Forall_fmap. eapply Forall_impl; [exact Hp|]. intros c Hc. simpl.
    destruct (serialized_comment_fields a (v_comments p) c) as (H1 & H2 & H3).
    assert (pinnedIfHarassment
              (restoreAllowInteractions (v_comments p) (toObject_comment a c)))
      as Hs by (by eapply pinnedIfHarassment_same).
    destruct (final_pass_comment_fields _ Hs) as (H4 & H5 & H6).
    by eapply pinnedIfHarassment_same.
  - apply list_eq_Forall2, Forall2_fmap, Forall_Forall2_diag.
    eapply Forall_impl; [exact Hp|]. intros c Hc. simpl.
    destruct (serialized_comment_fields a (v_comments p) c) as (H1 & H2 & H3).
    assert (pinnedIfHarassment
              (restoreAllowInteractions (v_comments p) (toObject_comment a c)))
      as Hs by (by eapply pinnedIfHarassment_same).
    destruct (final_pass_comment_fields _ Hs) as (H4 & H5 & H6).
    cbv zeta in *. congruence.
Qed.

Lemma getFeed_posts_pinned_sorted user w feed w' :
  getFeed user w = (Ok feed, w') ->
  Forall (fun p => Forall pinnedIfHarassment (v_comments p)
                   /\ StronglySorted (fun a b => c_time a >= c_time b)
                        (v_comments p)) feed.
Proof.
  rewrite getFeed_run.
  destruct (applyExperimentalManipulations _ user w) as [[feed1|msg] w1];
    [|done].
  destruct (replayAll user (repinPass feed1)) as [finalfeed|] eqn:Hreplay;
    [|done].
  intros Heq. apply pair_equal_spec in Heq as [[= <-] _].
  pose proof (replayAll_pinned_sorted _ _ _ Hreplay (repinPass_pinned feed1))
    as Hall.
  rewrite <- (sort_by_perm by_postID finalfeed) in Hall.
  unfold finalPinPass. rewrite <- list_fmap_compose.
  apply Forall_fmap. eapply Forall_impl; [exact Hall|].
  intros p [Hpin Hsorted].
  destruct (serialize_and_final_pass (schema_allowInteractions w1)
              (schema_post_overlay w1) p Hpin _ eq_refl) as [Hq Htimes].
  split; [exact Hq|].
  apply StronglySorted_by_time.
  refine (eq_ind_r (StronglySorted Z.ge) _ Htimes).
  by apply StronglySorted_by_time.
Qed.

(** X7: in every feed that [getFeed] returns, on every post and not only
    on the first, each comment that is the harassment comment (class
    [offense1] with the harassment text) or a removal variant of it (a
    class containing [removal]) has the pinned time. *)
Theorem returned_feed_pins_every_harassment_comment
    (user : User) (w w' : World) (feed : list Video) :
  getFeed user w = (Ok feed, w') ->
  Forall (fun p => Forall pinnedIfHarassment (v_comments p)) feed.
Proof.
  intros Hrun. eapply Forall_impl; [by eapply getFeed_posts_pinned_sorted|].
  by intros p [Hpin _].
Qed.

(** X8: in every feed that [getFeed] returns, the top-level comments of
    every post are in descending order of time: serialization and the
    final pinning pass do not disturb the order that the replay left. *)
Theorem returned_feed_comments_are_sorted
    (user : User) (w w' : World) (feed : list Video) :
  getFeed user w = (Ok feed, w') ->
  Forall (fun p => StronglySorted (fun a b => c_time a >= c_time b)
                     (v_comments p)) feed.
Proof.
  intros Hrun. eapply Forall_impl; [by eapply getFeed_posts_pinned_sorted|].
  by intros p [_ Hsorted].
Qed.

Lemma returned_feed_pins_every_harassment_comment_witness :
  let log := [Sample.likeAndCommentsOn 11
                [Sample.replyTo 13; Sample.newComment 60 300]] in
  let user := Sample.user "Rem:Com:Ref" log in
  let first := [Sample.ordinary; Sample.harassment] in
  let w := Sample.world first [Sample.troll; Sample.bot] 4600000 in
  let run := getFeed user w in
  run = (Ok (returned [] run), run.2)
  /\ Forall (fun p => Forall pinnedIfHarassment (v_comments p))
       (returned [] run).
Proof.
  intros log user first w run.
  assert (run = (Ok (returned [] run), run.2)) as H1
    by (vm_compute; reflexivity).
  split; [assumption|].
  exact (returned_feed_pins_every_harassment_comment user w run.2
           (returned [] run) H1).
Defined.

Lemma returned_feed_comments_are_sorted_witness :
  let log := [Sample.likeAndCommentsOn 11
                [Sample.replyTo 13; Sample.newComment 60 300]] in
  let user := Sample.user "Obj:Com:Ref" log in
  let first := [Sample.sixHoursOld; Sample.harassment; Sample.ordinary] in
  let w := Sample.world first [Sample.troll; Sample.amy] 4600000 in
  let run := getFeed user w in
  run = (Ok (returned [] run), run.2)
  /\ Forall (fun p => StronglySorted (fun a b => c_time a >= c_time b)
                        (v_comments p)) (returned [] run).
Proof.
  intros log user first w run.
  assert (run = (Ok (returned [] run), run.2)) as H1
    by (vm_compute; reflexivity).
  split; [assumption|].
  exact (returned_feed_comments_are_sorted user w run.2 (returned [] run) H1).
Defined.

(** * Further properties of the reply dictionary *)

Lemma dict_push_buffers k x d : buffered (dict_push k x d) k x.
Proof.
  induction d as [|[k0 xs] d IH]; simpl.
  - exists [x]. split; apply elem_of_cons; by left.
  - destruct (N.eqb_spec k k0) as [->|Hne].
    + exists (xs ++ [x]). split; [apply elem_of_cons; by left|].
      apply elem_of_app. right. apply elem_of_cons. by left.
    + destruct (k <? k0)%N.
      * exists [x]. split; apply elem_of_cons; by left.
      * destruct IH as (value & Hin & Hx). exists value.
        split; [|done]. apply elem_of_cons. by right.
Qed.

Lemma dict_push_keeps k x d k' y :
  buffered d k' y -> buffered (dict_push k x d) k' y.
Proof.
  intros (value & Hin & Hy). induction d as [|[k0 xs] d IH]; simpl.
  - by apply elem_of_nil in Hin.
  - apply elem_of_cons in Hin as [[= <- <-]|Hin].
    + destruct (N.eqb_spec k k') as [->|Hne].
      * exists (value ++ [x]). split; [apply elem_of_cons; by left|].
        apply elem_of_app. by left.
      * destruct (k <? k')%N; exists value; (split; [|done]);
          apply elem_of_cons; [right; apply elem_of_cons|]; by left.
    + destruct (N.eqb_spec k k0) as [->|Hne].
      * exists value. split; [|done]. apply elem_of_cons. by right.
      * destruct (k <? k0)%N.
        -- exists value. split; [|done]. apply elem_of_cons. right.
           apply elem_of_cons. by right.
        -- destruct (IH Hin) as (value' & Hin' & Hy'). exists value'.
           split; [|done]. apply elem_of_cons. by right.
Qed.

Lemma processCommentObject_keeps_buffered st co k y :
  buffered st.2 k y -> buffered (processCommentObject st co).2 k y.
Proof.
  destruct st as [comments d]. unfold processCommentObject. simpl.
  repeat case_match; simpl; try done. apply dict_push_keeps.
Qed.

Lemma fold_keeps_buffered entries st k y :
  buffered st.2 k y ->
  buffered (fold_left processCommentObject entries st).2 k y.
Proof.
  revert st. induction entries as [|e entries IH]; intros st Hst; [done|].
  cbn [fold_left]. by apply IH, processCommentObject_keeps_buffered.
Qed.

Lemma fold_buffers_replies entries st co reply_to :
  In co entries ->
  ac_new_comment co = true ->
  ac_reply_to co = Some reply_to ->
  buffered (fold_left processCommentObject entries st).2
    (ac_parent_comment co) (cat_reply co reply_to).
Proof.
  intros Hin Hnew Hreply. revert st.
  induction entries as [|e entries IH]; intros st; [done|].
  cbn [fold_left]. destruct Hin as [->|Hin]; [|by apply IH].
  apply fold_keeps_buffered. destruct st as [comments d].
  unfold processCommentObject. rewrite Hnew, Hreply. simpl.
  apply dict_push_buffers.
Qed.

(** X9: when the replay of a post returns, every new reply of its log
    entry is attached: the first top-level comment whose [commentID] is the
    reply's [parent_comment] exists and has among its subcomments a
    subcomment with the body, the time, the [commentID] and the [reply_to]
    that the log entry gives the reply. *)
Theorem reply_is_attached_to_its_parent
    (user : User) (post post' : Video) (fa : FeedAction)
    (co : ActionedComment) (reply_to : N) :
  logEntry user post = Some fa ->
  In co (fa_comments fa) ->
  ac_new_comment co = true ->
  ac_reply_to co = Some reply_to ->
  replayPost user post = Ok post' ->
  exists i parent reply,
    findIndex (fun o => (c_commentID o =? ac_parent_comment co)%N)
      (v_comments post') = Some i
    /\ v_comments post' !! i = Some parent
    /\ reply ∈ c_subcomments parent
    /\ s_body reply = ac_body co
    /\ s_time reply = ac_relativeTime co
    /\ s_commentID reply = ac_new_comment_id co
    /\ s_reply_to reply = Some reply_to.
Proof.
  intros Hfa Hin Hnew Hreply. rewrite (replayPost_run _ _ _ Hfa).
  destruct (mergeReplies _ _) as [comments'|] eqn:Hmerge; simpl; [|done].
  intros [= <-]. rewrite applyPostOverlay_comments. simpl.
  destruct (fold_buffers_replies (fa_comments fa) (v_comments post, [])
              co reply_to Hin Hnew Hreply) as (value & Hvalue & Hx).
  destruct (mergeReplies_spec _ _ _ (bufferedReplies_NoDup post fa) Hmerge)
    as (Hids & _ & Hkeys & _).
  destruct (Hkeys _ _ Hvalue) as (i & p & p' & Hi & Hp & Hp' & Hsubs).
  exists i, p', (cat_reply co reply_to). split; [|split; [done|]].
  - rewrite (findIndex_fmap c_commentID
               (fun n => (n =? ac_parent_comment co)%N) comments').
    rewrite Hids.
    by rewrite <- (findIndex_fmap c_commentID
                     (fun n => (n =? ac_parent_comment co)%N)).
  - split; [|by repeat split].
    rewrite Hsubs. rewrite sort_by_perm. apply elem_of_app. by right.
Qed.

Lemma reply_is_attached_to_its_parent_witness :
  let entries := [Sample.newComment 60 300; Sample.replyTo 15] in
  let fa := Sample.commentsOn 12 entries in
  let user := Sample.user "Control" [fa] in
  let post := Sample.video 12 2 [Sample.ordinary] in
  let post' := valueOf post (replayPost user post) in
  let co := Sample.replyTo 15 in
  logEntry user post = Some fa
  /\ In co (fa_comments fa)
  /\ ac_new_comment co = true
  /\ ac_reply_to co = Some 15%N
  /\ replayPost user post = Ok post'
  /\ exists i parent reply,
       findIndex (fun o => (c_commentID o =? ac_parent_comment co)%N)
         (v_comments post') = Some i
       /\ v_comments post' !! i = Some parent
       /\ reply ∈ c_subcomments parent
       /\ s_body reply = ac_body co
       /\ s_time reply = ac_relativeTime co
       /\ s_commentID reply = ac_new_comment_id co
       /\ s_reply_to reply = Some 15%N.
Proof.
  intros entries fa user post post' co.
  assert (logEntry user post = Some fa) as H1 by reflexivity.
  assert (In co (fa_comments fa)) as H2 by (simpl; auto).
  assert (ac_new_comment co = true) as H3 by reflexivity.
  assert (ac_reply_to co = Some 15%N) as H4 by reflexivity.
  assert (replayPost user post = Ok post') as H5 by (vm_compute; reflexivity).
  repeat (split; [assumption|]).
  exact (reply_is_attached_to_its_parent user post post' fa co 15 H1 H2 H3 H4
           H5).
Defined.

(** * Further properties of the serialization *)

Lemma sameComment_toObject a c x :
  sameComment (toObject_comment a c) x = sameComment c x.
Proof. unfold toObject_comment. by destruct a. Qed.

Lemma sameComment_self c : sameComment c c = true.
Proof. unfold sameComment. by rewrite N.eqb_refl. Qed.

Lemma find_after_prefix {A} (p : A -> bool) pre x l :
  Forall (fun y => p y = false) pre -> p x = true ->
  List.find p (pre ++ x :: l) = Some x.
Proof.
  induction 1 as [|y pre Hy _ IH]; simpl; intros Hx.
  - by rewrite Hx.
  - rewrite Hy. by apply IH.
Qed.

Lemma restore_after_toObject a original c :
  List.find (sameComment (toObject_comment a c)) original = Some c ->
  restoreAllowInteractions original (toObject_comment a c) = c.
Proof.
  intros Hfind. unfold restoreAllowInteractions. rewrite Hfind.
  unfold toObject_comment.
  destruct c as [? ? ? ? ? ? ? ? ? [allow|] ? ? ? ? ?], a; reflexivity.
Qed.

Lemma serialize_comments_roundtrip a pre l :
  Forall (fun c' => Forall (fun x => sameComment c' x = false) pre) l ->
  distinctComments l ->
  map (restoreAllowInteractions (pre ++ l)) (map (toObject_comment a) l) = l.
Proof.
  revert pre. induction l as [|c l IH]; intros pre Hpre Hdist; [done|].
  apply Forall_cons in Hpre as [Hc Hl]. destruct Hdist as [Hlater Hdist].
  cbn [map]. f_equal.
  - apply restore_after_toObject. apply find_after_prefix.
    + eapply Forall_impl; [exact Hc|]. intros x Hx.
      by rewrite sameComment_toObject.
    + rewrite sameComment_toObject. apply sameComment_self.
  - replace (pre ++ c :: l) with ((pre ++ [c]) ++ l)
      by (by rewrite <- app_assoc).
    apply IH; [|done]. apply Forall_forall. intros c' Hc'.
    apply Forall_app. split.
    + by eapply Forall_forall in Hl.
    + constructor; [|constructor]. by eapply Forall_forall in Hlater.
Qed.

(** X10: serialization is lossless on comments that cannot be taken for
    one another.  When no two comments of a post share a [commentID] or an
    [id], the serialized post has exactly the comments of the document,
    [allowInteractions] included, whether or not the schema declares that
    property; of the post only the overlay properties are dropped, and
    only when the schema does not declare them. *)
Theorem serialization_restores_the_comments
    (keeps_allowInteractions keeps_overlay : bool) (post : Video) :
  distinctComments (v_comments post) ->
  serializePost keeps_allowInteractions keeps_overlay post
  = if keeps_overlay then post else set_v_own ∅ post.
Proof.
  intros Hdist. unfold serializePost. simpl.
  assert (map (restoreAllowInteractions (v_comments post))
            (map (toObject_comment keeps_allowInteractions) (v_comments post))
          = v_comments post) as ->.
  { apply (serialize_comments_roundtrip _ []); [|done].
    apply Forall_forall. intros c' _. constructor. }
  destruct post, keeps_overlay; reflexivity.
Qed.

Lemma serialization_restores_the_comments_witness :
  let c := set_c_allowInteractions (Some false) Sample.harassment in
  let post := Sample.video 11 1 [Sample.ordinary; c; Sample.sixHoursOld] in
  distinctComments (v_comments post)
  /\ serializePost false false post
     = if false then post else set_v_own ∅ post.
Proof.
  intros c post.
  assert (distinctComments (v_comments post)) as H1.
  { simpl. repeat split; repeat constructor. }
  split; [assumption|].
  exact (serialization_restores_the_comments false false post H1).
Defined.

(** * Further properties of the replay: references that match nothing *)

Lemma applyDeltaSubcomment_id co s : s_id (applyDeltaSubcomment co s) = s_id s.
Proof.
  unfold applyDeltaSubcomment.
  by destruct (ac_liked co), (ac_unliked co), (ac_flagged co).
Qed.

Lemma processCommentObject_noId x st co :
  noId x st.1 -> noId x (processCommentObject st co).1.
Proof.
  destruct st as [comments d]. unfold processCommentObject, noId. simpl.
  intros H. destruct (ac_new_comment co).
  - destruct (ac_reply_to co); simpl; [done|].
    apply Forall_app. split; [done|]. repeat constructor. simpl. discriminate.
  - destruct (findIndex _ comments) as [i|]; simpl.
    + apply Forall_alter; [done|]. intros c _ [Hc Hs].
      unfold applyDeltaComment.
      by destruct (ac_liked co), (ac_unliked co), (ac_flagged co).
    + apply Forall_fmap. eapply Forall_impl; [exact H|].
      intros c [Hc Hs]. simpl. unfold applyDeltaInSubcomments.
      destruct (findIndex _ (c_subcomments c)) as [j|]; [|done].
      split; [done|]. simpl. apply Forall_alter; [done|].
      intros s _ Hsx. by rewrite applyDeltaSubcomment_id.
Qed.

Lemma fold_processCommentObject_noId x entries st :
  noId x st.1 -> noId x (fold_left processCommentObject entries st).1.
Proof.
  revert st. induction entries as [|e entries IH]; intros st Hst; [done|].
  cbn [fold_left]. by apply IH, processCommentObject_noId.
Qed.

Lemma id_matches_other (id : DocId) x :
  id <> stored x -> id_matches id (Some x) = false.
Proof.
  destruct id as [a|]; simpl; [|done]. intros Hne.
  apply N.eqb_neq. congruence.
Qed.

(** One step of the loop on a reference that matches nothing changes
    neither the comments nor the dictionary. *)
Lemma processCommentObject_dangling x comments
    (d : list (N * list Subcomment)) co :
  noId x comments ->
  ac_new_comment co = false ->
  ac_comment co = Some x ->
  processCommentObject (comments, d) co = (comments, d).
Proof.
  intros Hno Hnew Hx. unfold processCommentObject. rewrite Hnew, Hx.
  assert (findIndex (fun o => id_matches (c_id o) (Some x)) comments = None)
    as ->.
  { apply findIndex_None. eapply Forall_impl; [exact Hno|].
    intros c [Hc _]. by apply id_matches_other. }
  f_equal. rewrite <- (list_fmap_id comments) at 2.
  apply Forall_fmap_ext_1. eapply Forall_impl; [exact Hno|].
  intros c [_ Hs]. unfold applyDeltaInSubcomments. rewrite Hx.
  assert (findIndex (fun o => id_matches (s_id o) (Some x)) (c_subcomments c)
          = None) as ->; [|done].
  apply findIndex_None. eapply Forall_impl; [exact Hs|].
  intros s Hsx. by apply id_matches_other.
Qed.

Lemma fold_processCommentObject_skips post l1 co l2 :
  danglingFor post co ->
  fold_left processCommentObject (l1 ++ co :: l2) (v_comments post, [])
  = fold_left processCommentObject (l1 ++ l2) (v_comments post, []).
Proof.
  intros (Hnew & x & Hx & Hno). rewrite !fold_left_app. cbn [fold_left].
  pose proof (fold_processCommentObject_noId x l1 (v_comments post, []) Hno)
    as Hno1.
  destruct (fold_left processCommentObject l1 (v_comments post, []))
    as [comments d].
  by rewrite (processCommentObject_dangling x).
Qed.

(** X11: a comment action that points at nothing is skipped.  When one
    action of a post's log entry refers to an ObjectId that no comment and
    no subcomment of the post has, the replay of the post gives what it
    gives for the same entry without that action, be it a post or an
    error. *)
Theorem dangling_reference_is_skipped
    (user user' : User) (post : Video) (fa fa' : FeedAction)
    (l1 l2 : list ActionedComment) (co : ActionedComment) :
  logEntry user post = Some fa ->
  logEntry user' post = Some fa' ->
  fa_comments fa = l1 ++ co :: l2 ->
  fa_comments fa' = l1 ++ l2 ->
  fa_liked fa' = fa_liked fa ->
  fa_unliked fa' = fa_unliked fa ->
  fa_flagged fa' = fa_flagged fa ->
  danglingFor post co ->
  replayPost user post = replayPost user' post.
Proof.
  intros Hfa Hfa' Hl Hl' H1 H2 H3 Hdangling.
  rewrite (replayPost_run _ _ _ Hfa), (replayPost_run _ _ _ Hfa').
  unfold bufferedReplies, commentsBeforeMerge. rewrite Hl, Hl'.
  rewrite (fold_processCommentObject_skips post l1 co l2 Hdangling).
  destruct (mergeReplies _ _) as [comments'|]; simpl; [|done].
  unfold applyPostOverlay. by rewrite H1, H2, H3.
Qed.

Lemma dangling_reference_is_skipped_witness :
  let l1 := [Sample.newComment 60 300] in
  let l2 := [Sample.replyTo 15] in
  let co := Sample.likeComment 777 in
  let fa := Sample.likeAndCommentsOn 12 (l1 ++ co :: l2) in
  let fa' := Sample.likeAndCommentsOn 12 (l1 ++ l2) in
  let user := Sample.user "Control" [fa] in
  let user' := Sample.user "Control" [fa'] in
  let post := Sample.video 12 2 [Sample.ordinary] in
  logEntry user post = Some fa
  /\ logEntry user' post = Some fa'
  /\ fa_comments fa = l1 ++ co :: l2
  /\ fa_comments fa' = l1 ++ l2
  /\ fa_liked fa' = fa_liked fa
  /\ fa_unliked fa' = fa_unliked fa
  /\ fa_flagged fa' = fa_flagged fa
  /\ danglingFor post co
  /\ replayPost user post = replayPost user' post.
Proof.
  intros l1 l2 co fa fa' user user' post.
  assert (logEntry user post = Some fa) as H1 by reflexivity.
  assert (logEntry user' post = Some fa') as H2 by reflexivity.
  assert (fa_comments fa = l1 ++ co :: l2) as H3 by reflexivity.
  assert (fa_comments fa' = l1 ++ l2) as H4 by reflexivity.
  assert (fa_liked fa' = fa_liked fa) as H5 by reflexivity.
  assert (fa_unliked fa' = fa_unliked fa) as H6 by reflexivity.
  assert (fa_flagged fa' = fa_flagged fa) as H7 by reflexivity.
  assert (danglingFor post co) as H8.
  { split; [reflexivity|]. exists 777%N. split; [reflexivity|].
    repeat constructor. simpl. discriminate. }
  repeat (split; [assumption|]).
  exact (dangling_reference_is_skipped user user' post fa fa' l1 l2 co
           H1 H2 H3 H4 H5 H6 H7 H8).
Defined.

(** * Properties of the harassment of the last video *)

Lemma findIndex_alter_found {A} (p : A -> bool) (f : A -> A) l i :
  (forall x, p (f x) = true) ->
  findIndex p l = Some i ->
  findIndex p (alter f i l) = Some i.
Proof.
  intros Hf. revert i. induction l as [|y l IH]; intros i; simpl; [done|].
  destruct (p y) eqn:Hp.
  - intros [= <-]. simpl. by rewrite Hf.
  - destruct (findIndex p l) as [j|] eqn:Hj; simpl; [|done].
    intros [= <-]. change (alter f (S j) (y :: l)) with (y :: alter f j l).
    cbn [findIndex]. by rewrite Hp, (IH j eq_refl).
Qed.

Lemma applyHarassmentToLastVideo_comments env3 lastVideo user :
  v_comments lastVideo <> [] ->
  exists i,
    v_comments (applyHarassmentToLastVideo env3 lastVideo user)
    = alter (asLastVideoHarassment (lastVideoText env3)) i
        (v_comments lastVideo)
    /\ findIndex (fun comment => String.eqb (c_class comment) "offense3")
         (v_comments (applyHarassmentToLastVideo env3 lastVideo user))
       = Some i
    /\ (findIndex (fun comment => String.eqb (c_class comment) "offense3")
          (v_comments lastVideo) = Some i
        \/ i = 0%nat
           /\ findIndex (fun comment => String.eqb (c_class comment) "offense3")
                (v_comments lastVideo) = None).
Proof.
  intros Hne. unfold applyHarassmentToLastVideo.
  destruct (v_comments lastVideo) as [|first rest] eqn:Hcomments; [done|].
  cbn [length Nat.ltb Nat.leb].
  rewrite <- Hcomments.
  destruct (findIndex _ (v_comments lastVideo)) as [i|] eqn:Hi.
  - exists i. split; [done|]. split; [|by left].
    cbn [v_comments set_v_comments].
    by apply findIndex_alter_found.
  - exists 0%nat. split; [done|]. split; [|by right].
    cbn [v_comments set_v_comments]. by rewrite Hcomments.
Qed.

(** X12: [applyHarassmentToLastVideo] can be applied again without
    effect: on a post it has already treated it finds the comment it
    wrote and writes the same fields, so the post is the one the first
    application gave. *)
Theorem last_video_harassment_is_idempotent
    (HARASSMENT_COMMENT_V3 : option string) (lastVideo : Video) (user : User) :
  applyHarassmentToLastVideo HARASSMENT_COMMENT_V3
    (applyHarassmentToLastVideo HARASSMENT_COMMENT_V3 lastVideo user) user
  = applyHarassmentToLastVideo HARASSMENT_COMMENT_V3 lastVideo user.
Proof.
  destruct (v_comments lastVideo) as [|first rest] eqn:Hcomments.
  { unfold applyHarassmentToLastVideo. rewrite Hcomments. simpl.
    by rewrite Hcomments. }
  assert (v_comments lastVideo <> []) as Hne by (by rewrite Hcomments).
  destruct (applyHarassmentToLastVideo_comments HARASSMENT_COMMENT_V3
              lastVideo user Hne) as (i & Hafter & Hfound & _).
  unfold applyHarassmentToLastVideo at 1.
  rewrite Hfound.
  assert ((0 <? length (v_comments
             (applyHarassmentToLastVideo HARASSMENT_COMMENT_V3 lastVideo user)))%nat
          = true) as ->.
  { rewrite Hafter, length_alter, Hcomments. reflexivity. }
  fold (lastVideoText HARASSMENT_COMMENT_V3).
  fold (asLastVideoHarassment (lastVideoText HARASSMENT_COMMENT_V3)).
  rewrite Hafter at 1. rewrite list_alter_alter_eq.
  rewrite (list_alter_ext _ (asLastVideoHarassment
                               (lastVideoText HARASSMENT_COMMENT_V3))
             (v_comments lastVideo) (v_comments lastVideo) i) by done.
  rewrite <- Hafter.
  by destruct (applyHarassmentToLastVideo HARASSMENT_COMMENT_V3 lastVideo user).
Qed.

(** X13: what [applyHarassmentToLastVideo] leaves behind.  On a post
    with comments it rewrites one comment in place: the first comment of
    class "offense3", or the first comment of the post when there is
    none.  Afterwards that comment is the first of class "offense3" and
    carries the harassment text (HARASSMENT_COMMENT_V3 or the fallback)
    with 0 likes and 0 unlikes, and the [id], [commentID], actor, time and
    subcomments it had.  The post has as many comments as before and every
    other position holds the comment it held: no comment is added or
    dropped. *)
Theorem last_video_harassment_is_in_place
    (HARASSMENT_COMMENT_V3 : option string) (lastVideo : Video) (user : User) :
  v_comments lastVideo <> [] ->
  let treated := applyHarassmentToLastVideo HARASSMENT_COMMENT_V3 lastVideo user in
  exists i original comment,
    v_comments lastVideo !! i = Some original
    /\ (findIndex (fun comment => String.eqb (c_class comment) "offense3")
          (v_comments lastVideo) = Some i
        \/ i = 0%nat
           /\ findIndex (fun comment => String.eqb (c_class comment) "offense3")
                (v_comments lastVideo) = None)
    /\ v_comments treated = <[i := comment]> (v_comments lastVideo)
    /\ length (v_comments treated) = length (v_comments lastVideo)
    /\ findIndex (fun comment => String.eqb (c_class comment) "offense3")
         (v_comments treated) = Some i
    /\ v_comments treated !! i = Some comment
    /\ c_body comment = lastVideoText HARASSMENT_COMMENT_V3
    /\ c_class comment = "offense3"
    /\ c_likes comment = 0
    /\ c_unlikes comment = 0
    /\ c_id comment = c_id original
    /\ c_commentID comment = c_commentID original
    /\ c_actor comment = c_actor original
    /\ c_time comment = c_time original
    /\ c_subcomments comment = c_subcomments original
    /\ forall j, j <> i -> v_comments treated !! j = v_comments lastVideo !! j.
Proof.
  intros Hne treated. subst treated.
  destruct (applyHarassmentToLastVideo_comments HARASSMENT_COMMENT_V3
              lastVideo user Hne) as (i & Hafter & Hfound & Hwhich).
  destruct (findIndex_Some _ _ _ Hfound) as (comment & Hcomment & _).
  rewrite Hafter in Hcomment.
  rewrite list_lookup_alter, decide_True in Hcomment by done.
  destruct (v_comments lastVideo !! i) as [original|] eqn:Horiginal;
    simpl in Hcomment; [|discriminate].
  injection Hcomment as <-.
  exists i, original,
    (asLastVideoHarassment (lastVideoText HARASSMENT_COMMENT_V3) original).
  split; [done|]. split; [done|].
  split; [by rewrite Hafter, (alter_insert_lookup _ _ _ _ Horiginal)|].
  split; [by rewrite Hafter, length_alter|].
  split; [done|].
  split; [by rewrite Hafter, list_lookup_alter_eq, Horiginal|].
  repeat (split; [reflexivity|]).
  intros j Hj. rewrite Hafter. by apply list_lookup_alter_ne.
Qed.

Lemma last_video_harassment_is_in_place_witness :
  let lastVideo := Sample.video 13 3 [Sample.ordinary; Sample.sixHoursOld] in
  let user := Sample.user "Control" [] in
  v_comments lastVideo <> []
  /\ exists i original comment,
       v_comments lastVideo !! i = Some original
       /\ (findIndex (fun comment => String.eqb (c_class comment) "offense3")
             (v_comments lastVideo) = Some i
           \/ i = 0%nat
              /\ findIndex (fun comment => String.eqb (c_class comment) "offense3")
                   (v_comments lastVideo) = None)
       /\ v_comments (applyHarassmentToLastVideo None lastVideo user) = <[i := comment]> (v_comments lastVideo)
       /\ length (v_comments (applyHarassmentToLastVideo None lastVideo user)) = length (v_comments lastVideo)
       /\ findIndex (fun comment => String.eqb (c_class comment) "offense3")
            (v_comments (applyHarassmentToLastVideo None lastVideo user)) = Some i
       /\ v_comments (applyHarassmentToLastVideo None lastVideo user) !! i = Some comment
       /\ c_body comment = lastVideoText None
       /\ c_class comment = "offense3"
       /\ c_likes comment = 0
       /\ c_unlikes comment = 0
       /\ c_id comment = c_id original
       /\ c_commentID comment = c_commentID original
       /\ c_actor comment = c_actor original
       /\ c_time comment = c_time original
       /\ c_subcomments comment = c_subcomments original
       /\ forall j, j <> i -> v_comments (applyHarassmentToLastVideo None lastVideo user) !! j = v_comments lastVideo !! j.
Proof.
  intros lastVideo user.
  assert (v_comments lastVideo <> []) as H by discriminate.
  split; [exact H|].
  exact (last_video_harassment_is_in_place None lastVideo user H).
Defined.

(** * What the condition can change in a feed *)









(** * When the replay of a post returns *)

Lemma content_commentIDs (l l' : list Comment) :
  content <$> l = content <$> l' -> c_commentID <$> l = c_commentID <$> l'.
Proof.
  intros H.
  assert (forall k : list Comment,
            c_commentID <$> k
            = (fun x => x.1.1.1.1.1.1.1.2) <$> (content <$> k)) as Ht.
  { intros k. rewrite <- list_fmap_compose. by apply list_fmap_ext. }
  by rewrite !Ht, H.
Qed.

Lemma fold_processCommentObject_keys entries st key :
  key ∈ (fold_left processCommentObject entries st).2.*1
  <-> key ∈ st.2.*1
      \/ exists co, In co entries /\ isNewReply co
                    /\ ac_parent_comment co = key.
Proof.
  revert st. induction entries as [|e entries IH]; intros st.
  - simpl. split; [by left|]. intros [H|(co & Hin & _)]; [done|destruct Hin].
  - cbn [fold_left]. rewrite IH. clear IH. destruct st as [comments d].
    unfold processCommentObject, isNewReply.
    destruct (ac_new_comment e) eqn:Hnew; simpl.
    + destruct (ac_reply_to e) as [reply_to|] eqn:Hreply; simpl.
      * rewrite dict_push_keys. split.
        -- intros [[->|H]|(co & Hin & Hco)]; [|by left|].
           ++ right. exists e. split; [by left|]. by eauto.
           ++ right. exists co. split; [by right|done].
        -- intros [H|(co & [->|Hin] & Hco)].
           ++ left. by right.
           ++ left. left. by destruct Hco as [_ <-].
           ++ right. by exists co.
      * split.
        -- intros [H|(co & Hin & Hco)]; [by left|].
           right. exists co. split; [by right|done].
        -- intros [H|(co & [->|Hin] & Hco)]; [by left| |].
           ++ destruct Hco as ((_ & r & Hr) & _). congruence.
           ++ right. by exists co.
    + assert (forall cs : list Comment,
                key ∈ d.*1 \/ (exists co, In co entries
                   /\ (ac_new_comment co = true
                       /\ exists reply_to, ac_reply_to co = Some reply_to)
                   /\ ac_parent_comment co = key)
                <-> key ∈ d.*1 \/ (exists co, (e = co \/ In co entries)
                   /\ (ac_new_comment co = true
                       /\ exists reply_to, ac_reply_to co = Some reply_to)
                   /\ ac_parent_comment co = key)) as Hgoal.
      { intros _. split.
        - intros [H|(co & Hin & Hco)]; [by left|].
          right. exists co. split; [by right|done].
        - intros [H|(co & [->|Hin] & Hco)]; [by left| |].
          + destruct Hco as ((Hn & _) & _). congruence.
          + right. by exists co. }
      destruct (findIndex _ comments); simpl; by apply Hgoal.
Qed.

(** X15: when the replay of a post returns.  It returns exactly when
    every new reply of the post's log entry names as [parent_comment] the
    [commentID] of a top-level comment of the post or of a new top-level
    comment of the same entry, wherever in the entry that comment stands;
    one reply to anything else makes the replay of the post throw. *)
Theorem replay_returns_iff_replies_have_parents (user : User) (post : Video) :
  (exists post', replayPost user post = Ok post')
  <-> forall fa co,
        logEntry user post = Some fa ->
        In co (fa_comments fa) ->
        isNewReply co ->
        ac_parent_comment co
        ∈ c_commentID <$> (v_comments post ++ newTopLevel (fa_comments fa)).
Proof.
  rewrite replayPost_returns.
  assert (forall fa key,
            key ∈ c_commentID <$> commentsBeforeMerge post fa
            <-> key ∈ c_commentID
                       <$> (v_comments post ++ newTopLevel (fa_comments fa)))
    as Hids.
  { intros fa key. unfold commentsBeforeMerge. rewrite sort_by_perm.
    by rewrite (content_commentIDs _ _
                  (fold_processCommentObject_content (fa_comments fa)
                     (v_comments post) [])). }
  split.
  - intros H fa co Hfa Hin Hco. apply Hids, (H fa _ Hfa).
    unfold bufferedReplies. apply fold_processCommentObject_keys.
    right. by exists co.
  - intros H fa key Hfa Hkey. apply Hids.
    unfold bufferedReplies in Hkey.
    apply fold_processCommentObject_keys in Hkey as [Hkey|(co & Hin & Hco & <-)].
    + by apply elem_of_nil in Hkey.
    + by apply (H fa co).
Qed.

(** * What the replay leaves alone on a post *)

(** X16: the replay of a post touches nothing it was not asked to.  It
    keeps [id], [postID], [class] and [actor]; a log entry that is not
    [liked] leaves [likes] and the property [like] as they were, and
    likewise [unliked] for [unlikes] and [unlike], and [flagged] for
    [flag]; no other property of the post is set or cleared. *)
Theorem replay_leaves_the_rest_of_the_post
    (user : User) (post post' : Video) (fa : FeedAction) :
  logEntry user post = Some fa ->
  replayPost user post = Ok post' ->
  (v_id post' = v_id post /\ v_postID post' = v_postID post
   /\ v_class post' = v_class post /\ v_actor post' = v_actor post)
  /\ (fa_liked fa = false ->
      v_likes post' = v_likes post
      /\ v_own post' !! "like" = v_own post !! "like")
  /\ (fa_unliked fa = false ->
      v_unlikes post' = v_unlikes post
      /\ v_own post' !! "unlike" = v_own post !! "unlike")
  /\ (fa_flagged fa = false -> v_own post' !! "flag" = v_own post !! "flag")
  /\ (forall key, key <> "like" -> key <> "unlike" -> key <> "flag" ->
                  v_own post' !! key = v_own post !! key).
Proof.
  intros Hfa. rewrite (replayPost_run _ _ _ Hfa).
  destruct (mergeReplies _ _) as [comments'|]; simpl; [|done].
  intros [= <-]. unfold applyPostOverlay.
  destruct (fa_liked fa), (fa_unliked fa), (fa_flagged fa); simpl;
    repeat split; intros; try done; by simplify_map_eq.
Qed.

Lemma replay_leaves_the_rest_of_the_post_witness :
  let fa := Sample.likeAndCommentsOn 12 [Sample.newComment 60 300] in
  let user := Sample.user "Control" [fa] in
  let post := Sample.video 12 2 [Sample.ordinary] in
  let post' := valueOf post (replayPost user post) in
  logEntry user post = Some fa
  /\ replayPost user post = Ok post'
  /\ (v_id post' = v_id post /\ v_postID post' = v_postID post
      /\ v_class post' = v_class post /\ v_actor post' = v_actor post)
  /\ (fa_liked fa = false ->
      v_likes post' = v_likes post
      /\ v_own post' !! "like" = v_own post !! "like")
  /\ (fa_unliked fa = false ->
      v_unlikes post' = v_unlikes post
      /\ v_own post' !! "unlike" = v_own post !! "unlike")
  /\ (fa_flagged fa = false -> v_own post' !! "flag" = v_own post !! "flag")
  /\ (forall key, key <> "like" -> key <> "unlike" -> key <> "flag" ->
                  v_own post' !! key = v_own post !! key).
Proof.
  intros fa user post post'.
  assert (logEntry user post = Some fa) as H1 by reflexivity.
  assert (replayPost user post = Ok post') as H2 by (vm_compute; reflexivity).
  split; [assumption|]. split; [assumption|].
  exact (replay_leaves_the_rest_of_the_post user post post' fa H1 H2).
Defined.

(** * The comments that a returned feed shows *)










Lemma sameCounts_postIDs l1 l2 :
  Forall2 sameCounts l1 l2 -> v_postID <$> l2 = v_postID <$> l1.
Proof.
  induction 1 as [|x y l1 l2 (_ & Hp & _) _ IH]; [done|].
  rewrite !fmap_cons. by f_equal.
Qed.



(** * The subcomments that a returned feed shows *)

Lemma holdsReply_fmap f c s l :
  keepsReplies f -> holdsReply c s l -> holdsReply c s (f <$> l).
Proof.
  intros Hf H. unfold holdsReply in *. apply Exists_fmap.
  eapply Exists_impl; [exact H|]. intros c' [Hc Hs]. simpl.
  destruct (Hf c') as [Hshown Hsubs]. split; [congruence|by apply Hsubs].
Qed.

Lemma holdsReply_alter f i c s l :
  keepsReplies f -> holdsReply c s l -> holdsReply c s (alter f i l).
Proof.
  intros Hf H. unfold holdsReply in *.
  apply Exists_exists in H as (c' & Hin & Hc & Hs).
  apply list_elem_of_lookup in Hin as [j Hj].
  destruct (Hf c') as [Hshown Hsubs].
  apply Exists_exists. destruct (decide (i = j)) as [->|Hne].
  - exists (f c'). split.
    + apply list_elem_of_lookup. exists j.
      by rewrite list_lookup_alter_eq, Hj.
    + split; [congruence|by apply Hsubs].
  - exists c'. split; [|done]. apply list_elem_of_lookup. exists j.
    by rewrite list_lookup_alter_ne.
Qed.

Lemma holdsReply_perm c s (l l' : list Comment) :
  l ≡ₚ l' -> holdsReply c s l -> holdsReply c s l'.
Proof. intros Hp H. unfold holdsReply in *. by rewrite <- Hp. Qed.

Lemma keepsReplies_same f :
  (forall c, shown (f c) = shown c /\ c_subcomments (f c) = c_subcomments c) ->
  keepsReplies f.
Proof. intros H c. destruct (H c) as [Hc Hs]. by rewrite Hs. Qed.

Lemma keepsReplies_applyDeltaComment co : keepsReplies (applyDeltaComment co).
Proof.
  apply keepsReplies_same. intros c. unfold applyDeltaComment.
  by destruct (ac_liked co), (ac_unliked co), (ac_flagged co).
Qed.

Lemma subShown_applyDeltaSubcomment co s :
  subShown (applyDeltaSubcomment co s) = subShown s.
Proof.
  unfold applyDeltaSubcomment.
  by destruct (ac_liked co), (ac_unliked co), (ac_flagged co).
Qed.

Lemma keepsReplies_applyDeltaInSubcomments co :
  keepsReplies (applyDeltaInSubcomments co).
Proof.
  intros c. unfold applyDeltaInSubcomments.
  destruct (findIndex _ (c_subcomments c)) as [j|]; [|done].
  split; [done|]. simpl. intros x Hx.
  by rewrite (fmap_alter_preserved subShown (applyDeltaSubcomment co) j)
    by apply subShown_applyDeltaSubcomment.
Qed.

Lemma keepsReplies_merge value :
  keepsReplies (fun c => set_c_subcomments
                           (sort_by by_time_asc (c_subcomments c ++ value)) c).
Proof.
  intros c. split; [done|]. simpl. intros x Hx.
  rewrite sort_by_perm, fmap_app. apply elem_of_app. by left.
Qed.

Lemma keepsReplies_pin_if (test : Comment -> bool) :
  keepsReplies (fun comment => if test comment
                               then setHarassmentCommentTime comment
                               else comment).
Proof. apply keepsReplies_same. intros c. by destruct (test c). Qed.

Lemma keepsReplies_serialized a original :
  keepsReplies (fun c => restoreAllowInteractions original (toObject_comment a c)).
Proof.
  apply keepsReplies_same. intros c.
  unfold restoreAllowInteractions, toObject_comment.
  destruct a; repeat case_match; by split.
Qed.

Lemma fold_processCommentObject_holds c s entries st :
  holdsReply c s st.1 ->
  holdsReply c s (fold_left processCommentObject entries st).1.
Proof.
  revert st. induction entries as [|co entries IH]; intros st Hst; [done|].
  cbn [fold_left]. apply IH. destruct st as [comments d].
  unfold processCommentObject. simpl in Hst.
  destruct (ac_new_comment co).
  - destruct (ac_reply_to co); simpl; [done|].
    unfold holdsReply. apply Exists_app. by left.
  - destruct (findIndex _ comments); simpl.
    + by apply holdsReply_alter; [apply keepsReplies_applyDeltaComment|].
    + by apply holdsReply_fmap; [apply keepsReplies_applyDeltaInSubcomments|].
Qed.

Lemma mergeReplies_holds c s dict comments res :
  mergeReplies dict comments = Ok res ->
  holdsReply c s comments -> holdsReply c s res.
Proof.
  revert comments. induction dict as [|[k v] rest IH]; intros comments; simpl.
  - by intros [= <-].
  - destruct (findIndex _ comments) as [i|]; [|done]. intros Hres H.
    apply (IH _ Hres). by apply holdsReply_alter; [apply keepsReplies_merge|].
Qed.

Lemma replayPost_holds user post post' :
  replayPost user post = Ok post' -> keepsRepliesOf post post'.
Proof.
  intros Hrun.
  destruct (replayPost_keeps _ _ _ Hrun) as (Hid & Hpid & _).
  split; [done|]. split; [done|]. intros c s H. revert Hrun.
  destruct (logEntry user post) as [fa|] eqn:Hfa.
  - rewrite (replayPost_run _ _ _ Hfa).
    destruct (mergeReplies _ _) as [comments'|] eqn:Hmerge; simpl; [|done].
    intros [= <-]. rewrite applyPostOverlay_comments. simpl.
    eapply mergeReplies_holds; [exact Hmerge|].
    unfold commentsBeforeMerge.
    eapply holdsReply_perm; [symmetry; apply sort_by_perm|].
    by apply fold_processCommentObject_holds.
  - unfold replayPost. unfold logEntry in Hfa. rewrite Hfa. intros [= <-].
    simpl. eapply holdsReply_perm; [symmetry; apply sort_by_perm|done].
Qed.

Lemma replayAll_holds user feed feed' :
  replayAll user feed = Ok feed' -> Forall2 keepsRepliesOf feed feed'.
Proof.
  revert feed'. induction feed as [|post rest IH]; intros feed'; simpl.
  - intros [= <-]. constructor.
  - destruct (replayPost user post) as [post'|] eqn:Hpost; simpl; [|done].
    destruct (replayAll user rest) as [rest'|]; simpl; [|done].
    intros [= <-]. constructor; [by eapply replayPost_holds|by apply IH].
Qed.

Lemma fmap_keepsRepliesOf (g : Video -> Video) feed :
  (forall p, keepsRepliesOf p (g p)) -> Forall2 keepsRepliesOf feed (g <$> feed).
Proof.
  intros Hg. apply Forall2_fmap_r, Forall_Forall2_diag, Forall_forall.
  intros p _. apply Hg.
Qed.

Lemma keepsRepliesOf_trans p1 p2 p3 :
  keepsRepliesOf p1 p2 -> keepsRepliesOf p2 p3 -> keepsRepliesOf p1 p3.
Proof.
  intros (Hi & Hp & H) (Hi' & Hp' & H').
  repeat split; [congruence..|]. intros c s Hc. by apply H', H.
Qed.

Lemma keepsRepliesOf_pin_if (test : Comment -> bool) p :
  keepsRepliesOf p
    (set_v_comments
       (map (fun comment =>
               if test comment then setHarassmentCommentTime comment
               else comment) (v_comments p)) p).
Proof.
  repeat split. simpl. intros c s.
  apply (holdsReply_fmap _ c s (v_comments p)), keepsReplies_pin_if.
Qed.

Lemma serializePost_keepsRepliesOf a b p :
  keepsRepliesOf p (serializePost a b p).
Proof.
  unfold serializePost. split; [by destruct b|]. split; [by destruct b|].
  cbn [v_comments set_v_comments]. intros c s H.
  change (map ?f ?l) with (f <$> l). rewrite <- list_fmap_compose.
  by apply (holdsReply_fmap _ c s (v_comments p));
    [apply keepsReplies_serialized|].
Qed.

Lemma keepsRepliesOf_postIDs l1 l2 :
  Forall2 keepsRepliesOf l1 l2 -> v_postID <$> l2 = v_postID <$> l1.
Proof.
  induction 1 as [|x y l1 l2 (_ & Hp & _) _ IH]; [done|].
  rewrite !fmap_cons. by f_equal.
Qed.

(** X18: a returned feed keeps every subcomment of the manipulated
    script, the objection among them.  Post by post, whatever subcomment
    the condition manipulation left under a comment is in the feed that
    [getFeed] returns under a comment with the same [id], [commentID],
    body, actor and class, and has there the [id], [commentID], body,
    actor, time and class it had; only its counts and flags may have
    moved with the user's log. *)
Theorem returned_feed_keeps_subcomments
    (user : User) (w w' : World) (feed : list Video) :
  getFeed user w = (Ok feed, w') ->
  exists manipulated w1,
    applyExperimentalManipulations (scriptFeed user w) user w
    = (Ok manipulated, w1)
    /\ Forall2 (fun p q =>
                  forall c s, c ∈ v_comments p -> s ∈ c_subcomments c ->
                              holdsReply c s (v_comments q))
         manipulated feed.
Proof.
  rewrite getFeed_run.
  destruct (applyExperimentalManipulations _ user w) as [[feed1|msg] w1] eqn:Hm;
    [|done].
  destruct (replayAll user (repinPass feed1)) as [finalfeed|] eqn:Hreplay;
    [|done].
  intros Heq. apply pair_equal_spec in Heq as [[= <-] _].
  exists feed1, w1. split; [done|].
  apply applyExperimentalManipulations_sameCounts in Hm.
  apply replayAll_holds in Hreplay.
  assert (Forall2 keepsRepliesOf feed1 finalfeed) as Hkeeps.
  { eapply Forall2_compose; [apply keepsRepliesOf_trans| |exact Hreplay].
    apply fmap_keepsRepliesOf. intros p. apply keepsRepliesOf_pin_if. }
  assert (sort_by by_postID finalfeed = finalfeed) as ->.
  { apply sort_by_of_sorted, sorted_by_postID.
    rewrite (keepsRepliesOf_postIDs _ _ Hkeeps), (sameCounts_postIDs _ _ Hm).
    apply sorted_by_postID, scriptFeed_sorted. }
  eapply Forall2_impl.
  - eapply Forall2_compose; [apply keepsRepliesOf_trans|exact Hkeeps|].
    eapply Forall2_compose; [apply keepsRepliesOf_trans| |].
    + apply fmap_keepsRepliesOf. intros p. apply serializePost_keepsRepliesOf.
    + apply fmap_keepsRepliesOf. intros p. apply keepsRepliesOf_pin_if.
  - intros p q (_ & _ & H) c s Hc Hs. apply H. apply Exists_exists.
    exists c. split; [done|]. split; [done|].
    apply list_elem_of_fmap. by exists s.
Qed.

Lemma returned_feed_keeps_subcomments_witness :
  let log := [Sample.likeAndCommentsOn 11
                [Sample.replyTo 13; Sample.newComment 60 300]] in
  let user := Sample.user "Obj:AI:Ref" log in
  let first := [Sample.ordinary; Sample.harassment] in
  let w := Sample.world first [Sample.troll; Sample.bot] 4600000 in
  let run := getFeed user w in
  run = (Ok (returned [] run), run.2)
  /\ exists manipulated w1,
       applyExperimentalManipulations (scriptFeed user w) user w
       = (Ok manipulated, w1)
       /\ Forall2 (fun p q =>
                     forall c s, c ∈ v_comments p -> s ∈ c_subcomments c ->
                                 holdsReply c s (v_comments q))
            manipulated (returned [] run).
Proof.
  intros log user first w run.
  assert (run = (Ok (returned [] run), run.2)) as H1
    by (vm_compute; reflexivity).
  split; [assumption|].
  exact (returned_feed_keeps_subcomments user w run.2 (returned [] run) H1).
Defined.

(** * Interactions on the harassment comment *)

(** X19: [allowInteractions] on the harassment comment after the
    manipulation, under the nine conditions.  A removal condition leaves
    the comment with the user name [[deleted]] and no subcomments.
    [Control] allows interactions.  On a comment that was found in the
    video, and on a created one when the comment schema declares
    [allowInteractions], the property is false under every removal
    condition and true under every objection condition, so that it is
    true exactly under [Control] and the objection conditions.  On a
    created comment under a schema that does not declare the path, the
    property is undefined under every condition but [Control], which
    assigns it after the push. *)
Theorem allowInteractions_by_condition
    (user : User) (firstVideo v' : Video) (w w' : World) (i : nat) :
  In (condition user) conditions ->
  harassmentIndex (v_comments firstVideo) w = Some i ->
  applyManipulationToFirstVideo firstVideo user w = (Ok v', w') ->
  exists c, v_comments v' !! i = Some c
    /\ (In (condition user) removalConditions ->
        actorUsername c = Some "[deleted]" /\ c_subcomments c = [])
    /\ (condition user = "Control" -> c_allowInteractions c = Some true)
    /\ (is_Some (locateHarassment (v_comments firstVideo))
        \/ schema_allowInteractions w = true ->
        (In (condition user) removalConditions ->
         c_allowInteractions c = Some false)
        /\ (c_allowInteractions c = Some true <->
            condition user = "Control"
            \/ In (condition user) objectionConditions))
    /\ (locateHarassment (v_comments firstVideo) = None ->
        schema_allowInteractions w = false ->
        condition user <> "Control" ->
        c_allowInteractions c = None).
Proof.
  intros Hcond Hidx Hrun.
  destruct (manipulated_harassment_comment _ _ _ _ _ _ Hcond Hidx Hrun)
    as (c0 & c & _ & Hc & _ & _ & _ & Hctl & Hrem & Hobj).
  exists c. split; [done|].
  split; [intros Hr; by destruct (Hrem Hr) as (? & ? & _)|].
  split; [done|]. split.
  - intros Hkept.
    assert (allowInteractionsBefore (condition user) (v_comments firstVideo) w
            = Some (isObjectionCondition (condition user))) as Hbefore.
    { unfold allowInteractionsBefore.
      destruct Hkept as [[j ->]| ->]; [done|].
      by destruct (locateHarassment _). }
    split.
    + intros Hr. destruct (Hrem Hr) as (_ & _ & ->).
      destruct (removal_condition_facts _ Hr) as (_ & _ & Hf).
      by rewrite Hbefore, Hf.
    + split.
      * intros Ha. destruct Hcond as [Hcond|Hcond]; [by left|].
        apply in_app_or in Hcond as [Hr|Ho]; [|by right].
        destruct (Hrem Hr) as (_ & _ & Hf).
        destruct (removal_condition_facts _ Hr) as (_ & _ & Hf').
        rewrite Hf, Hbefore, Hf' in Ha. discriminate.
      * intros [H|Ho]; [auto|].
        destruct (objection_condition_facts _ Ho) as (_ & _ & Hf).
        by rewrite (Hobj Ho), Hbefore, Hf.
  - intros Hnone Hschema Hnc.
    assert (allowInteractionsBefore (condition user) (v_comments firstVideo) w
            = None) as Hbefore.
    { unfold allowInteractionsBefore. by rewrite Hnone, Hschema. }
    destruct Hcond as [Hcond|Hcond]; [by symmetry in Hcond|].
    apply in_app_or in Hcond as [Hr|Ho].
    + destruct (Hrem Hr) as (_ & _ & ->). done.
    + by rewrite (Hobj Ho).
Qed.

Lemma allowInteractions_by_condition_witness :
  let user := Sample.user "Rem:AI:Ref" [] in
  let firstVideo := Sample.video 11 1 [Sample.ordinary; Sample.harassment] in
  let w := Sample.world [Sample.ordinary; Sample.harassment] [Sample.troll] 0 in
  let run := applyManipulationToFirstVideo firstVideo user w in
  In (condition user) conditions
  /\ harassmentIndex (v_comments firstVideo) w = Some 1%nat
  /\ run = (Ok (returned firstVideo run), run.2)
  /\ exists c, v_comments (returned firstVideo run) !! 1%nat = Some c
       /\ (In (condition user) removalConditions ->
           actorUsername c = Some "[deleted]" /\ c_subcomments c = [])
       /\ (condition user = "Control" -> c_allowInteractions c = Some true)
       /\ (is_Some (locateHarassment (v_comments firstVideo))
           \/ schema_allowInteractions w = true ->
           (In (condition user) removalConditions ->
            c_allowInteractions c = Some false)
           /\ (c_allowInteractions c = Some true <->
               condition user = "Control"
               \/ In (condition user) objectionConditions))
       /\ (locateHarassment (v_comments firstVideo) = None ->
           schema_allowInteractions w = false ->
           condition user <> "Control" ->
           c_allowInteractions c = None).
Proof.
  intros user firstVideo w run.
  assert (In (condition user) conditions) as H1 by (simpl; auto).
  assert (harassmentIndex (v_comments firstVideo) w = Some 1%nat) as H2
    by reflexivity.
  assert (run = (Ok (returned firstVideo run), run.2)) as H3
    by (vm_compute; reflexivity).
  repeat (split; [assumption|]).
  exact (allowInteractions_by_condition user firstVideo
           (returned firstVideo run) w run.2 1%nat H1 H2 H3).
Defined.
